(** * The SDG data pipeline: ingestion and cleaning stages

    A shallow embedding of [1_data_ingestion.py] and [2_data_cleaning.py]
    (and of the connectivity prelude shared with [3_data_analysis.py] and
    [4_visualizations.py], with the choice of columns these two make in
    the cleaned EV table).

    The scripts are linear Python programs over three libraries: requests,
    pymongo and pandas.  The model keeps their shape:

    - Python values are the inductive [pyval]; a document (a Python [dict]
      with string keys) is an association list in insertion order;
    - a pandas column is a typed list of cells ([column]), a frame is a row
      count with an ordered list of named columns;
    - the document store, the network, the clock, the random generator and
      the console form the [world] that a small state-and-exception monad
      threads through each script; any store command can be made to fail by
      the fault schedule of the world;
    - finite float64 values are modelled by exact rationals ([Q]), kept in
      lowest terms by the arithmetic; NaN is a value of its own.  Printing
      of floats (Python's shortest round-trip [repr]) is a parameter of the
      development ([Runtime]).

    Library behaviour is taken from the documentation of the libraries:
    pymongo refuses an empty bulk insert and gives an [_id] to documents
    that have none; pandas reads missing keys as NaN, infers column dtypes
    from the values, skips NaN in [median] and lets an in-place [fillna] on
    [df[col]] reach the frame (releases without copy-on-write).  Progress
    messages of the scripts are left out of the trace; diagnostics are
    kept. *)

From Stdlib Require Import ZArith QArith String Ascii DecimalString Lia Lqa.
From stdpp Require Import base list strings gmap.

Set Warnings "-register-all".
Open Scope string_scope.

(** ** Python values *)

Inductive pyval : Type :=
| PNone
| PNaN
| PBool (b : bool)
| PInt (z : Z)
| PFloat (q : Q)
| PStr (s : string)
| PList (l : list pyval)
| PDict (d : list (string * pyval))
| PObjectId (n : nat)
| PDatetime (t : Z).

(** A document: string keys, insertion order kept, no duplicate keys when
    built through [dict_set]. *)
Abbreviation doc := (list (string * pyval)).

Fixpoint dict_get (k : string) (d : doc) : option pyval :=
  match d with
  | [] => None
  | (k', v) :: d' => if String.eqb k k' then Some v else dict_get k d'
  end.

(** [d[k] = v]: overwrite in place when the key exists, append otherwise. *)
Fixpoint dict_set (k : string) (v : pyval) (d : doc) : doc :=
  match d with
  | [] => [(k, v)]
  | (k', v') :: d' =>
      if String.eqb k k' then (k, v) :: d' else (k', v') :: dict_set k v d'
  end.

Definition dict_has (k : string) (d : doc) : bool :=
  match dict_get k d with Some _ => true | None => false end.

Definition dict_keys (d : doc) : list string := d.*1.

(** [pandas.isnull] on a scalar held in an object column. *)
Definition isnull (v : pyval) : bool :=
  match v with
  | PNone | PNaN => true
  | _ => false
  end.

(** Python truthiness, as used by [if sample_val and ...]. *)
Definition truthy (v : pyval) : bool :=
  match v with
  | PNone => false
  | PNaN => true
  | PBool b => b
  | PInt z => negb (z =? 0)%Z
  | PFloat q => negb (Qeq_bool q 0)
  | PStr s => negb (String.eqb s "")
  | PList l => match l with [] => false | _ => true end
  | PDict d => match d with [] => false | _ => true end
  | PObjectId _ => true
  | PDatetime _ => true
  end.

(** ** Strings: [str.replace], [str.isdigit], decimal numerals *)

Definition is_digit (c : ascii) : bool :=
  (48 <=? nat_of_ascii c)%nat && (nat_of_ascii c <=? 57)%nat.

(** [s.replace(c, '')] for a one-character pattern. *)
Fixpoint remove_char (c : ascii) (s : string) : string :=
  match s with
  | EmptyString => EmptyString
  | String a s' =>
      if Ascii.eqb a c then remove_char c s' else String a (remove_char c s')
  end.

Fixpoint all_digits (s : string) : bool :=
  match s with
  | EmptyString => true
  | String a s' => is_digit a && all_digits s'
  end.

(** [str.isdigit]: at least one character, and every character a digit.
    Characters are bytes here and digits are ['0'..'9']; the digits of
    other scripts, which Python accepts as well, are outside the model. *)
Definition isdigit (s : string) : bool :=
  match s with
  | EmptyString => false
  | _ => all_digits s
  end.

(** The test of the cleaning script:
    [s.replace('.', '').replace('-', '').isdigit()]. *)
Definition looks_numeric (s : string) : bool :=
  isdigit (remove_char "-"%char (remove_char "."%char s)).

Definition digit_value (c : ascii) : Z := Z.of_nat (nat_of_ascii c - 48).

Fixpoint digits_value (acc : Z) (s : string) : Z :=
  match s with
  | EmptyString => acc
  | String a s' => digits_value (10 * acc + digit_value a)%Z s'
  end.

(** Cut a string at its first ['.']. *)
Fixpoint split_dot (s : string) : string * option string :=
  match s with
  | EmptyString => (EmptyString, None)
  | String a s' =>
      if Ascii.eqb a "."%char then (EmptyString, Some s')
      else let '(i, f) := split_dot s' in (String a i, f)
  end.

(** A parsed numeral: an integer literal or a literal with a fraction. *)
Inductive numeral : Type :=
| NumInt (z : Z)
| NumFloat (q : Q).

Definition parse_unsigned (s : string) : option numeral :=
  match split_dot s with
  | (i, None) => if isdigit i then Some (NumInt (digits_value 0 i)) else None
  | (i, Some f) =>
      if all_digits i && all_digits f
         && negb (String.eqb i "" && String.eqb f "")
      then Some (NumFloat
                   (Qred (Qmake (digits_value 0 (i ++ f))
                                (Z.to_pos (10 ^ Z.of_nat (String.length f))))))
      else None
  end.

Definition numeral_opp (n : numeral) : numeral :=
  match n with
  | NumInt z => NumInt (- z)
  | NumFloat q => NumFloat (Qopp q)
  end.

(** The numeric reading of a string cell by [pandas.to_numeric]: a signed
    decimal numeral with an optional fraction.  Exponent notation,
    infinities and surrounding blanks are outside the modelled input
    domain (the two feeds deliver plain decimal numerals); such strings
    count as unparseable here. *)
Definition parse_numeral (s : string) : option numeral :=
  match s with
  | String "-" s' => numeral_opp <$> parse_unsigned s'
  | String "+" s' => parse_unsigned s'
  | _ => parse_unsigned s
  end.

Definition str_of_int (z : Z) : string :=
  NilZero.string_of_int (Z.to_int z).

(** ** Columns and frames *)

(** A pandas column with its dtype: [object], [int64], [float64] (where
    [None] is NaN) or [bool]. *)
Inductive column : Type :=
| ColObject (cells : list pyval)
| ColInt (cells : list Z)
| ColFloat (cells : list (option Q))
| ColBool (cells : list bool).

Definition float_cell (c : option Q) : pyval :=
  match c with Some q => PFloat q | None => PNaN end.

(** The cells of a column as Python scalars ([Series.tolist]). *)
Definition column_cells (c : column) : list pyval :=
  match c with
  | ColObject l => l
  | ColInt l => PInt <$> l
  | ColFloat l => float_cell <$> l
  | ColBool l => PBool <$> l
  end.

(** [c.dtype in ['float64', 'int64']]. *)
Definition is_numeric_dtype (c : column) : bool :=
  match c with
  | ColInt _ | ColFloat _ => true
  | ColObject _ | ColBool _ => false
  end.

(** [c.isnull().sum()]. *)
Definition missing_count (c : column) : nat :=
  length (filter (λ v, isnull v = true) (column_cells c)).

(** [c.dropna()], as Python scalars. *)
Definition dropna (c : column) : list pyval :=
  filter (λ v, isnull v = false) (column_cells c).

Record frame : Type := Frame {
  nrows : nat;
  columns : list (string * column)
}.

Fixpoint frame_get (k : string) (cs : list (string * column)) : option column :=
  match cs with
  | [] => None
  | (k', c) :: cs' => if String.eqb k k' then Some c else frame_get k cs'
  end.

(** [df[k] = c]: replace the column when the name exists, append it as the
    last column otherwise. *)
Fixpoint frame_set (k : string) (c : column) (cs : list (string * column))
  : list (string * column) :=
  match cs with
  | [] => [(k, c)]
  | (k', c') :: cs' =>
      if String.eqb k k' then (k, c) :: cs' else (k', c') :: frame_set k c cs'
  end.

Definition frame_has (k : string) (cs : list (string * column)) : bool :=
  match frame_get k cs with Some _ => true | None => false end.

Definition in_list (k : string) (l : list string) : bool :=
  existsb (String.eqb k) l.

(** [df.drop(columns=[col for col in names if col in df.columns])]. *)
Definition frame_drop (names : list string) (df : frame) : frame :=
  Frame (nrows df)
        (filter (λ kc, in_list kc.1 names = false) (columns df)).

(** *** Building a frame from a list of documents *)

(** Keys in order of first appearance over the documents. *)
Fixpoint add_keys (ks : list string) (seen : list string) : list string :=
  match ks with
  | [] => seen
  | k :: ks' => add_keys ks' (if in_list k seen then seen else seen ++ [k])
  end.

Definition union_keys (docs : list doc) : list string :=
  foldl (λ seen d, add_keys (dict_keys d) seen) [] docs.

(** A key absent from a document reads as NaN. *)
Definition raw_cells (k : string) (docs : list doc) : list pyval :=
  (λ d, default PNaN (dict_get k d)) <$> docs.

Definition is_scalar_num (v : pyval) : bool :=
  match v with
  | PNone | PNaN | PInt _ | PFloat _ => true
  | _ => false
  end.

Definition is_bool_val (v : pyval) : bool :=
  match v with PBool _ => true | _ => false end.

Definition is_int_val (v : pyval) : bool :=
  match v with PInt _ => true | _ => false end.

Definition is_float_like (v : pyval) : bool :=
  match v with PFloat _ | PNaN => true | _ => false end.

Definition as_float (v : pyval) : option Q :=
  match v with
  | PInt z => Some (inject_Z z)
  | PFloat q => Some q
  | PBool b => Some (if b then 1 else 0)%Q
  | _ => None
  end.

Definition as_int (v : pyval) : Z :=
  match v with
  | PInt z => z
  | PBool b => if b then 1%Z else 0%Z
  | _ => 0%Z
  end.

Definition as_bool (v : pyval) : bool :=
  match v with PBool b => b | _ => false end.

(** dtype inference of the [DataFrame] constructor on one column of
    Python objects: all booleans give [bool]; integers alone give [int64];
    numbers with a missing entry or a float give [float64]; a column of
    [None] alone stays [object], one that also holds a NaN is [float64];
    anything else is [object]. *)
Definition infer_column (cells : list pyval) : column :=
  match cells with
  | [] => ColObject []
  | _ =>
      if forallb is_bool_val cells then ColBool (as_bool <$> cells)
      else if forallb is_scalar_num cells then
        if forallb is_int_val cells then ColInt (as_int <$> cells)
        else if existsb is_int_val cells || existsb is_float_like cells
             then ColFloat (as_float <$> cells)
             else ColObject cells
      else ColObject cells
  end.

(** [pd.DataFrame(list(cursor))]. *)
Definition frame_of_docs (docs : list doc) : frame :=
  Frame (length docs)
        ((λ k, (k, infer_column (raw_cells k docs))) <$> union_keys docs).

(** [df.to_dict('records')]. *)
Definition row_of (cs : list (string * column)) (i : nat) : doc :=
  (λ kc, (kc.1, default PNaN (column_cells kc.2 !! i))) <$> cs.

Definition to_records (df : frame) : list doc :=
  row_of (columns df) <$> seq 0 (nrows df).

(** *** Numeric coercion: [pd.to_numeric(c, errors='coerce')] *)

(** One object cell: numbers stay, booleans count as 0/1, numerals in
    strings are parsed, everything else becomes missing. *)
Definition to_numeric_cell (v : pyval) : option numeral :=
  match v with
  | PInt z => Some (NumInt z)
  | PFloat q => Some (NumFloat q)
  | PBool b => Some (NumInt (if b then 1 else 0)%Z)
  | PStr s => parse_numeral s
  | _ => None
  end.

Definition numeral_is_int (n : option numeral) : bool :=
  match n with Some (NumInt _) => true | _ => false end.

Definition numeral_float (n : option numeral) : option Q :=
  match n with
  | Some (NumInt z) => Some (inject_Z z)
  | Some (NumFloat q) => Some q
  | None => None
  end.

Definition numeral_int (n : option numeral) : Z :=
  match n with Some (NumInt z) => z | _ => 0%Z end.

(** A column that already has a numeric or boolean dtype is returned as it
    is; an object column becomes [int64] when every cell reads as an
    integer and [float64] as soon as one cell is a float or missing. *)
Definition to_numeric (c : column) : column :=
  match c with
  | ColObject [] => ColFloat []
  | ColObject cells =>
      let ns := to_numeric_cell <$> cells in
      if forallb is_bool_val cells then ColBool (as_bool <$> cells)
      else if forallb numeral_is_int ns then ColInt (numeral_int <$> ns)
      else ColFloat (numeral_float <$> ns)
  | _ => c
  end.

(** *** Median and filling *)

Fixpoint insert_sorted (x : Q) (l : list Q) : list Q :=
  match l with
  | [] => [x]
  | y :: l' => if Qle_bool x y then x :: l else y :: insert_sorted x l'
  end.

Definition sort_values (l : list Q) : list Q := foldr insert_sorted [] l.

(** Median of the present values: the middle one, or the mean of the two
    middle ones; none when there is no value.  (Results of arithmetic are
    kept in lowest terms, so that equal numbers are equal terms.) *)
Definition median_of (vals : list Q) : option Q :=
  let s := sort_values vals in
  let n := length s in
  if Nat.odd n then s !! (n / 2)%nat
  else match s !! (n / 2 - 1)%nat, s !! (n / 2)%nat with
       | Some a, Some b => Some (Qred ((a + b) / 2))
       | _, _ => None
       end.

(** The values [Series.median] looks at: missing entries are skipped. *)
Definition numeric_values (c : column) : list Q :=
  omap as_float (column_cells c).

(** [c.median()]; [None] is NaN. *)
Definition median (c : column) : option Q := median_of (numeric_values c).

(** [c.fillna(m)] for a float [m] that may be NaN: filling with NaN changes
    nothing. *)
Definition fillna_float (m : option Q) (c : column) : column :=
  match m with
  | None => c
  | Some q =>
      match c with
      | ColFloat l => ColFloat ((λ x, Some (default q x)) <$> l)
      | ColObject l => ColObject ((λ v, if isnull v then PFloat q else v) <$> l)
      | _ => c
      end
  end.

(** [c.fillna(s)] for a string [s]. *)
Definition fillna_str (s : string) (c : column) : column :=
  match c with
  | ColObject l => ColObject ((λ v, if isnull v then PStr s else v) <$> l)
  | ColFloat l =>
      if forallb (λ x, match x with Some _ => true | None => false end) l
      then c
      else ColObject ((λ x, match x with Some q => PFloat q | None => PStr s end) <$> l)
  | _ => c
  end.

(** The body of the fill loop, shared by both datasets:
<<
    missing_count = df[col].isnull().sum()
    if missing_count > 0:
        if df[col].dtype in ['float64', 'int64']:
            df[col].fillna(df[col].median(), inplace=True)
        else:
            df[col].fillna('Unknown', inplace=True)
>>
    The in-place fill on [df[col]] is taken to reach the frame, as it does
    in the pandas releases without copy-on-write. *)
Definition fill_column (c : column) : column :=
  if (0 <? missing_count c)%nat then
    if is_numeric_dtype c then fillna_float (median c) c
    else fillna_str "Unknown" c
  else c.

Definition update_column (f : column → column) (df : frame) (col : string)
  : frame :=
  match frame_get col (columns df) with
  | Some c => Frame (nrows df) (frame_set col (f c) (columns df))
  | None => df
  end.

(** [for col in df.columns: ...] of the fill step. *)
Definition fill_missing (df : frame) : frame :=
  foldl (update_column fill_column) df (columns df).*1.

(** [df.isnull().sum().sum()]. *)
Definition total_missing (df : frame) : nat :=
  sum_list ((λ kc, missing_count kc.2) <$> columns df).

(** ** The Python runtime's printing

    [str()] of [None], booleans, integers and strings is fixed; the text of
    floats (shortest round-trip [repr]), containers, object ids and
    timestamps is left to the runtime. *)
Class Runtime : Type := {
  str_other : pyval → string
}.

Section Cleaning.
Context `{Runtime}.

Definition py_str (v : pyval) : string :=
  match v with
  | PStr s => s
  | PInt z => str_of_int z
  | PBool true => "True"
  | PBool false => "False"
  | PNone => "None"
  | PNaN => "nan"
  | _ => str_other v
  end.

(** *** EV: heuristic numeric conversion *)

(** [c.dropna().iloc[0] if len(c.dropna()) > 0 else None]. *)
Definition sample_val (c : column) : option pyval := head (dropna c).

(** [isinstance(sample_val, (int, float, str))].  In an object column the
    sample is the Python object itself ([bool] is a subclass of [int]); in a
    [float64] column it is a [numpy.float64], which subclasses [float]; the
    [numpy.int64] and [numpy.bool_] of the other dtypes subclass none of
    the three. *)
Definition isinstance_int_float_str (c : column) (v : pyval) : bool :=
  match c with
  | ColObject _ =>
      match v with
      | PInt _ | PBool _ | PFloat _ | PNaN | PStr _ => true
      | _ => false
      end
  | ColFloat _ => true
  | ColInt _ | ColBool _ => false
  end.

(** The guard of the conversion:
<<
    if sample_val and isinstance(sample_val, (int, float, str)):
        if str(sample_val).replace('.', '').replace('-', '').isdigit():
>> *)
Definition wants_numeric (c : column) : bool :=
  match sample_val c with
  | Some v =>
      truthy v && isinstance_int_float_str c v && looks_numeric (py_str v)
  | None => false
  end.

(** The body of the EV conversion loop, seen from the column. *)
Definition convert_column (c : column) : column :=
  if wants_numeric c then to_numeric c else c.

(** One turn of the conversion loop.  The [try] around the body ends in a
    bare [except: pass]; with [errors='coerce'] nothing in the body raises,
    so the clause has nothing to swallow here. *)
Definition convert_step (st : frame * nat) (col : string) : frame * nat :=
  match frame_get col (columns st.1) with
  | Some c =>
      if wants_numeric c
      then (Frame (nrows st.1) (frame_set col (to_numeric c) (columns st.1)),
            S st.2)
      else st
  | None => st
  end.

(** The conversion loop over [ev_df_clean.columns], with its counter
    [numeric_conversions]. *)
Definition convert_numeric_columns (df : frame) : frame * nat :=
  foldl convert_step (df, 0%nat) (columns df).*1.

(** *** Nutrition: conversion of the known numeric columns *)

Definition numeric_cols : list string :=
  ["data_value"; "data_value_alt"; "low_confidence_limit";
   "high_confidence_limit"; "sample_size"].

Definition year_cols : list string := ["yearstart"; "yearend"].

(** [for col in names: if col in df.columns: df[col] = pd.to_numeric(...)]. *)
Definition coerce_named (names : list string) (df : frame) : frame :=
  foldl (update_column to_numeric) df names.

(** *** Derived columns *)

Definition columns_to_drop : list string :=
  ["_id"; "_imported_at"; "_dataset_name"; "_source"].

(** [df[k] = c]. *)
Definition assign (k : string) (c : column) (df : frame) : frame :=
  Frame (nrows df) (frame_set k c (columns df)).

(** [df['_processed_at'] = now; df['_record_id'] = range(1, len(df) + 1)]. *)
Definition add_bookkeeping (now : Z) (df : frame) : frame :=
  assign "_record_id" (ColInt (Z.of_nat <$> seq 1 (nrows df)))
    (assign "_processed_at" (ColObject (replicate (nrows df) (PDatetime now)))
       df).

(** [a.astype(str) + '-' + b.astype(str)]. *)
Definition year_range_column (a b : column) : column :=
  ColObject (zip_with (λ x y, PStr (py_str x ++ "-" ++ py_str y))
               (column_cells a) (column_cells b)).

Definition float_sub (x y : option Q) : option Q :=
  match x, y with
  | Some a, Some b => Some (Qred (a - b))
  | _, _ => None
  end.

(** [high - low] on two columns, elementwise.  Two [int64] columns give an
    [int64] column, a float on either side gives [float64] (NaN absorbs);
    numpy refuses to subtract two boolean columns, and object columns
    never reach this point (their result is not modelled): both read as
    [None], a raised [TypeError]. *)
Definition column_sub (hi lo : column) : option column :=
  match hi, lo with
  | ColBool _, ColBool _ => None
  | ColObject _, _ | _, ColObject _ => None
  | ColFloat _, _ | _, ColFloat _ =>
      Some (ColFloat (zip_with float_sub (as_float <$> column_cells hi)
                                         (as_float <$> column_cells lo)))
  | _, _ =>
      Some (ColInt (zip_with Z.sub (as_int <$> column_cells hi)
                                   (as_int <$> column_cells lo)))
  end.

End Cleaning.

(** ** The world of a script: store, network, clock, generator, console *)

(** What an [except Exception] clause can catch, split the way the
    ingestion handlers split it. *)
Inductive error : Type :=
| RequestException (msg : string)
| OtherException (cls msg : string).

(** What a statement can raise: an [error], or the [SystemExit] of
    [exit()], which no [except Exception] clause catches. *)
Inductive exn : Type :=
| Error (e : error)
| SystemExit (code : option Z).

Definition error_text (e : error) : string :=
  match e with
  | RequestException msg => msg
  | OtherException _ msg => msg
  end.

Inductive event : Type :=
| Print (msg : string)
| HttpGet (url : string)
| DocumentCount (collection : string) (n : nat)
| CsvExport (file : string) (rows : list doc).

Record world : Type := World {
  (** [db[name]]: the documents of each existing collection, oldest first *)
  store : gmap string (list doc);
  (** counter behind the object ids the store hands out *)
  next_oid : nat;
  (** outcome of [requests.get(url).raise_for_status().json()] *)
  http : string → error + pyval;
  (** one entry per store command still to come: [Some e] makes it raise *)
  faults : list (option error);
  (** [datetime.now()] *)
  clock : Z;
  (** draws of the random generator still to come *)
  rng : list nat;
  (** what the script printed, requested and exported, oldest first *)
  trace : list event
}.

Definition M (A : Type) : Type := world → (exn + A) * world.

Definition raise {A} (e : exn) : M A := λ w, (inl e, w).

#[global] Instance M_ret : MRet M := λ A a w, (inr a, w).

#[global] Instance M_bind : MBind M := λ A B k m w,
  match m w with
  | (inl e, w') => (inl e, w')
  | (inr a, w') => k a w'
  end.

Definition ret {A} (a : A) : M A := mret a.

(** [try: body  except Exception as e: handler e].  A [SystemExit] passes
    through. *)
Definition try_except {A} (body : M A) (handler : error → M A) : M A :=
  λ w, match body w with
       | (inl (Error e), w') => handler e w'
       | r => r
       end.

Definition lift_result {A} (r : error + A) : M A :=
  match r with
  | inl e => raise (Error e)
  | inr a => ret a
  end.

Fixpoint mapM {A B} (f : A → M B) (l : list A) : M (list B) :=
  match l with
  | [] => ret []
  | a :: l' => b ← f a; bs ← mapM f l'; ret (b :: bs)
  end.

Fixpoint forM_ {A} (l : list A) (f : A → M unit) : M unit :=
  match l with
  | [] => ret tt
  | a :: l' => f a;; forM_ l' f
  end.

Definition emit (ev : event) : M unit :=
  λ w, (inr tt, World (store w) (next_oid w) (http w) (faults w) (clock w)
                      (rng w) (trace w ++ [ev])).

Definition print (msg : string) : M unit := emit (Print msg).

(** [datetime.now()]: reads the clock, which then moves on. *)
Definition datetime_now : M Z :=
  λ w, (inr (clock w),
        World (store w) (next_oid w) (http w) (faults w) (clock w + 1)
              (rng w) (trace w)).

(** [requests.get(url, timeout=120)], [raise_for_status()] and [json()]:
    three calls in a row without any effect of the script in between; any
    of them may raise. *)
Definition http_result (url : string) : M pyval :=
  λ w, lift_result (http w url) w.

Definition http_get_json (url : string) : M pyval :=
  emit (HttpGet url);; http_result url.

(** [exit()]: the [site] builtin raises [SystemExit(None)]. *)
Definition py_exit {A} (code : option Z) : M A := raise (SystemExit code).

(** *** Store commands *)

(** Every command first meets the next entry of the fault schedule. *)
Definition store_command : M unit :=
  λ w, match faults w with
       | Some e :: fs =>
           (inl (Error e),
            World (store w) (next_oid w) (http w) fs (clock w) (rng w) (trace w))
       | None :: fs =>
           (inr tt,
            World (store w) (next_oid w) (http w) fs (clock w) (rng w) (trace w))
       | [] => (inr tt, w)
       end.

Definition set_store (s : gmap string (list doc)) : M unit :=
  λ w, (inr tt, World s (next_oid w) (http w) (faults w) (clock w) (rng w)
                      (trace w)).

Definition get_store : M (gmap string (list doc)) := λ w, (inr (store w), w).

(** [client.admin.command('ping')]. *)
Definition ping : M unit := store_command.

(** [db[name].delete_many({})]: empties a collection that exists. *)
Definition delete_many (name : string) : M unit :=
  store_command;;
  s ← get_store;
  match s !! name with
  | Some _ => set_store (<[name := []]> s)
  | None => ret tt
  end.

(** The store gives a document without [_id] a fresh object id. *)
Definition with_oid (d : doc) : M doc :=
  if dict_has "_id" d then ret d
  else λ w, (inr (dict_set "_id" (PObjectId (next_oid w)) d),
             World (store w) (next_oid w + 1) (http w) (faults w) (clock w)
                   (rng w) (trace w)).

Definition append_docs (name : string) (ds : list doc) : M unit :=
  s ← get_store;
  set_store (<[name := (default [] (s !! name) ++ ds)%list]> s).

(** [db[name].insert_one(d)]. *)
Definition insert_one (name : string) (d : doc) : M unit :=
  store_command;;
  d' ← with_oid d;
  append_docs name [d'].

(** [db[name].insert_many(ds)]: pymongo refuses an empty list with
    [TypeError("documents must be a non-empty list")]. *)
Definition insert_many (name : string) (ds : list doc) : M unit :=
  match ds with
  | [] => raise (Error (OtherException "TypeError"
                          "documents must be a non-empty list"))
  | _ =>
      store_command;;
      ds' ← mapM with_oid ds;
      append_docs name ds'
  end.

(** The filter [{"is_metadata": {"$ne": True}}]: every document whose
    [is_metadata] is not the boolean true, the field being absent
    included. *)
Definition not_metadata (d : doc) : bool :=
  match dict_get "is_metadata" d with
  | Some (PBool true) => false
  | _ => true
  end.

(** [list(db[name].find(filter))]. *)
Definition find (name : string) (keep : doc → bool) : M (list doc) :=
  store_command;;
  s ← get_store;
  ret (filter (λ d, keep d = true) (default [] (s !! name))).

(** [db[name].count_documents({})]. *)
Definition count_documents (name : string) : M nat :=
  store_command;;
  s ← get_store;
  ret (length (default [] (s !! name))).

(** [db.list_collection_names()]. *)
Definition list_collection_names : M (list string) :=
  store_command;;
  s ← get_store;
  ret (map_to_list s).*1.

(** ** The connectivity check, first statement of all four scripts
<<
    try:
        client.admin.command('ping')
        print("Connected to MongoDB!")
    except Exception as e:
        print(f"Connection failed: {e}")
        exit()
>> *)
Definition connectivity_check : M unit :=
  try_except
    (ping;; print "Connected to MongoDB!")
    (λ e, print ("Connection failed: " ++ error_text e);; py_exit None).

(** Exit status of the interpreter: 0 when the script runs to its end, and
    for [SystemExit(None)]; the integer of [SystemExit(n)]; 1 for an
    uncaught exception. *)
Definition exit_status {A} (r : exn + A) : Z :=
  match r with
  | inr _ => 0
  | inl (SystemExit None) => 0
  | inl (SystemExit (Some n)) => n
  | inl (Error _) => 1
  end.

Definition run_script (script : M unit) (w : world) : Z * world :=
  let '(r, w') := script w in (exit_status r, w').

(** ** Dynamic typing of the parsed JSON *)

Definition type_error {A} (msg : string) : error + A :=
  inl (OtherException "TypeError" msg).

(** [v.get(k, dflt)]: only a [dict] has the method. *)
Definition py_get (v : pyval) (k : string) (dflt : pyval) : error + pyval :=
  match v with
  | PDict d => inr (default dflt (dict_get k d))
  | _ => inl (OtherException "AttributeError" "object has no attribute 'get'")
  end.

Definition chars (s : string) : list pyval :=
  (λ c, PStr (String c EmptyString)) <$> list_ascii_of_string s.

(** Iterating a value: the items of a list, the characters of a string,
    the keys of a [dict]. *)
Definition py_iter (v : pyval) : error + list pyval :=
  match v with
  | PList l => inr l
  | PStr s => inr (chars s)
  | PDict d => inr (PStr <$> dict_keys d)
  | _ => type_error "object is not iterable"
  end.

(** A value used as a sequence ([random.sample] wants one): a list or a
    string. *)
Definition py_sequence (v : pyval) : error + list pyval :=
  match v with
  | PList l => inr l
  | PStr s => inr (chars s)
  | _ => type_error "Population must be a sequence"
  end.

(** [len(v)]. *)
Definition py_len (v : pyval) : error + nat :=
  match v with
  | PList l => inr (length l)
  | PStr s => inr (String.length s)
  | PDict d => inr (length d)
  | _ => type_error "object has no len()"
  end.

(** A document key has to be a string: a column name that is not one makes
    the block fail (in Python when the name is hashed or when the store
    encodes the document; here as soon as the name is used). *)
Definition key_of (name : pyval) : error + string :=
  match name with
  | PStr s => inr s
  | _ => inl (OtherException "InvalidDocument"
                "documents must have only string keys")
  end.

(** ** Stage 1: ingestion *)

Definition SAMPLE_SIZE : nat := 2500.
Definition EV_RAW_COLLECTION : string := "ev_data_raw".
Definition NUTRITION_RAW_COLLECTION : string := "nutrition_data_raw".
Definition EV_API_URL : string :=
  "https://data.wa.gov/api/views/f6w7-q2d2/rows.json?accessType=DOWNLOAD".
Definition NUTRITION_API_URL : string :=
  "https://chronicdata.cdc.gov/resource/hn4x-zwk7.json?$limit="
  ++ str_of_int (Z.of_nat SAMPLE_SIZE).

(** [[col.get("name", f"col_{i}") for i, col in enumerate(columns_meta)]]. *)
Fixpoint names_from (i : nat) (cols : list pyval) : error + list pyval :=
  match cols with
  | [] => inr []
  | col :: cols' =>
      match py_get col "name" (PStr ("col_" ++ str_of_int (Z.of_nat i))) with
      | inl e => inl e
      | inr name =>
          match names_from (S i) cols' with
          | inl e => inl e
          | inr names => inr (name :: names)
          end
      end
  end.

Definition ev_metadata_doc (now : Z) (column_names : list pyval)
    (columns_meta : pyval) (total : nat) : doc :=
  [("dataset_name", PStr "Electric Vehicle Population Data");
   ("source", PStr "Washington State Department of Licensing");
   ("format", PStr "JSON (Semi-structured)");
   ("sdg_goals", PList [PStr "Goal 7: Clean Energy";
                        PStr "Goal 11: Sustainable Cities";
                        PStr "Goal 13: Climate Action"]);
   ("downloaded_at", PDatetime now);
   ("api_url", PStr EV_API_URL);
   ("columns", PList column_names);
   ("column_metadata", columns_meta);
   ("total_available_records", PInt (Z.of_nat total));
   ("sampled_records", PInt (Z.of_nat SAMPLE_SIZE));
   ("sampling_method", PStr "random");
   ("is_metadata", PBool true)].

(** [random.sample(population, k)], selection without replacement driven
    by the generator's draws: draw [j] below the size of the pool, take
    [pool[j]], move the last item of the pool into the vacancy.  (CPython
    runs this loop on a copy of the population, and an equivalent
    selection over a set of taken positions once the population is much
    larger than [k].) *)
Fixpoint sample_pool {A} (pool : list A) (k : nat) (draws : list nat)
  : list A :=
  match k with
  | O => []
  | S k' =>
      let n := length pool in
      let j := (hd 0 draws `mod` n)%nat in
      match pool !! j, pool !! (n - 1)%nat with
      | Some x, Some y =>
          x :: sample_pool (take (n - 1) (<[j := y]> pool)) k' (tl draws)
      | _, _ => []
      end
  end.

Definition random_sample (population : list pyval) (k : nat)
  : M (list pyval) :=
  if (length population <? k)%nat
  then raise (Error (OtherException "ValueError"
                       "Sample larger than population or is negative"))
  else λ w, (inr (sample_pool population k (rng w)),
             World (store w) (next_oid w) (http w) (faults w) (clock w)
                   (drop k (rng w)) (trace w)).

Definition ev_base_document (now : Z) : doc :=
  [("_imported_at", PDatetime now);
   ("_dataset_name", PStr "Electric Vehicle Population Data");
   ("_source", PStr "Washington State DOL")].

(** One turn of
<<
    for idx, value in enumerate(row):
        if idx < len(column_names):
            doc[column_names[idx]] = value
>> *)
Definition set_field (column_names : list pyval) (acc : error + doc)
    (iv : nat * pyval) : error + doc :=
  match acc with
  | inl e => inl e
  | inr d =>
      if (iv.1 <? length column_names)%nat then
        match key_of (default PNone (column_names !! iv.1)) with
        | inl e => inl e
        | inr k => inr (dict_set k iv.2 d)
        end
      else inr d
  end.

Definition enumerate {A} (l : list A) : list (nat * A) := imap pair l.

Definition row_document (column_names : list pyval) (now : Z)
    (row : list pyval) : error + doc :=
  foldl (set_field column_names) (inr (ev_base_document now)) (enumerate row).

Definition ev_document (column_names : list pyval) (row : pyval) : M doc :=
  now ← datetime_now;
  values ← lift_result (py_iter row);
  lift_result (row_document column_names now values).

(** The body of the first [try], from the statement after the download. *)
Definition ev_store (ev_json_data : pyval) : M unit :=
  delete_many EV_RAW_COLLECTION;;
  meta ← lift_result (py_get ev_json_data "meta" (PDict []));
  view ← lift_result (py_get meta "view" (PDict []));
  columns_meta ← lift_result (py_get view "columns" (PList []));
  cols ← lift_result (py_iter columns_meta);
  column_names ← lift_result (names_from 0 cols);
  ev_data_rows ← lift_result (py_get ev_json_data "data" (PList []));
  total ← lift_result (py_len ev_data_rows);
  now ← datetime_now;
  insert_one EV_RAW_COLLECTION
    (ev_metadata_doc now column_names columns_meta total);;
  sampled_rows ←
    (if (SAMPLE_SIZE <? total)%nat
     then population ← lift_result (py_sequence ev_data_rows);
          random_sample population SAMPLE_SIZE
     else lift_result (py_iter ev_data_rows));
  ev_documents ← mapM (ev_document column_names) sampled_rows;
  insert_many EV_RAW_COLLECTION ev_documents.

(** The body of the first [try]. *)
Definition ev_block : M unit :=
  http_get_json EV_API_URL ≫= ev_store.

(** The two [except] clauses that close each [try] of the script. *)
Definition log_failure (dataset : string) (e : error) : M unit :=
  match e with
  | RequestException msg =>
      print ("Error downloading " ++ dataset ++ " data: " ++ msg)
  | OtherException _ msg =>
      print ("Error processing " ++ dataset ++ " data: " ++ msg);;
      print "Traceback (most recent call last)"
  end.

Definition nutrition_metadata_doc (now : Z) (fetched : nat) : doc :=
  [("dataset_name", PStr "Nutrition, Physical Activity, and Obesity - BRFSS");
   ("source", PStr "CDC Behavioral Risk Factor Surveillance System");
   ("format", PStr "JSON API (Structured)");
   ("sdg_goals", PList [PStr "Goal 2: Zero Hunger";
                        PStr "Goal 3: Good Health and Well-being"]);
   ("downloaded_at", PDatetime now);
   ("api_url", PStr NUTRITION_API_URL);
   ("sampled_records", PInt (Z.of_nat fetched));
   ("sampling_method", PStr "API limit parameter");
   ("is_metadata", PBool true)].

(** One turn of the loop that stamps the fetched records. *)
Definition nutrition_document (record : pyval) : M doc :=
  match record with
  | PDict d =>
      t1 ← datetime_now;
      ret (dict_set "_source"
             (PStr "CDC - Behavioral Risk Factor Surveillance System")
             (dict_set "_dataset_name"
                (PStr "Nutrition, Physical Activity, and Obesity - BRFSS")
                (dict_set "_imported_at" (PDatetime t1) d)))
  | _ => lift_result (type_error "object does not support item assignment")
  end.

(** The body of the second [try], from the statement after the download. *)
Definition nutrition_store (nutrition_json_data : pyval) : M unit :=
  fetched ← lift_result (py_len nutrition_json_data);
  delete_many NUTRITION_RAW_COLLECTION;;
  records ← lift_result (py_iter nutrition_json_data);
  nutrition_documents ← mapM nutrition_document records;
  insert_many NUTRITION_RAW_COLLECTION nutrition_documents;;
  now ← datetime_now;
  insert_one NUTRITION_RAW_COLLECTION (nutrition_metadata_doc now fetched).

(** The body of the second [try]. *)
Definition nutrition_block : M unit :=
  http_get_json NUTRITION_API_URL ≫= nutrition_store.

(** The closing summary: one count per collection, and a look at one data
    document. *)
Definition ingestion_summary : M unit :=
  collections ← list_collection_names;
  forM_ collections (λ col,
    count ← count_documents col;
    sample ← find col not_metadata;
    emit (DocumentCount col count)).

Definition ingestion : M unit :=
  connectivity_check;;
  try_except ev_block (log_failure "EV");;
  try_except nutrition_block (log_failure "Nutrition");;
  ingestion_summary;;
  print "DATA INGESTION COMPLETE!".

(** ** Stage 2: cleaning *)

Section CleaningStage.
Context `{Runtime}.

(** Steps 4 to 6 of the EV half: drop the internal fields, convert, fill. *)
Definition ev_drop (ev_docs : list doc) : frame :=
  frame_drop columns_to_drop (frame_of_docs ev_docs).

Definition ev_convert (ev_docs : list doc) : frame :=
  (convert_numeric_columns (ev_drop ev_docs)).1.

Definition ev_fill (ev_docs : list doc) : frame :=
  fill_missing (ev_convert ev_docs).

(** Steps 4 to 6 of the nutrition half. *)
Definition nutrition_drop (docs : list doc) : frame :=
  frame_drop columns_to_drop (frame_of_docs docs).

Definition nutrition_convert (docs : list doc) : frame :=
  coerce_named year_cols (coerce_named numeric_cols (nutrition_drop docs)).

Definition nutrition_fill (docs : list doc) : frame :=
  fill_missing (nutrition_convert docs).

(** [if 'yearstart' in df.columns and 'yearend' in df.columns: ...]. *)
Definition add_year_range (df : frame) : frame :=
  match frame_get "yearstart" (columns df), frame_get "yearend" (columns df) with
  | Some a, Some b => assign "year_range" (year_range_column a b) df
  | _, _ => df
  end.

(** [if 'low_confidence_limit' in df.columns and 'high_confidence_limit' in
    df.columns: df['confidence_interval_width'] = df[high] - df[low]]. *)
Definition add_confidence_interval_width (df : frame) : error + frame :=
  match frame_get "low_confidence_limit" (columns df),
        frame_get "high_confidence_limit" (columns df) with
  | Some lo, Some hi =>
      match column_sub hi lo with
      | Some c => inr (assign "confidence_interval_width" c df)
      | None => type_error "numpy boolean subtract is not supported"
      end
  | _, _ => inr df
  end.

(** Step 7 of the nutrition half, before the bookkeeping columns. *)
Definition nutrition_features (docs : list doc) : error + frame :=
  add_confidence_interval_width (add_year_range (nutrition_fill docs)).

Definition report_missing (df : frame) : M unit :=
  print ("Remaining missing values: "
         ++ str_of_int (Z.of_nat (total_missing df))).

Definition ev_half : M frame :=
  ev_docs ← find "ev_data_raw" not_metadata;
  let ev_df_clean := ev_fill ev_docs in
  report_missing ev_df_clean;;
  now ← datetime_now;
  let ev_df_clean := add_bookkeeping now ev_df_clean in
  delete_many "ev_data_cleaned";;
  insert_many "ev_data_cleaned" (to_records ev_df_clean);;
  ret ev_df_clean.

Definition nutrition_half : M frame :=
  docs ← find "nutrition_data_raw" not_metadata;
  report_missing (nutrition_fill docs);;
  nutrition_df_clean ← lift_result (nutrition_features docs);
  now ← datetime_now;
  let nutrition_df_clean := add_bookkeeping now nutrition_df_clean in
  delete_many "nutrition_data_cleaned";;
  insert_many "nutrition_data_cleaned" (to_records nutrition_df_clean);;
  ret nutrition_df_clean.

Definition cleaning_summary : M unit :=
  collections ← list_collection_names;
  forM_ collections (λ col,
    count ← count_documents col;
    emit (DocumentCount col count)).

Definition cleaning : M unit :=
  connectivity_check;;
  ev_df_clean ← ev_half;
  nutrition_df_clean ← nutrition_half;
  cleaning_summary;;
  emit (CsvExport "ev_data_cleaned.csv" (to_records ev_df_clean));;
  emit (CsvExport "nutrition_data_cleaned.csv" (to_records nutrition_df_clean));;
  print "MongoDB connection closed.".

End CleaningStage.

(** ** Stages 3 and 4

    Both scripts open with the same connectivity check and then only read
    the cleaned collections and draw; what follows the check is a
    parameter here. *)
Definition analysis (rest : M unit) : M unit :=
  connectivity_check;; rest.

Definition visualizations (rest : M unit) : M unit :=
  connectivity_check;; rest.

(** ** Stages 3 and 4: the columns they look at

    The analysis script reports on the columns of the cleaned EV table
    whose name does not start with an underscore.  The first chart of
    [4_visualizations.py] is drawn for one column of that table; which
    one, and under which file name, is decided by the code below. *)

(** [col.startswith('_')]. *)
Definition startswith_underscore (col : string) : bool :=
  match col with
  | String "_" _ => true
  | _ => false
  end.

(** The data columns of the analysis script:
<<
    for col in ev_df.columns:
        if not col.startswith('_'):
            key_columns.append(col)
>> *)
Definition key_columns (ev_df : frame) : list string :=
  filter (λ col, startswith_underscore col = false) (columns ev_df).*1.

Definition is_datetime (v : pyval) : bool :=
  match v with PDatetime _ => true | _ => false end.

(** The [object] dtype as [select_dtypes(include=['object'])] sees it: a
    column of Python objects, other than one that holds timestamps only
    (which the [DataFrame] constructor makes [datetime64]). *)
Definition is_object_dtype (c : column) : bool :=
  match c with
  | ColObject cells =>
      negb (existsb is_datetime cells
            && forallb (λ v, is_datetime v || isnull v) cells)
  | _ => false
  end.

(** What Python's [==] and [hash] identify among the values a cell can
    hold: numbers by value, whatever their type ([1 == 1.0 == True]);
    strings, object ids and timestamps among themselves. *)
Inductive hkey : Type :=
| KNull
| KStr (s : string)
| KNum (q : Q)
| KOid (n : nat)
| KDate (t : Z).

Definition hkey_eqb (a b : hkey) : bool :=
  match a, b with
  | KNull, KNull => true
  | KStr s, KStr t => String.eqb s t
  | KNum p, KNum q => Qeq_bool p q
  | KOid m, KOid n => Nat.eqb m n
  | KDate s, KDate t => Z.eqb s t
  | _, _ => false
  end.

(** Hashing a cell; lists and dicts are unhashable. *)
Definition hash_key (v : pyval) : error + hkey :=
  match v with
  | PStr s => inr (KStr s)
  | PInt z => inr (KNum (inject_Z z))
  | PFloat q => inr (KNum q)
  | PBool b => inr (KNum (if b then 1 else 0)%Q)
  | PObjectId n => inr (KOid n)
  | PDatetime t => inr (KDate t)
  | PNone | PNaN => inr KNull
  | PList _ | PDict _ => type_error "unhashable type"
  end.

Fixpoint hash_keys (cells : list pyval) : error + list hkey :=
  match cells with
  | [] => inr []
  | v :: cells' =>
      match hash_key v with
      | inl e => inl e
      | inr k =>
          match hash_keys cells' with
          | inl e => inl e
          | inr ks => inr (k :: ks)
          end
      end
  end.

(** The distinct keys of a list, in order of first appearance. *)
Fixpoint distinct (seen : list hkey) (ks : list hkey) : list hkey :=
  match ks with
  | [] => seen
  | k :: ks' =>
      distinct (if existsb (hkey_eqb k) seen then seen else seen ++ [k])%list ks'
  end.

(** [c.nunique()]: the number of distinct values among the non-missing
    cells. *)
Definition nunique (c : column) : error + nat :=
  match hash_keys (dropna c) with
  | inl e => inl e
  | inr ks => inr (length (distinct [] ks))
  end.

(** [[col for col in ev_df.select_dtypes(include=['object']).columns
      if not col.startswith('_') and col != '_id']]. *)
Definition ev_categorical (ev_df : frame) : list string :=
  (filter (λ kc, is_object_dtype kc.2 = true
                 ∧ startswith_underscore kc.1 = false
                 ∧ String.eqb kc.1 "_id" = false)
          (columns ev_df)).*1.

(** The loop over [ev_categorical], which stops at the first column with
    between 5 and 50 distinct values:
<<
    for col in ev_categorical:
        if 5 <= ev_df[col].nunique() <= 50:
            ... plt.savefig(...)
            break
>>
    The result is the column the chart is drawn for, if any. *)
Fixpoint first_chartable (ev_df : frame) (cols : list string)
  : error + option string :=
  match cols with
  | [] => inr None
  | col :: cols' =>
      match nunique (default (ColObject []) (frame_get col (columns ev_df))) with
      | inl e => inl e
      | inr n =>
          if (5 <=? n)%nat && (n <=? 50)%nat then inr (Some col)
          else first_chartable ev_df cols'
      end
  end.

Definition distribution_column (ev_df : frame) : error + option string :=
  first_chartable ev_df (ev_categorical ev_df).

(** [s.replace(a, b)] for one-character strings. *)
Fixpoint replace_char (a b : ascii) (s : string) : string :=
  match s with
  | EmptyString => EmptyString
  | String c s' => String (if Ascii.eqb c a then b else c) (replace_char a b s')
  end.

(** [f'visualizations/ev_distribution_{col.replace(" ", "_")}.png']. *)
Definition ev_distribution_file (col : string) : string :=
  "visualizations/ev_distribution_" ++ replace_char " " "_" col ++ ".png".

(** ** Auxiliary notions for the properties below *)

(** The column of key [k] once the frame is built and the key coerced. *)
Definition coerced_column (k : string) (docs : list doc) : column :=
  to_numeric (infer_column (raw_cells k docs)).

Definition is_typed (c : column) : Prop :=
  match c with ColObject _ => False | _ => True end.

(** The value a record ends up with in a coerced and filled column: its
    own number when its raw cell reads as one, the median of the column
    otherwise (NaN when the column has no value at all). *)
Definition imputed (k : string) (docs : list doc) (d : doc) : option Q :=
  match numeral_float (to_numeric_cell (default PNaN (dict_get k d))) with
  | Some q => Some q
  | None => median (coerced_column k docs)
  end.

(** A computation is tame when it never leaves through [SystemExit] and
    only ever adds to the trace. *)
Definition tame {A} (m : M A) : Prop :=
  ∀ w r w', m w = (r, w') →
    (∀ c, r ≠ inl (SystemExit c)) ∧ ∃ t, trace w' = (trace w ++ t)%list.

(** Computations that leave every collection as it is. *)
Definition keeps_store {A} (m : M A) : Prop :=
  ∀ w r w', m w = (r, w') → store w' = store w.

(** A document after the store has given it an id: every other field is
    as it was. *)
Definition same_fields (d d' : doc) : Prop :=
  ∀ k, k ≠ "_id" → dict_get k d' = dict_get k d.

Definition is_metadata (d : doc) : bool := negb (not_metadata d).

(** Computations that, whatever their outcome, leave every collection
    outside [names] as it is. *)
Definition writes_only {A} (names : list string) (m : M A) : Prop :=
  ∀ w r w', m w = (r, w') →
    ∀ other, other ∉ names → store w' !! other = store w !! other.

(** Computations that leave every collection as it is when they raise. *)
Definition fails_clean {A} (m : M A) : Prop :=
  ∀ w e w', m w = (inl e, w') → store w' = store w.

(** The lines a run printed. *)
Definition printed (t : list event) : list string :=
  omap (λ ev, match ev with Print msg => Some msg | _ => None end) t.

(** ** A runtime and inputs for the examples

    Floats with a short decimal expansion print as Python prints them
    ([2011.0], [29.5]); this instance only serves to run the model on
    concrete inputs. *)

Fixpoint fraction_digits (fuel : nat) (num den : Z) : string :=
  match fuel with
  | O => ""
  | S fuel' =>
      if (num =? 0)%Z then ""
      else str_of_int (10 * num / den) ++ fraction_digits fuel' (10 * num mod den) den
  end.

Definition decimal_repr (q : Q) : string :=
  let n := Z.abs (Qnum q) in
  let d := Z.pos (Qden q) in
  (if (Qnum q <? 0)%Z then "-" else "")
  ++ str_of_int (n / d) ++ "."
  ++ (if (n mod d =? 0)%Z then "0" else fraction_digits 17 (n mod d) d).

Definition decimal_runtime : Runtime :=
  {| str_other v := match v with PFloat q => decimal_repr q | _ => "<object>" end |}.

(** A run in which the store cannot be reached. *)
Definition unreachable_store_world : world :=
  World ∅ 0 (λ _, inl (RequestException "unused"))
        [Some (OtherException "ServerSelectionTimeoutError"
                 "No servers found yet")]
        0 [] [].

(** A run in which the EV download times out and the nutrition feed
    answers with one record. *)
Definition ev_down_world : world :=
  World ∅ 0
        (λ url, if String.eqb url NUTRITION_API_URL
                then inr (PList [PDict [("yearstart", PStr "2011")]])
                else inl (RequestException "Read timed out."))
        [] 0 [] [].

(** A run with one EV row and one nutrition record. *)
Definition one_row_payload : pyval :=
  PDict [("meta", PDict [("view", PDict
            [("columns", PList [PDict [("name", PStr "County")]])])]);
         ("data", PList [PList [PStr "King"]])].

Definition one_row_world : world :=
  World ∅ 0
    (λ url,
       if String.eqb url EV_API_URL then inr one_row_payload
       else inr (PList [PDict [("yearstart", PStr "2011")]]))
    [] 0 [] [].

(** The store after that run, and the EV frame the cleaning script builds
    from it. *)
Definition one_row_loaded : world := (ingestion one_row_world).2.

Definition one_row_cleaned : frame :=
  Eval vm_compute in
    match (@ev_half decimal_runtime one_row_loaded).1 with
    | inr df => df
    | inl _ => Frame 0 []
    end.

(** An EV feed that answers with its column list and no row. *)
Definition empty_source_world : world :=
  World ∅ 0
    (λ url,
       if String.eqb url EV_API_URL then
         inr (PDict
                [("meta", PDict [("view", PDict
                    [("columns", PList [PDict [("name", PStr "County")]])])]);
                 ("data", PList [])])
       else
         inr (PList [PDict [("yearstart", PStr "2011")]]))
    [] 0 [] [].

(** Two nutrition records: [locationid] holds digits and is not one of the
    known numeric columns; [data_value] is one of them and holds a
    footnote mark. *)
Definition footnote_docs : list doc :=
  [[("locationid", PStr "59"); ("data_value", PStr "~")]].

(** A nutrition feed whose only record has no [data_value], and an EV feed
    whose only row holds a date. *)
Definition suppressed_value_world : world :=
  World ∅ 0
    (λ url,
       if String.eqb url EV_API_URL then
         inr (PDict
                [("meta", PDict [("view", PDict
                    [("columns", PList [PDict [("name", PStr "Sale Date")]])])]);
                 ("data", PList [PList [PStr "2020-01-15"]])])
       else
         inr (PList [PDict [("locationabbr", PStr "AK");
                            ("data_value", PNone)]]))
    [] 0 [] [].

(** A record whose upper limit lies below its lower limit. *)
Definition crossed_limits_docs : list doc :=
  [[("low_confidence_limit", PStr "9.5"); ("high_confidence_limit", PStr "7")]].

Definition crossed_limits_frame : frame :=
  Eval vm_compute in
    match @nutrition_features decimal_runtime crossed_limits_docs with
    | inr df => df
    | inl _ => Frame 0 []
    end.

(** Three records: the second has no lower limit, the third no upper one. *)
Definition gappy_docs : list doc :=
  [[("low_confidence_limit", PStr "1.5"); ("high_confidence_limit", PStr "4")];
   [("high_confidence_limit", PStr "6")];
   [("low_confidence_limit", PStr "2.5"); ("high_confidence_limit", PNone)]].

Definition gappy_frame : frame :=
  Eval vm_compute in
    match @nutrition_features decimal_runtime gappy_docs with
    | inr df => df
    | inl _ => Frame 0 []
    end.

(** * Properties *)

(** ** Running monadic code *)

Lemma bind_ok {A B} (m : M A) (k : A → M B) (w w' : world) (b : B) :
  (m ≫= k) w = (inr b, w') →
  ∃ a w1, m w = (inr a, w1) ∧ k a w1 = (inr b, w').
Proof.
  unfold mbind, M_bind. destruct (m w) as [[e|a] w1]; [discriminate|].
  intros Hk. by exists a, w1.
Qed.

Lemma bind_run {A B} (m : M A) (k : A → M B) (w w1 : world) (a : A) :
  m w = (inr a, w1) → (m ≫= k) w = k a w1.
Proof. unfold mbind, M_bind. by intros ->. Qed.

Lemma bind_fail {A B} (m : M A) (k : A → M B) (w w1 : world) (e : exn) :
  m w = (inl e, w1) → (m ≫= k) w = (inl e, w1).
Proof. unfold mbind, M_bind. by intros ->. Qed.

(** ** C10: the connectivity check and the exit status *)

Lemma connectivity_check_fails (w : world) (e : error) (fs : list (option error)) :
  faults w = Some e :: fs →
  connectivity_check w =
    (inl (SystemExit None),
     World (store w) (next_oid w) (http w) fs (clock w) (rng w)
           (trace w ++ [Print ("Connection failed: " ++ error_text e)])).
Proof.
  destruct w as [s o h f c r t]; simpl. intros ->. reflexivity.
Qed.

(** C10.  When the ping of the connectivity check raises, each of the four
    scripts prints the error and leaves through a bare [exit()]: nothing
    else is printed or touched, and the exit status is 0, the status of a
    run that reaches its last statement. *)
Theorem connectivity_failure_exits_zero `{Runtime}
    (w : world) (e : error) (fs : list (option error)) (rest : M unit) :
  faults w = Some e :: fs →
  let stopped :=
    World (store w) (next_oid w) (http w) fs (clock w) (rng w)
          (trace w ++ [Print ("Connection failed: " ++ error_text e)]) in
  run_script ingestion w = (0%Z, stopped)
  ∧ run_script cleaning w = (0%Z, stopped)
  ∧ run_script (analysis rest) w = (0%Z, stopped)
  ∧ run_script (visualizations rest) w = (0%Z, stopped)
  ∧ ∀ (script : M unit) (w0 w1 : world),
      script w0 = (inr (), w1) → (run_script script w0).1 = 0%Z.
Proof.
  intros Hf stopped.
  pose proof (connectivity_check_fails w e fs Hf) as Hc.
  unfold run_script, ingestion, cleaning, analysis, visualizations.
  repeat split.
  - by rewrite (bind_fail _ _ _ _ _ Hc).
  - by rewrite (bind_fail _ _ _ _ _ Hc).
  - by rewrite (bind_fail _ _ _ _ _ Hc).
  - by rewrite (bind_fail _ _ _ _ _ Hc).
  - intros script w0 w1 ->. reflexivity.
Qed.

Lemma connectivity_failure_exits_zero_witness :
  let stopped :=
    World ∅ 0 (http unreachable_store_world) [] 0 []
          [Print "Connection failed: No servers found yet"] in
  run_script ingestion unreachable_store_world = (0%Z, stopped)
  ∧ run_script (@cleaning decimal_runtime) unreachable_store_world
    = (0%Z, stopped)
  ∧ run_script (analysis (mret ())) unreachable_store_world = (0%Z, stopped)
  ∧ run_script (visualizations (mret ())) unreachable_store_world
    = (0%Z, stopped)
  ∧ ∀ (script : M unit) (w0 w1 : world),
      script w0 = (inr (), w1) → (run_script script w0).1 = 0%Z.
Proof.
  apply (@connectivity_failure_exits_zero decimal_runtime
           unreachable_store_world
           (OtherException "ServerSelectionTimeoutError" "No servers found yet")
           [] (mret ())).
  reflexivity.
Defined.

(** ** Association lists: documents and frames *)

Lemma dict_get_set_eq (k : string) (v : pyval) (d : doc) :
  dict_get k (dict_set k v d) = Some v.
Proof.
  induction d as [|[k' v'] d IH]; simpl.
  - by rewrite String.eqb_refl.
  - destruct (String.eqb k k') eqn:E; simpl.
    + by rewrite String.eqb_refl.
    + by rewrite E.
Qed.

Lemma dict_get_set_ne (k k' : string) (v : pyval) (d : doc) :
  k ≠ k' → dict_get k (dict_set k' v d) = dict_get k d.
Proof.
  intros Hne. induction d as [|[k2 v2] d IH]; simpl.
  - by apply String.eqb_neq in Hne as ->.
  - destruct (String.eqb k' k2) eqn:E; simpl.
    + apply String.eqb_eq in E as <-.
      by apply String.eqb_neq in Hne as ->.
    + by rewrite IH.
Qed.

Lemma dict_set_elem (k k' : string) (v v' : pyval) (d : doc) :
  (k, v) ∈ dict_set k' v' d → (k, v) = (k', v') ∨ (k, v) ∈ d.
Proof.
  induction d as [|[k2 v2] d IH]; simpl.
  - intros ->%list_elem_of_singleton. by left.
  - destruct (String.eqb k' k2).
    + intros [->| Hin]%elem_of_cons; [by left|]. right. by constructor.
    + intros [->| Hin]%elem_of_cons; [right; by constructor|].
      destruct (IH Hin) as [?|?]; [by left|]. right. by constructor.
Qed.

Lemma frame_get_set_eq (k : string) (c : column) (cs : list (string * column)) :
  frame_get k (frame_set k c cs) = Some c.
Proof.
  induction cs as [|[k' c'] cs IH]; simpl.
  - by rewrite String.eqb_refl.
  - destruct (String.eqb k k') eqn:E; simpl.
    + by rewrite String.eqb_refl.
    + by rewrite E.
Qed.

Lemma frame_get_set_ne (k k' : string) (c : column) (cs : list (string * column)) :
  k ≠ k' → frame_get k (frame_set k' c cs) = frame_get k cs.
Proof.
  intros Hne. induction cs as [|[k2 c2] cs IH]; simpl.
  - by apply String.eqb_neq in Hne as ->.
  - destruct (String.eqb k' k2) eqn:E; simpl.
    + apply String.eqb_eq in E as <-.
      by apply String.eqb_neq in Hne as ->.
    + by rewrite IH.
Qed.

Lemma dict_get_row_of (k : string) (cs : list (string * column)) (i : nat) :
  dict_get k (row_of cs i)
  = (λ c, default PNaN (column_cells c !! i)) <$> frame_get k cs.
Proof.
  unfold row_of. induction cs as [|[k' c'] cs IH]; simpl; [done|].
  by destruct (String.eqb k k').
Qed.

(** ** Record ids in the frame *)

(** In the frame that either half of the cleaning script stores, the
    [_record_id] fields of the records, read in row order, are exactly
    1, 2, ..., N, where N is the number of rows (and of records). *)
Lemma record_id_dense (now : Z) (df : frame) :
  length (to_records (add_bookkeeping now df)) = nrows df
  ∧ dict_get "_record_id" <$> to_records (add_bookkeeping now df)
    = (λ i, Some (PInt (Z.of_nat i))) <$> seq 1 (nrows df).
Proof.
  unfold to_records, add_bookkeeping, assign; simpl. split.
  { by rewrite length_fmap, length_seq. }
  rewrite <- fmap_S_seq, <- !list_fmap_compose.
  apply Forall_fmap_ext_1, Forall_forall.
  intros i Hi%elem_of_seq. simpl.
  rewrite dict_get_row_of, frame_get_set_eq. simpl.
  rewrite list_lookup_fmap, list_lookup_fmap, lookup_seq_lt by lia.
  reflexivity.
Qed.

(** ** C8: the mapping of an EV row to a document *)

Lemma set_field_beyond (names : list pyval) (acc : error + doc) (i : nat)
    (v : pyval) :
  (length names ≤ i)%nat → set_field names acc (i, v) = acc.
Proof.
  intros Hi. unfold set_field; simpl. destruct acc as [e|d]; [done|].
  by apply Nat.ltb_ge in Hi as ->.
Qed.

Lemma row_document_snoc (names : list pyval) (now : Z) (row : list pyval)
    (x : pyval) :
  row_document names now (row ++ [x])
  = set_field names (row_document names now row) (length row, x).
Proof.
  unfold row_document, enumerate.
  rewrite imap_app, foldl_app. simpl. by rewrite Nat.add_0_r.
Qed.

Lemma set_field_ok (names : list pyval) (acc : error + doc) (i : nat)
    (v : pyval) (d : doc) :
  set_field names acc (i, v) = inr d →
  ∃ d0, acc = inr d0
        ∧ (((length names ≤ i)%nat ∧ d = d0)
           ∨ ((i < length names)%nat
              ∧ ∃ k, names !! i = Some (PStr k) ∧ d = dict_set k v d0)).
Proof.
  unfold set_field; simpl. destruct acc as [e|d0]; [done|].
  intros Hd. exists d0. split; [done|].
  destruct (i <? length names)%nat eqn:Hlt.
  - apply Nat.ltb_lt in Hlt. right. split; [done|].
    destruct (lookup_lt_is_Some_2 names i Hlt) as [nm Hnm].
    rewrite Hnm in Hd |- *. simpl in Hd.
    destruct nm; simpl in Hd; try done. simplify_eq. by eexists.
  - apply Nat.ltb_ge in Hlt. left. by simplify_eq.
Qed.


Example row_document_example :
  row_document [PStr "VIN"; PStr "County"] 7
               [PStr "5YJ3E1EA"; PStr "King"; PStr "Seattle"]
  = inr [("_imported_at", PDatetime 7);
         ("_dataset_name", PStr "Electric Vehicle Population Data");
         ("_source", PStr "Washington State DOL");
         ("VIN", PStr "5YJ3E1EA"); ("County", PStr "King")].
Proof. reflexivity. Qed.


(** ** C7: the two datasets fail independently *)

Lemma tame_ret {A} (a : A) : tame (mret a : M A).
Proof. intros w r w' [= <- <-]. split; [done|]. exists []. by rewrite app_nil_r. Qed.

Lemma tame_raise {A} (e : error) : tame (raise (Error e) : M A).
Proof. intros w r w' [= <- <-]. split; [done|]. exists []. by rewrite app_nil_r. Qed.

Lemma tame_bind {A B} (m : M A) (k : A → M B) :
  tame m → (∀ a, tame (k a)) → tame (m ≫= k).
Proof.
  intros Hm Hk w r w'. unfold mbind, M_bind.
  destruct (m w) as [[e|a] w1] eqn:Em.
  - intros [= <- <-]. destruct (Hm _ _ _ Em) as [Hr Ht]. split; [|done].
    intros c [= ->]. by apply (Hr c).
  - intros Ek. destruct (Hm _ _ _ Em) as [_ [t1 Ht1]].
    destruct (Hk a _ _ _ Ek) as [Hr [t2 Ht2]]. split; [done|].
    exists (t1 ++ t2)%list. by rewrite Ht2, Ht1, app_assoc.
Qed.

Lemma tame_lift_result {A} (r : error + A) : tame (lift_result r).
Proof. destruct r; [apply tame_raise|apply tame_ret]. Qed.

Ltac tame_primitive :=
  let w := fresh "w" in
  intros w ? ?; destruct w;
  unfold emit, datetime_now, store_command, get_store, set_store; simpl;
  repeat case_match; intros [= <- <-]; simpl;
  (split; [done|]);
  first [ by eexists | by (exists []; rewrite app_nil_r) ].

Lemma tame_emit (ev : event) : tame (emit ev).
Proof. tame_primitive. Qed.

Lemma tame_datetime_now : tame datetime_now.
Proof. tame_primitive. Qed.

Lemma tame_http_result (url : string) : tame (http_result url).
Proof.
  intros w r w'. unfold http_result.
  destruct (http w url); intros [= <- <-]; (split; [done|]);
    exists []; by rewrite app_nil_r.
Qed.

Lemma tame_store_command : tame store_command.
Proof. tame_primitive. Qed.

Lemma tame_get_store : tame get_store.
Proof. tame_primitive. Qed.

Lemma tame_set_store (s : gmap string (list doc)) : tame (set_store s).
Proof. tame_primitive. Qed.

Lemma tame_with_oid (d : doc) : tame (with_oid d).
Proof.
  unfold with_oid. destruct (dict_has "_id" d); [apply tame_ret|].
  tame_primitive.
Qed.

Lemma tame_random_sample (population : list pyval) (k : nat) :
  tame (random_sample population k).
Proof.
  unfold random_sample. case_match; [apply tame_raise|]. tame_primitive.
Qed.

Lemma tame_mapM {A B} (f : A → M B) (l : list A) :
  (∀ a, tame (f a)) → tame (mapM f l).
Proof.
  intros Hf. induction l as [|a l IH]; simpl; [apply tame_ret|].
  apply tame_bind; [done|]. intros b.
  apply tame_bind; [done|]. intros bs. apply tame_ret.
Qed.

Create HintDb tame discriminated.
#[local] Hint Resolve tame_ret tame_raise tame_lift_result tame_emit
  tame_datetime_now tame_http_result tame_store_command tame_get_store
  tame_set_store tame_with_oid tame_random_sample : tame.

Ltac tame :=
  repeat first
    [ progress eauto with tame
    | apply tame_bind; [|intros ?]
    | apply tame_mapM; intros ?
    | case_match ].

Lemma tame_delete_many (name : string) : tame (delete_many name).
Proof. unfold delete_many. tame. Qed.

Lemma tame_insert_one (name : string) (d : doc) : tame (insert_one name d).
Proof. unfold insert_one, append_docs. tame. Qed.

Lemma tame_insert_many (name : string) (ds : list doc) :
  tame (insert_many name ds).
Proof. unfold insert_many, append_docs. tame. Qed.

#[local] Hint Resolve tame_delete_many tame_insert_one tame_insert_many : tame.

Lemma tame_ev_store (j : pyval) : tame (ev_store j).
Proof. unfold ev_store, ev_document. tame. Qed.

Lemma tame_nutrition_store (j : pyval) : tame (nutrition_store j).
Proof. unfold nutrition_store, nutrition_document. tame. Qed.

Lemma tame_log_failure (dataset : string) (e : error) :
  tame (log_failure dataset e).
Proof. unfold log_failure, print. tame. Qed.

Lemma log_failure_returns (dataset : string) (e : error) (w : world) :
  ∃ w', log_failure dataset e w = (inr (), w').
Proof. destruct e; by eexists. Qed.

(** A guarded block: whatever happens after the request has been sent, the
    [try] statement ends normally, and a failure of the body is handed to
    the logging clauses. *)
Lemma guarded_block (url dataset : string) (k : pyval → M unit) (w : world) :
  (∀ j, tame (k j)) →
  ∃ w1 t,
    try_except (http_get_json url ≫= k) (log_failure dataset) w = (inr (), w1)
    ∧ trace w1 = (trace w ++ HttpGet url :: t)%list
    ∧ ∀ e wb, (http_get_json url ≫= k) w = (inl (Error e), wb) →
              log_failure dataset e wb = (inr (), w1).
Proof.
  intros Hk.
  set (wa := World (store w) (next_oid w) (http w) (faults w) (clock w)
                   (rng w) (trace w ++ [HttpGet url])).
  assert ((http_get_json url ≫= k) w = (http_result url ≫= k) wa) as Hstart
    by reflexivity.
  assert (tame (http_result url ≫= k)) as Hrest
    by (apply tame_bind; [apply tame_http_result|done]).
  unfold try_except. rewrite Hstart.
  destruct ((http_result url ≫= k) wa) as [[[e|c]|[]] wb] eqn:Eb.
  - destruct (Hrest _ _ _ Eb) as [_ [t Ht]].
    destruct (log_failure_returns dataset e wb) as [w1 Hw1].
    destruct (tame_log_failure dataset e _ _ _ Hw1) as [_ [t' Ht']].
    exists w1, (t ++ t')%list. split_and!; [done| |].
    + rewrite Ht', Ht. simpl. by rewrite <- !app_assoc.
    + by intros e' wb' [= <- <-].
  - destruct (Hrest _ _ _ Eb) as [Hr _]. by destruct (Hr c).
  - destruct (Hrest _ _ _ Eb) as [_ [t Ht]].
    exists wb, t. split_and!; [done| |done].
    rewrite Ht. simpl. by rewrite <- app_assoc.
Qed.



Example ev_down_run :
  let '(r, w) := ingestion ev_down_world in
  r = inr ()
  ∧ trace w
    = [Print "Connected to MongoDB!";
       HttpGet EV_API_URL;
       Print "Error downloading EV data: Read timed out.";
       HttpGet NUTRITION_API_URL;
       DocumentCount NUTRITION_RAW_COLLECTION 2;
       Print "DATA INGESTION COMPLETE!"]
  ∧ length <$> store w !! NUTRITION_RAW_COLLECTION = Some 2%nat.
Proof. vm_compute. done. Qed.

(** ** What the store commands do to a collection *)

Lemma keeps_ret {A} (a : A) : keeps_store (mret a : M A).
Proof. by intros w r w' [= <- <-]. Qed.

Lemma keeps_raise {A} (e : exn) : keeps_store (raise e : M A).
Proof. by intros w r w' [= <- <-]. Qed.

Lemma keeps_bind {A B} (m : M A) (k : A → M B) :
  keeps_store m → (∀ a, keeps_store (k a)) → keeps_store (m ≫= k).
Proof.
  intros Hm Hk w r w'. unfold mbind, M_bind.
  destruct (m w) as [[e|a] w1] eqn:Em.
  - intros [= <- <-]. exact (Hm _ _ _ Em).
  - intros Ek. rewrite (Hk a _ _ _ Ek). exact (Hm _ _ _ Em).
Qed.

Lemma keeps_lift_result {A} (r : error + A) : keeps_store (lift_result r).
Proof. destruct r; [apply keeps_raise|apply keeps_ret]. Qed.

Ltac keeps_primitive :=
  let w := fresh "w" in
  intros w ? ?; destruct w;
  unfold emit, datetime_now, store_command, get_store; simpl;
  repeat case_match; by intros [= <- <-].

Lemma keeps_emit (ev : event) : keeps_store (emit ev).
Proof. keeps_primitive. Qed.

Lemma keeps_datetime_now : keeps_store datetime_now.
Proof. keeps_primitive. Qed.

Lemma keeps_store_command : keeps_store store_command.
Proof. keeps_primitive. Qed.

Lemma keeps_get_store : keeps_store get_store.
Proof. keeps_primitive. Qed.

Lemma keeps_http_result (url : string) : keeps_store (http_result url).
Proof.
  intros w r w'. unfold http_result. by destruct (http w url); intros [= <- <-].
Qed.

Lemma keeps_with_oid (d : doc) : keeps_store (with_oid d).
Proof.
  unfold with_oid. destruct (dict_has "_id" d); [apply keeps_ret|].
  keeps_primitive.
Qed.

Lemma keeps_random_sample (population : list pyval) (k : nat) :
  keeps_store (random_sample population k).
Proof.
  unfold random_sample. case_match; [apply keeps_raise|]. keeps_primitive.
Qed.

Lemma keeps_mapM {A B} (f : A → M B) (l : list A) :
  (∀ a, keeps_store (f a)) → keeps_store (mapM f l).
Proof.
  intros Hf. induction l as [|a l IH]; simpl; [apply keeps_ret|].
  apply keeps_bind; [done|]. intros b.
  apply keeps_bind; [done|]. intros bs. apply keeps_ret.
Qed.

Create HintDb keeps discriminated.
#[local] Hint Resolve keeps_ret keeps_raise keeps_lift_result keeps_emit
  keeps_datetime_now keeps_store_command keeps_get_store keeps_http_result
  keeps_with_oid keeps_random_sample : keeps.

Ltac keeps :=
  repeat first
    [ progress eauto with keeps
    | apply keeps_bind; [|intros ?]
    | apply keeps_mapM; intros ?
    | case_match ].

Lemma keeps_find (name : string) (keep : doc → bool) :
  keeps_store (find name keep).
Proof. unfold find. keeps. Qed.

Lemma keeps_count_documents (name : string) :
  keeps_store (count_documents name).
Proof. unfold count_documents. keeps. Qed.

Lemma keeps_ev_document (names : list pyval) (row : pyval) :
  keeps_store (ev_document names row).
Proof. unfold ev_document. keeps. Qed.

Lemma keeps_nutrition_document (record : pyval) :
  keeps_store (nutrition_document record).
Proof. unfold nutrition_document. keeps. Qed.

#[local] Hint Resolve keeps_find keeps_count_documents keeps_ev_document
  keeps_nutrition_document : keeps.

Lemma with_oid_ok (d d' : doc) (w w' : world) :
  with_oid d w = (inr d', w') → store w' = store w ∧ same_fields d d'.
Proof.
  intros Hd. split; [exact (keeps_with_oid d _ _ _ Hd)|].
  revert Hd. unfold with_oid. destruct (dict_has "_id" d).
  - by intros [= <- <-].
  - intros [= <- <-] k Hk. by apply dict_get_set_ne.
Qed.

Lemma mapM_with_oid_ok (ds ds' : list doc) (w w' : world) :
  mapM with_oid ds w = (inr ds', w') →
  store w' = store w ∧ Forall2 same_fields ds ds'.
Proof.
  revert ds' w. induction ds as [|d ds IH]; simpl; intros ds' w.
  - by intros [= <- <-].
  - intros (d' & w1 & Hd & Hrest)%bind_ok.
    apply bind_ok in Hrest as (ds1 & w2 & Hds & [= <- <-]).
    apply with_oid_ok in Hd as [Hs1 Hf]. apply IH in Hds as [Hs2 Hfs].
    split; [congruence|by constructor].
Qed.

Lemma store_command_ok (w w' : world) :
  store_command w = (inr (), w') → store w' = store w.
Proof. apply keeps_store_command. Qed.

Lemma delete_many_ok (name : string) (w w' : world) :
  delete_many name w = (inr (), w') →
  default [] (store w' !! name) = []
  ∧ ∀ other, other ≠ name → store w' !! other = store w !! other.
Proof.
  unfold delete_many.
  intros ([] & w1 & Hc%store_command_ok & Hrest)%bind_ok.
  apply bind_ok in Hrest as (s & w2 & [= <- <-] & Hset).
  destruct (store w1 !! name) eqn:El.
  - injection Hset as <-. simpl. rewrite lookup_insert_eq. split; [done|].
    intros other Hne. rewrite lookup_insert_ne by done. by rewrite Hc.
  - injection Hset as <-. rewrite El. split; [done|].
    intros other Hne. by rewrite Hc.
Qed.

Lemma insert_one_ok (name : string) (d : doc) (w w' : world) :
  insert_one name d w = (inr (), w') →
  ∃ d', store w' !! name = Some (default [] (store w !! name) ++ [d'])%list
        ∧ same_fields d d'
        ∧ ∀ other, other ≠ name → store w' !! other = store w !! other.
Proof.
  unfold insert_one, append_docs.
  intros ([] & w1 & Hc%store_command_ok & Hrest)%bind_ok.
  apply bind_ok in Hrest as (d' & w2 & [Hs Hf]%with_oid_ok & Hrest).
  apply bind_ok in Hrest as (s & w3 & [= <- <-] & [= <-]).
  exists d'. simpl. rewrite lookup_insert_eq, Hs, Hc. split_and!; [done..|].
  intros other Hne. by rewrite lookup_insert_ne.
Qed.

Lemma insert_many_ok (name : string) (ds : list doc) (w w' : world) :
  insert_many name ds w = (inr (), w') →
  ds ≠ []
  ∧ ∃ ds', store w' !! name = Some (default [] (store w !! name) ++ ds')%list
           ∧ Forall2 same_fields ds ds'
           ∧ ∀ other, other ≠ name → store w' !! other = store w !! other.
Proof.
  unfold insert_many, append_docs. destruct ds as [|d ds]; [done|].
  intros ([] & w1 & Hc%store_command_ok & Hrest)%bind_ok. split; [done|].
  apply bind_ok in Hrest as (ds' & w2 & [Hs Hf]%mapM_with_oid_ok & Hrest).
  apply bind_ok in Hrest as (s & w3 & [= <- <-] & [= <-]).
  exists ds'. simpl. rewrite lookup_insert_eq, Hs, Hc. split_and!; [done..|].
  intros other Hne. by rewrite lookup_insert_ne.
Qed.

Lemma find_ok (name : string) (keep : doc → bool) (w w' : world)
    (r : list doc) :
  find name keep w = (inr r, w') →
  store w' = store w
  ∧ r = filter (λ d, keep d = true) (default [] (store w !! name)).
Proof.
  intros Hf. split; [exact (keeps_find _ _ _ _ _ Hf)|].
  revert Hf. unfold find.
  intros ([] & w1 & Hc%store_command_ok & Hrest)%bind_ok.
  apply bind_ok in Hrest as (s & w2 & [= <- <-] & [= <- <-]).
  by rewrite Hc.
Qed.

Lemma count_documents_ok (name : string) (w w' : world) (n : nat) :
  count_documents name w = (inr n, w') →
  n = length (default [] (store w !! name)).
Proof.
  unfold count_documents.
  intros ([] & w1 & Hc%store_command_ok & Hrest)%bind_ok.
  apply bind_ok in Hrest as (s & w2 & [= <- <-] & [= <- <-]).
  by rewrite Hc.
Qed.

(** One step of a successful run: split the first statement off, and, when
    it leaves the store alone, keep only that fact. *)
Ltac run_step H Hm :=
  apply bind_ok in H as (? & ? & Hm & H); cbv beta zeta in H;
  repeat match goal with u : () |- _ => destruct u end.

Ltac quiet_step H :=
  let Hm := fresh "Hquiet" in
  run_step H Hm;
  match type of Hm with
  | ?m ?w = _ =>
      let K := fresh in
      assert (K : keeps_store m) by keeps;
      apply K in Hm
  end.

Lemma metadata_flag_ev (now : Z) (names : list pyval) (meta : pyval)
    (total : nat) :
  dict_get "is_metadata" (ev_metadata_doc now names meta total)
  = Some (PBool true).
Proof. reflexivity. Qed.

Lemma metadata_flag_nutrition (now : Z) (fetched : nat) :
  dict_get "is_metadata" (nutrition_metadata_doc now fetched)
  = Some (PBool true).
Proof. reflexivity. Qed.

Lemma ev_store_ok (j : pyval) (w w' : world) :
  ev_store j w = (inr (), w') →
  ∃ meta rows,
    store w' !! EV_RAW_COLLECTION = Some (meta :: rows)
    ∧ dict_get "is_metadata" meta = Some (PBool true)
    ∧ rows ≠ [].
Proof.
  unfold ev_store. intros Hrun.
  run_step Hrun Hdel. apply delete_many_ok in Hdel as [Hempty _].
  do 8 quiet_step Hrun.
  run_step Hrun Hmeta.
  apply insert_one_ok in Hmeta as (meta & Hstore & Hsame & _).
  do 2 quiet_step Hrun.
  apply insert_many_ok in Hrun as (Hne & rows & Hrows & Hall & _).
  exists meta, rows. split_and!.
  - rewrite Hrows. repeat match goal with H : store _ = store _ |- _ =>
      rewrite H; clear H end.
    rewrite Hstore. repeat match goal with H : store _ = store _ |- _ =>
      rewrite H; clear H end.
    by rewrite Hempty.
  - rewrite Hsame by done. apply metadata_flag_ev.
  - intros ->. by apply Forall2_nil_inv_r in Hall.
Qed.

Lemma nutrition_store_ok (j : pyval) (w w' : world) :
  nutrition_store j w = (inr (), w') →
  ∃ meta rows,
    store w' !! NUTRITION_RAW_COLLECTION = Some (rows ++ [meta])%list
    ∧ dict_get "is_metadata" meta = Some (PBool true)
    ∧ rows ≠ [].
Proof.
  unfold nutrition_store. intros Hrun.
  quiet_step Hrun.
  run_step Hrun Hdel. apply delete_many_ok in Hdel as [Hempty _].
  do 2 quiet_step Hrun.
  run_step Hrun Hins.
  apply insert_many_ok in Hins as (Hne & rows & Hrows & Hall & _).
  quiet_step Hrun.
  apply insert_one_ok in Hrun as (meta & Hstore & Hsame & _).
  exists meta, rows. split_and!.
  - rewrite Hstore. repeat match goal with H : store _ = store _ |- _ =>
      rewrite H; clear H end.
    rewrite Hrows. repeat match goal with H : store _ = store _ |- _ =>
      rewrite H; clear H end.
    by rewrite Hempty.
  - rewrite Hsame by done. apply metadata_flag_nutrition.
  - intros ->. by apply Forall2_nil_inv_r in Hall.
Qed.

(** ** C3: the metadata document *)

Lemma length_filter_split (ds : list doc) :
  length ds
  = (length (filter (λ d, not_metadata d = true) ds)
     + length (filter (λ d, is_metadata d = true) ds))%nat.
Proof.
  induction ds as [|d ds IH]; [done|].
  rewrite !filter_cons.
  destruct (decide (not_metadata d = true)) as [Hd|Hd];
    destruct (decide (is_metadata d = true)) as [Hm|Hm]; simpl; try lia.
  - unfold is_metadata in Hm. rewrite Hd in Hm. done.
  - unfold is_metadata in Hm. destruct (not_metadata d); done.
Qed.




(** ** C6: the sampling branch *)

(** C6 at a source with no row (fewer than the cap): the branch that keeps
    all rows is taken, and the bulk insert of the empty list raises; the
    failure is logged and the raw collection is left with the metadata
    document alone. *)
Theorem ev_empty_source_raises :
  let w := (ingestion empty_source_world).2 in
  trace w
  = [Print "Connected to MongoDB!";
     HttpGet EV_API_URL;
     Print "Error processing EV data: documents must be a non-empty list";
     Print "Traceback (most recent call last)";
     HttpGet NUTRITION_API_URL;
     DocumentCount EV_RAW_COLLECTION 1;
     DocumentCount NUTRITION_RAW_COLLECTION 2;
     Print "DATA INGESTION COMPLETE!"]
  ∧ length (filter (λ d, not_metadata d = true)
              (default [] (store w !! EV_RAW_COLLECTION))) = 0%nat.
Proof. vm_compute. done. Qed.

(** What the branch does otherwise.  Drawing [k] items from a pool of at
    least [k] gives [k] items, each taken from its own position of the
    pool. *)
Lemma sample_pool_length {A} (pool : list A) (k : nat) (draws : list nat) :
  (k ≤ length pool)%nat → length (sample_pool pool k draws) = k.
Proof.
  revert pool draws. induction k as [|k IH]; intros pool draws Hk; [done|].
  simpl.
  assert (hd 0 draws `mod` length pool < length pool)%nat as Hj
    by (apply Nat.mod_upper_bound; lia).
  destruct (lookup_lt_is_Some_2 pool _ Hj) as [x ->].
  destruct (lookup_lt_is_Some_2 pool (length pool - 1)) as [y ->]; [lia|].
  simpl. f_equal. apply IH.
  rewrite length_take, length_insert. lia.
Qed.

Lemma insert_last_Permutation {A} (p : list A) (j : nat) (x y : A) :
  p !! j = Some x → x :: <[j := y]> p ≡ₚ p ++ [y].
Proof.
  intros Hx.
  assert (j < length p)%nat as Hj by (by eapply lookup_lt_Some).
  rewrite <- Permutation_cons_append.
  rewrite (delete_Permutation p j x Hx) at 2.
  rewrite (delete_Permutation (<[j := y]> p) j y)
    by (by apply list_lookup_insert_eq).
  assert (delete j (<[j := y]> p) = delete j p) as ->.
  { rewrite insert_take_drop, !delete_take_drop by done.
    rewrite take_app_length' by (rewrite length_take; lia).
    rewrite cons_middle, app_assoc.
    rewrite drop_app_length' by (rewrite length_app, length_take; simpl; lia).
    done. }
  apply Permutation_swap.
Qed.

Lemma swap_out_Permutation {A} (pool : list A) (j : nat) (x y : A) :
  pool !! j = Some x → pool !! (length pool - 1)%nat = Some y →
  x :: take (length pool - 1) (<[j := y]> pool) ≡ₚ pool.
Proof.
  intros Hx Hy.
  assert (pool = take (length pool - 1) pool ++ [y])%list as Hsplit.
  { rewrite <- (take_drop (length pool - 1) pool) at 1. f_equal.
    erewrite drop_S by done. by rewrite drop_ge by lia. }
  destruct (decide (j < length pool - 1)%nat) as [Hlt|Hge].
  - rewrite take_insert_lt by done.
    rewrite insert_last_Permutation by (by rewrite lookup_take_lt).
    by rewrite <- Hsplit.
  - assert (j = length pool - 1)%nat as ->.
    { apply lookup_lt_Some in Hx. lia. }
    assert (x = y) as -> by congruence.
    rewrite take_insert_ge by done.
    rewrite Permutation_cons_append. by rewrite <- Hsplit.
Qed.

Lemma sample_pool_submseteq {A} (pool : list A) (k : nat) (draws : list nat) :
  sample_pool pool k draws ⊆+ pool.
Proof.
  revert pool draws. induction k as [|k IH]; intros pool draws;
    [apply submseteq_nil_l|].
  simpl.
  destruct (pool !! (hd 0 draws `mod` length pool)%nat) as [x|] eqn:Ex;
    [|apply submseteq_nil_l].
  destruct (pool !! (length pool - 1)%nat) as [y|] eqn:Ey;
    [|apply submseteq_nil_l].
  transitivity
    (x :: take (length pool - 1)
            (<[(hd 0 draws `mod` length pool)%nat := y]> pool)).
  - apply submseteq_skip, IH.
  - by rewrite swap_out_Permutation.
Qed.

(** ** How many rows the EV block stores *)

Lemma mapM_length {A B} (f : A → M B) (l : list A) (bs : list B)
    (w w' : world) :
  mapM f l w = (inr bs, w') → length bs = length l.
Proof.
  revert bs w. induction l as [|a l IH]; simpl; intros bs w.
  - by intros [= <- <-].
  - intros (b & w1 & _ & Hrest)%bind_ok.
    apply bind_ok in Hrest as (bs' & w2 & Hbs & [= <- <-]).
    simpl. f_equal. by eapply IH.
Qed.

Lemma py_iter_length (v : pyval) (l : list pyval) (n : nat) :
  py_len v = inr n → py_iter v = inr l → length l = n.
Proof.
  destruct v; simpl; try done; intros [= <-] [= <-]; try done.
  - unfold chars. rewrite length_fmap.
    induction s as [|a s IH]; simpl; [done|]. by rewrite IH.
  - unfold dict_keys. by rewrite !length_fmap.
Qed.

Lemma random_sample_ok (population sampled : list pyval) (k : nat)
    (w w' : world) :
  random_sample population k w = (inr sampled, w') →
  length sampled = k ∧ sampled ⊆+ population.
Proof.
  unfold random_sample.
  destruct (length population <? k)%nat eqn:E; [done|].
  intros [= <- <-]. apply Nat.ltb_ge in E. split.
  - by apply sample_pool_length.
  - apply sample_pool_submseteq.
Qed.

Lemma lift_result_ok {A} (r : error + A) (a : A) (w w' : world) :
  lift_result r w = (inr a, w') → r = inr a ∧ w' = w.
Proof. destruct r; simpl; [done|]. by intros [= <- <-]. Qed.

(** Whenever the EV block runs to its end, the raw collection holds the
    metadata document followed by the rows: all of them when the source
    has at most [SAMPLE_SIZE] rows (and then at least one), exactly
    [SAMPLE_SIZE] otherwise. *)
Lemma ev_store_row_count (j : pyval) (w w' : world) :
  ev_store j w = (inr (), w') →
  ∃ data total meta stored,
    py_get j "data" (PList []) = inr data
    ∧ py_len data = inr total
    ∧ store w' !! EV_RAW_COLLECTION = Some (meta :: stored)
    ∧ length stored = (if (SAMPLE_SIZE <? total)%nat then SAMPLE_SIZE else total)
    ∧ (1 ≤ length stored)%nat.
Proof.
  unfold ev_store. intros Hrun.
  run_step Hrun Hdel. apply delete_many_ok in Hdel as [Hempty _].
  do 5 quiet_step Hrun.
  run_step Hrun Hdata. run_step Hrun Htotal.
  apply lift_result_ok in Hdata as [Hd ->].
  apply lift_result_ok in Htotal as [Ht ->].
  quiet_step Hrun.
  run_step Hrun Hmeta.
  apply insert_one_ok in Hmeta as (meta & Hstore & Hsame & _).
  run_step Hrun Hsampled. run_step Hrun Hdocs.
  apply insert_many_ok in Hrun as (Hne & rows & Hrows & Hall & _).
  pose proof (mapM_length _ _ _ _ _ Hdocs) as Hlen.
  pose proof (Forall2_length _ _ _ Hall) as Hlen'.
  match type of Hdocs with ?m _ = _ =>
    let K := fresh in
    assert (keeps_store m) as K by keeps; apply K in Hdocs end.
  match type of Hsampled with ?m _ = _ =>
    let K := fresh in
    assert (keeps_store m) as K by keeps; pose proof (K _ _ _ Hsampled) as Hks end.
  eexists _, _, meta, rows. split_and!; [exact Hd|exact Ht| | |].
  - rewrite Hrows, Hdocs, Hks, Hstore.
    repeat match goal with H : store _ = store _ |- _ =>
      rewrite H; clear H end.
    by rewrite Hempty.
  - rewrite <- Hlen', Hlen.
    destruct (SAMPLE_SIZE <? _)%nat.
    + apply bind_ok in Hsampled as (population & w1 & _ & Hs).
      by apply random_sample_ok in Hs as [? _].
    + apply lift_result_ok in Hsampled as [Hl _].
      by eapply py_iter_length.
  - rewrite <- Hlen'.
    match type of Hne with ?l ≠ [] => destruct l; [done|simpl; lia] end.
Qed.

(** ** Frames: lookups through the cleaning steps *)

Lemma in_list_elem (k : string) (l : list string) :
  in_list k l = true ↔ k ∈ l.
Proof.
  unfold in_list. induction l as [|x l IH]; simpl.
  - split; [done|]. by intros ?%elem_of_nil.
  - rewrite elem_of_cons, orb_true_iff, IH, String.eqb_eq. done.
Qed.

Lemma in_list_not_elem (k : string) (l : list string) :
  in_list k l = false ↔ k ∉ l.
Proof.
  rewrite <- in_list_elem. by destruct (in_list k l).
Qed.

Lemma frame_get_keys (g : string → column) (k : string) (ks : list string) :
  frame_get k ((λ k, (k, g k)) <$> ks)
  = if in_list k ks then Some (g k) else None.
Proof.
  unfold in_list. induction ks as [|x ks IH]; simpl; [done|].
  destruct (String.eqb k x) eqn:E; simpl; [|done].
  by apply String.eqb_eq in E as ->.
Qed.

Lemma frame_get_names (k : string) (cs : list (string * column)) :
  in_list k cs.*1 = match frame_get k cs with Some _ => true | None => false end.
Proof.
  unfold in_list. induction cs as [|[k' c] cs IH]; simpl; [done|].
  destruct (String.eqb k k'); simpl; done.
Qed.

Lemma frame_set_same (k : string) (c : column) (cs : list (string * column)) :
  frame_get k cs = Some c → frame_set k c cs = cs.
Proof.
  induction cs as [|[k' c'] cs IH]; simpl; [done|].
  destruct (String.eqb k k') eqn:E.
  - apply String.eqb_eq in E as ->. by intros [= ->].
  - intros Hg. by rewrite IH.
Qed.

Lemma frame_set_names (k : string) (c : column) (cs : list (string * column)) :
  in_list k cs.*1 = true → (frame_set k c cs).*1 = cs.*1.
Proof.
  unfold in_list. induction cs as [|[k' c'] cs IH]; simpl; [done|].
  destruct (String.eqb k k') eqn:E; simpl.
  - apply String.eqb_eq in E as ->. done.
  - intros Hin. f_equal. by apply IH.
Qed.

Lemma frame_get_drop (names : list string) (df : frame) (k : string) :
  frame_get k (columns (frame_drop names df))
  = if in_list k names then None else frame_get k (columns df).
Proof.
  unfold frame_drop; simpl. induction (columns df) as [|[k' c] cs IH]; simpl.
  - by destruct (in_list k names).
  - rewrite filter_cons. simpl.
    destruct (decide (in_list k' names = false)) as [Hk'|Hk']; simpl.
    + destruct (String.eqb k k') eqn:E; [|done].
      apply String.eqb_eq in E as ->. by rewrite Hk'.
    + destruct (String.eqb k k') eqn:E; [|done].
      apply String.eqb_eq in E as ->. rewrite IH.
      by destruct (in_list k' names).
Qed.

Lemma update_column_nrows (f : column → column) (df : frame) (col : string) :
  nrows (update_column f df col) = nrows df.
Proof. unfold update_column. by destruct (frame_get col (columns df)). Qed.

Lemma update_column_names (f : column → column) (df : frame) (col : string) :
  (columns (update_column f df col)).*1 = (columns df).*1.
Proof.
  unfold update_column.
  destruct (frame_get col (columns df)) as [c|] eqn:E; [|done]. simpl.
  apply frame_set_names. by rewrite frame_get_names, E.
Qed.

Lemma update_column_get (f : column → column) (df : frame) (col k : string) :
  frame_get k (columns (update_column f df col))
  = (if String.eqb k col then f else id) <$> frame_get k (columns df).
Proof.
  unfold update_column.
  destruct (String.eqb k col) eqn:E.
  - apply String.eqb_eq in E as ->.
    destruct (frame_get col (columns df)) as [c|] eqn:Eg; simpl.
    + by rewrite frame_get_set_eq.
    + by rewrite Eg.
  - apply String.eqb_neq in E.
    destruct (frame_get col (columns df)) as [c|] eqn:Eg; simpl.
    + rewrite frame_get_set_ne by done. by destruct (frame_get k (columns df)).
    + by destruct (frame_get k (columns df)).
Qed.

Lemma update_columns_nrows (f : column → column) (names : list string)
    (df : frame) :
  nrows (foldl (update_column f) df names) = nrows df.
Proof.
  revert df. induction names as [|n names IH]; intros df; simpl; [done|].
  by rewrite IH, update_column_nrows.
Qed.

Lemma update_columns_names (f : column → column) (names : list string)
    (df : frame) :
  (columns (foldl (update_column f) df names)).*1 = (columns df).*1.
Proof.
  revert df. induction names as [|n names IH]; intros df; simpl; [done|].
  by rewrite IH, update_column_names.
Qed.

(** A loop that rewrites the columns of a list of distinct names applies
    its body once to each named column and leaves the others alone. *)
Lemma update_columns_get (f : column → column) (names : list string)
    (df : frame) (k : string) :
  NoDup names →
  frame_get k (columns (foldl (update_column f) df names))
  = (if in_list k names then f else id) <$> frame_get k (columns df).
Proof.
  intros Hnd. revert df.
  induction Hnd as [|n names Hn Hnd IH]; intros df; simpl.
  - by destruct (frame_get k (columns df)).
  - rewrite IH, update_column_get.
    destruct (String.eqb k n) eqn:E; simpl.
    + apply String.eqb_eq in E as ->.
      apply in_list_not_elem in Hn as ->.
      by destruct (frame_get n (columns df)).
    + by destruct (frame_get k (columns df)), (in_list k names).
Qed.

(** *** Column names of a frame built from documents *)

Lemma add_keys_NoDup (ks seen : list string) :
  NoDup seen → NoDup (add_keys ks seen).
Proof.
  revert seen. induction ks as [|k ks IH]; intros seen Hnd; simpl; [done|].
  apply IH. destruct (in_list k seen) eqn:E; [done|].
  apply NoDup_app. split_and!; [done| |apply NoDup_singleton].
  intros x Hx ->%list_elem_of_singleton.
  by apply in_list_not_elem in E.
Qed.

Lemma add_keys_elem (ks seen : list string) (k : string) :
  k ∈ add_keys ks seen ↔ k ∈ seen ∨ k ∈ ks.
Proof.
  revert seen. induction ks as [|x ks IH]; intros seen; simpl.
  - rewrite elem_of_nil. tauto.
  - rewrite IH, elem_of_cons. destruct (in_list x seen) eqn:E.
    + apply in_list_elem in E. split; [tauto|].
      intros [?|[->|?]]; tauto.
    + rewrite elem_of_app, list_elem_of_singleton. tauto.
Qed.

Lemma union_keys_NoDup (docs : list doc) : NoDup (union_keys docs).
Proof.
  unfold union_keys.
  assert (∀ seen, NoDup seen →
            NoDup (foldl (λ seen d, add_keys (dict_keys d) seen) seen docs))
    as Hgen.
  { induction docs as [|d docs IH]; intros seen Hnd; simpl; [done|].
    apply IH. by apply add_keys_NoDup. }
  apply Hgen, NoDup_nil_2.
Qed.

Lemma union_keys_elem (docs : list doc) (k : string) :
  k ∈ union_keys docs ↔ ∃ d, d ∈ docs ∧ k ∈ dict_keys d.
Proof.
  unfold union_keys.
  assert (∀ seen,
            k ∈ foldl (λ seen d, add_keys (dict_keys d) seen) seen docs
            ↔ k ∈ seen ∨ ∃ d, d ∈ docs ∧ k ∈ dict_keys d) as Hgen.
  { induction docs as [|d docs IH]; intros seen; simpl.
    - split; [by left|]. intros [?|(d & ?%elem_of_nil & _)]; done.
    - rewrite IH, add_keys_elem. split.
      + intros [[?|?]|(d' & ? & ?)]; [by left| |].
        * right. exists d. split; [by left|done].
        * right. exists d'. split; [by right|done].
      + intros [?|(d' & [->|?]%elem_of_cons & ?)]; [tauto|tauto|].
        right. by exists d'. }
  rewrite Hgen, elem_of_nil. tauto.
Qed.

Lemma dict_get_keys (k : string) (d : doc) (v : pyval) :
  dict_get k d = Some v → k ∈ dict_keys d.
Proof.
  unfold dict_keys. induction d as [|[k' v'] d IH]; simpl; [done|].
  destruct (String.eqb k k') eqn:E.
  - apply String.eqb_eq in E as ->. intros _. by left.
  - intros Hg. right. by apply IH.
Qed.

Lemma frame_of_docs_get (docs : list doc) (k : string) :
  frame_get k (columns (frame_of_docs docs))
  = if in_list k (union_keys docs)
    then Some (infer_column (raw_cells k docs)) else None.
Proof.
  unfold frame_of_docs; simpl.
  exact (frame_get_keys (λ k, infer_column (raw_cells k docs)) k _).
Qed.

Lemma frame_of_docs_names (docs : list doc) :
  (columns (frame_of_docs docs)).*1 = union_keys docs.
Proof.
  unfold frame_of_docs; simpl. rewrite <- list_fmap_compose.
  apply list_fmap_id.
Qed.

Lemma frame_drop_NoDup (names : list string) (df : frame) :
  NoDup (columns df).*1 → NoDup (columns (frame_drop names df)).*1.
Proof.
  unfold frame_drop; simpl. induction (columns df) as [|[k c] cs IH]; simpl;
    [done|].
  intros [Hk Hnd]%NoDup_cons. rewrite filter_cons. simpl.
  destruct (decide (in_list k names = false)); simpl; [|by apply IH].
  apply NoDup_cons. split; [|by apply IH].
  intros (kc & -> & [_ Hin]%list_elem_of_filter)%list_elem_of_fmap.
  apply Hk. apply list_elem_of_fmap. by exists kc.
Qed.

(** ** C2: which columns are coerced *)

Section Conversion.
Context `{Runtime}.

Lemma convert_step_update (st : frame * nat) (col : string) :
  (convert_step st col).1 = update_column convert_column st.1 col.
Proof.
  unfold convert_step, update_column, convert_column.
  destruct (frame_get col (columns st.1)) as [c|] eqn:Eg; [|done].
  destruct (wants_numeric c); [done|].
  rewrite frame_set_same by done. by destruct st as [[n cs] k].
Qed.

Lemma convert_loop (names : list string) (st : frame * nat) :
  (foldl convert_step st names).1
  = foldl (update_column convert_column) st.1 names.
Proof.
  revert st. induction names as [|n names IH]; intros st; simpl; [done|].
  by rewrite IH, convert_step_update.
Qed.

Lemma ev_drop_NoDup (docs : list doc) : NoDup (columns (ev_drop docs)).*1.
Proof.
  apply frame_drop_NoDup. rewrite frame_of_docs_names. apply union_keys_NoDup.
Qed.

Lemma ev_convert_get (docs : list doc) (k : string) (c : column) :
  frame_get k (columns (ev_drop docs)) = Some c →
  frame_get k (columns (ev_convert docs)) = Some (convert_column c).
Proof.
  intros Hg. unfold ev_convert, convert_numeric_columns.
  rewrite convert_loop. cbn [fst].
  rewrite update_columns_get by apply ev_drop_NoDup.
  by rewrite frame_get_names, Hg.
Qed.

Lemma to_numeric_idemp (c : column) : to_numeric (to_numeric c) = to_numeric c.
Proof.
  destruct c as [[|v l]| | |]; try done.
  unfold to_numeric.
  destruct (forallb is_bool_val (v :: l)); [done|].
  by destruct (forallb numeral_is_int (to_numeric_cell <$> v :: l)).
Qed.

Lemma numeric_cols_NoDup : NoDup numeric_cols.
Proof. apply (bool_decide_unpack _). by vm_compute. Qed.

Lemma year_cols_NoDup : NoDup year_cols.
Proof. apply (bool_decide_unpack _). by vm_compute. Qed.

Lemma nutrition_convert_get (docs : list doc) (k : string) (c : column) :
  frame_get k (columns (nutrition_drop docs)) = Some c →
  frame_get k (columns (nutrition_convert docs))
  = Some (if in_list k (numeric_cols ++ year_cols) then to_numeric c else c).
Proof.
  intros Hg. unfold nutrition_convert, coerce_named.
  rewrite (update_columns_get _ _ _ _ year_cols_NoDup).
  rewrite (update_columns_get _ _ _ _ numeric_cols_NoDup), Hg.
  unfold in_list. rewrite existsb_app. fold (in_list k numeric_cols).
  fold (in_list k year_cols).
  destruct (in_list k numeric_cols), (in_list k year_cols); simpl; try done.
  by rewrite to_numeric_idemp.
Qed.

(** C2, as the code has it.  In the EV table a column is rewritten by the
    numeric coercion exactly when its first non-missing value, a Python
    int, float or str that is truthy, has a string form that is all digits
    once ['.'] and ['-'] are removed; a column whose first non-missing
    value is of another type, or that has no such value, is left as it
    is.  In the nutrition table the test plays no part: the seven columns
    named in [numeric_cols] and [year_cols] are coerced whatever they hold,
    and no other column is. *)
Theorem coercion_rule :
  (∀ docs k c,
     frame_get k (columns (ev_drop docs)) = Some c →
     ∃ c', frame_get k (columns (ev_convert docs)) = Some c'
           ∧ (sample_val c = None → c' = c)
           ∧ (∀ v, sample_val c = Some v →
                   isinstance_int_float_str c v = false → c' = c)
           ∧ (∀ v, sample_val c = Some v →
                   isinstance_int_float_str c v = true →
                   truthy v = true →
                   c' = if looks_numeric (py_str v) then to_numeric c else c))
  ∧ (∀ docs k c,
       frame_get k (columns (nutrition_drop docs)) = Some c →
       frame_get k (columns (nutrition_convert docs))
       = Some (if in_list k (numeric_cols ++ year_cols)
               then to_numeric c else c)).
Proof.
  split; [|apply nutrition_convert_get].
  intros docs k c Hg. exists (convert_column c).
  split; [by apply ev_convert_get|].
  unfold convert_column, wants_numeric. split_and!.
  - by intros ->.
  - intros v -> ->. by rewrite andb_false_r.
  - by intros v -> -> ->.
Qed.

End Conversion.

Lemma coercion_rule_witness :
  frame_get "locationid"
    (columns (nutrition_convert footnote_docs))
  = Some (if in_list "locationid" (numeric_cols ++ year_cols)
          then to_numeric (ColObject [PStr "59"]) else ColObject [PStr "59"]).
Proof.
  apply (proj2 (@coercion_rule decimal_runtime) footnote_docs "locationid").
  reflexivity.
Defined.

(** The rule of the claim does not hold for every column of the cleaning
    stage: in the nutrition table [locationid] passes the digit test and
    stays an object column, [data_value] fails it and is coerced (to a
    missing value). *)
Lemma nutrition_ignores_digit_test :
  ¬ (∀ docs k c,
       frame_get k (columns (nutrition_drop docs)) = Some c →
       frame_get k (columns (nutrition_convert docs))
       = Some (@convert_column decimal_runtime c)).
Proof.
  intros Hrule.
  specialize (Hrule footnote_docs "locationid" (ColObject [PStr "59"]) eq_refl).
  vm_compute in Hrule. discriminate.
Qed.

(** An EV column that opens with the number zero next to text: the digit
    test would pass on ["0"], but zero is falsy and the column is left an
    object column. *)
Example ev_zero_sample_not_coerced :
  @ev_convert decimal_runtime [[("Electric Range", PInt 0)];
                               [("Electric Range", PStr "n/a")]]
  = Frame 2 [("Electric Range", ColObject [PInt 0; PStr "n/a"])].
Proof. reflexivity. Qed.

(** ** Where the fill is complete *)

Lemma frame_ext (cs cs' : list (string * column)) :
  cs.*1 = cs'.*1 → NoDup cs.*1 →
  (∀ k, frame_get k cs = frame_get k cs') → cs = cs'.
Proof.
  revert cs'. induction cs as [|[k c] cs IH]; intros [|[k' c'] cs']; try done.
  rewrite !fmap_cons. simpl. intros [= <- Hnames] [Hk Hnd]%NoDup_cons Hget.
  pose proof (Hget k) as Hk0. simpl in Hk0. rewrite String.eqb_refl in Hk0.
  injection Hk0 as <-. f_equal. apply IH; [done..|].
  intros k'. pose proof (Hget k') as Hk'. simpl in Hk'.
  destruct (String.eqb k' k) eqn:E; [|done].
  apply String.eqb_eq in E as ->.
  assert (frame_get k cs = None) as ->.
  { destruct (frame_get k cs) eqn:Eg; [|done]. exfalso. apply Hk.
    apply in_list_elem. by rewrite frame_get_names, Eg. }
  destruct (frame_get k cs') eqn:Eg; [|done]. exfalso. apply Hk.
  rewrite Hnames. apply in_list_elem. by rewrite frame_get_names, Eg.
Qed.

Lemma frame_get_fmap (f : column → column) (cs : list (string * column))
    (k : string) :
  frame_get k (prod_map id f <$> cs) = f <$> frame_get k cs.
Proof.
  induction cs as [|[k' c] cs IH]; [done|]. rewrite fmap_cons. simpl.
  by destruct (String.eqb k k').
Qed.

(** A loop over all the columns of a frame is a map over them. *)
Lemma update_all_columns (f : column → column) (df : frame) :
  NoDup (columns df).*1 →
  columns (foldl (update_column f) df (columns df).*1)
  = prod_map id f <$> columns df.
Proof.
  intros Hnd. apply frame_ext.
  - rewrite update_columns_names, <- list_fmap_compose.
    apply list_fmap_ext. by intros [].
  - by rewrite update_columns_names.
  - intros k. rewrite update_columns_get, frame_get_fmap by done.
    rewrite frame_get_names. by destruct (frame_get k (columns df)).
Qed.

Lemma no_missing_cells (cells : list pyval) :
  Forall (λ v, isnull v = false) cells →
  length (filter (λ v, isnull v = true) cells) = 0%nat.
Proof.
  induction 1 as [|v l Hv _ IH]; [done|].
  rewrite filter_cons_False by (by rewrite Hv). exact IH.
Qed.

Lemma missing_count_typed (c : column) :
  match c with
  | ColInt _ | ColBool _ => missing_count c = 0%nat
  | _ => True
  end.
Proof.
  destruct c as [l|l|l|l]; try done; apply no_missing_cells;
    simpl; by apply Forall_fmap, Forall_true.
Qed.

Lemma fill_column_complete (c : column) :
  (is_numeric_dtype c = true → median c = None → missing_count c = 0%nat) →
  missing_count (fill_column c) = 0%nat.
Proof.
  intros Hmed. unfold fill_column.
  destruct (0 <? missing_count c)%nat eqn:Em;
    [|apply Nat.ltb_ge in Em; lia].
  apply Nat.ltb_lt in Em.
  pose proof (missing_count_typed c) as Htyped.
  destruct c as [l|l|l|l]; simpl in *; try lia.
  - apply no_missing_cells. simpl. apply Forall_fmap, Forall_true.
    intros v. simpl. by destruct (isnull v) eqn:E.
  - destruct (median (ColFloat l)) as [m|];
      [|specialize (Hmed eq_refl eq_refl); lia].
    apply no_missing_cells. simpl. rewrite <- list_fmap_compose.
    by apply Forall_fmap, Forall_true.
Qed.

(** If every numeric column that has a missing entry also has a value,
    nothing is missing after the fill loop. *)
Lemma fill_missing_complete (df : frame) :
  NoDup (columns df).*1 →
  (∀ k c, (k, c) ∈ columns df → is_numeric_dtype c = true →
          median c = None → missing_count c = 0%nat) →
  total_missing (fill_missing df) = 0%nat.
Proof.
  intros Hnd Hcols. unfold total_missing, fill_missing.
  rewrite update_all_columns by done.
  induction (columns df) as [|[k c] cs IH]; [done|].
  rewrite !fmap_cons. simpl.
  rewrite fill_column_complete.
  - apply IH.
    + by apply NoDup_cons in Hnd as [_ ?].
    + intros k' c' Hin. apply (Hcols k'). by right.
  - apply (Hcols k). by left.
Qed.

(** ** C1: missing values after the fill *)

(** C1 at a raw nutrition collection whose [data_value] is missing in every
    record, and at a raw EV collection with a column of dates: the coerced
    column is [float64] with no value at all, its median is NaN, and the
    fill leaves every entry missing.  The script reports the remaining
    missing values itself and stores the records with NaN. *)
Theorem all_missing_numeric_column_stays_missing :
  let w := ((ingestion;; @cleaning decimal_runtime) suppressed_value_world).2 in
  printed (trace w)
  = ["Connected to MongoDB!";
     "DATA INGESTION COMPLETE!";
     "Connected to MongoDB!";
     "Remaining missing values: 1";
     "Remaining missing values: 1";
     "MongoDB connection closed."]
  ∧ store w !! "nutrition_data_cleaned"
    = Some [[("locationabbr", PStr "AK");
             ("data_value", PNaN);
             ("_processed_at", PDatetime 5);
             ("_record_id", PInt 1);
             ("_id", PObjectId 5)]]
  ∧ store w !! "ev_data_cleaned"
    = Some [[("Sale Date", PNaN);
             ("_processed_at", PDatetime 4);
             ("_record_id", PInt 1);
             ("_id", PObjectId 4)]].
Proof. vm_compute. done. Qed.

(** ** Cells through coercion, fill and subtraction *)

Lemma to_numeric_typed (c : column) : is_typed (to_numeric c).
Proof.
  destruct c as [[|v l]| | |]; try done.
  unfold to_numeric.
  destruct (forallb is_bool_val (v :: l)); [done|].
  by destruct (forallb numeral_is_int (to_numeric_cell <$> v :: l)).
Qed.

Lemma as_float_float_cell (o : option Q) : as_float (float_cell o) = o.
Proof. by destruct o. Qed.

Lemma forallb_lookup {A} (p : A → bool) (l : list A) (i : nat) (x : A) :
  forallb p l = true → l !! i = Some x → p x = true.
Proof.
  revert i. induction l as [|y l IH]; intros i; [done|]. simpl.
  intros [Hy Hall]%andb_true_iff. destruct i as [|i]; simpl.
  - by intros [= <-].
  - by apply IH.
Qed.

(** The numeric reading of a raw cell survives frame construction and
    coercion: cell [i] of the coerced column carries the number read from
    raw cell [i], or nothing when the raw cell does not read as a number. *)
Lemma coerced_cell (cells : list pyval) (i : nat) (v : pyval) :
  cells !! i = Some v →
  ∃ x, column_cells (to_numeric (infer_column cells)) !! i = Some x
       ∧ as_float x = numeral_float (to_numeric_cell v).
Proof.
  intros Hv. destruct cells as [|v0 cells]; [done|].
  unfold infer_column.
  destruct (forallb is_bool_val (v0 :: cells)) eqn:Eb.
  { pose proof (forallb_lookup _ _ _ _ Eb Hv) as Hb.
    destruct v; try done. exists (PBool b). split; [|by destruct b].
    unfold to_numeric, column_cells.
    by rewrite !list_lookup_fmap, Hv. }
  destruct (forallb is_scalar_num (v0 :: cells)) eqn:Es.
  - destruct (forallb is_int_val (v0 :: cells)) eqn:Ei.
    { pose proof (forallb_lookup _ _ _ _ Ei Hv) as Hi.
      destruct v; try done. exists (PInt z). split; [|done].
      unfold to_numeric, column_cells.
      by rewrite !list_lookup_fmap, Hv. }
    pose proof (forallb_lookup _ _ _ _ Es Hv) as Hs.
    destruct (existsb is_int_val (v0 :: cells)
              || existsb is_float_like (v0 :: cells)).
    + exists (float_cell (as_float v)). split.
      * unfold to_numeric, column_cells.
        by rewrite !list_lookup_fmap, Hv.
      * rewrite as_float_float_cell. by destruct v.
    + unfold to_numeric. rewrite Eb.
      destruct (forallb numeral_is_int (to_numeric_cell <$> v0 :: cells)) eqn:En.
      * assert (numeral_is_int (to_numeric_cell v) = true) as Hn.
        { eapply forallb_lookup; [exact En|]. by rewrite list_lookup_fmap, Hv. }
        exists (PInt (numeral_int (to_numeric_cell v))). split.
        -- unfold column_cells. by rewrite !list_lookup_fmap, Hv.
        -- by destruct (to_numeric_cell v) as [[]|].
      * exists (float_cell (numeral_float (to_numeric_cell v))). split.
        -- unfold column_cells. by rewrite !list_lookup_fmap, Hv.
        -- by rewrite as_float_float_cell.
  - unfold to_numeric. rewrite Eb.
    destruct (forallb numeral_is_int (to_numeric_cell <$> v0 :: cells)) eqn:En.
    + assert (numeral_is_int (to_numeric_cell v) = true) as Hn.
      { eapply forallb_lookup; [exact En|]. by rewrite list_lookup_fmap, Hv. }
      exists (PInt (numeral_int (to_numeric_cell v))). split.
      * unfold column_cells. by rewrite !list_lookup_fmap, Hv.
      * by destruct (to_numeric_cell v) as [[]|].
    + exists (float_cell (numeral_float (to_numeric_cell v))). split.
      * unfold column_cells. by rewrite !list_lookup_fmap, Hv.
      * by rewrite as_float_float_cell.
Qed.

Lemma missing_count_zero (c : column) (i : nat) (x : pyval) :
  missing_count c = 0%nat → column_cells c !! i = Some x → isnull x = false.
Proof.
  unfold missing_count. intros Hz Hx.
  apply length_zero_iff_nil in Hz.
  destruct (isnull x) eqn:E; [|done].
  assert (x ∈ filter (λ v, isnull v = true) (column_cells c)) as Hin.
  { apply list_elem_of_filter. split; [done|]. by eapply list_elem_of_lookup_2. }
  rewrite Hz in Hin. by apply elem_of_nil in Hin.
Qed.

(** The fill on a typed column: a present value stays, a missing one
    becomes the median of the column when there is one. *)
Lemma filled_cell (c : column) (i : nat) (x : pyval) :
  is_typed c → column_cells c !! i = Some x →
  ∃ x', column_cells (fill_column c) !! i = Some x'
        ∧ as_float x' = match as_float x with
                        | Some q => Some q
                        | None => median c
                        end.
Proof.
  intros Ht Hx. destruct c as [l|l|l|l]; [done| | |].
  - exists x. split.
    + unfold fill_column, fillna_float. simpl. by repeat case_match.
    + simpl in Hx. rewrite list_lookup_fmap in Hx.
      destruct (l !! i); by simplify_eq/=.
  - unfold fill_column. simpl is_numeric_dtype. cbv iota.
    destruct (0 <? missing_count (ColFloat l))%nat eqn:Em.
    + unfold fillna_float. destruct (median (ColFloat l)) as [m|] eqn:Emed.
      * simpl in Hx |- *. rewrite list_lookup_fmap in Hx.
        destruct (l !! i) as [o|] eqn:El; [|done]. simplify_eq/=.
        exists (PFloat (default m o)). rewrite !list_lookup_fmap, El.
        split; [done|]. by destruct o.
      * exists x. split; [done|]. by destruct (as_float x).
    + exists x. split; [done|].
      apply Nat.ltb_ge in Em.
      assert (isnull x = false) as Hn.
      { eapply missing_count_zero; [|done]. lia. }
      destruct (as_float x) eqn:Ea; [done|].
      simpl in Hx. rewrite list_lookup_fmap in Hx.
      destruct (l !! i) as [[q|]|]; by simplify_eq/=.
  - exists x. split.
    + unfold fill_column, fillna_str. simpl. by repeat case_match.
    + simpl in Hx. rewrite list_lookup_fmap in Hx.
      destruct (l !! i); by simplify_eq/=.
Qed.

Lemma fill_column_typed (c : column) : is_typed c → is_typed (fill_column c).
Proof.
  intros Ht. destruct c as [l|l|l|l]; [done| | |];
    unfold fill_column, fillna_float, fillna_str; simpl; by repeat case_match.
Qed.

Lemma inject_Z_sub (a b : Z) :
  Qred (inject_Z a - inject_Z b) = inject_Z (a - b).
Proof.
  assert ((inject_Z a - inject_Z b)%Q = inject_Z (a - b)) as ->
    by (unfold Qminus, Qplus, Qopp, inject_Z; simpl; f_equal; lia).
  unfold Qred, inject_Z.
  pose proof (Z.ggcd_gcd (a - b) 1) as Hg.
  pose proof (Z.ggcd_correct_divisors (a - b) 1) as Hd.
  destruct (Z.ggcd (a - b) 1) as [g [r1 r2]]. simpl in *.
  rewrite Z.gcd_1_r in Hg. subst g. destruct Hd as [Hr1 Hr2].
  assert (r1 = (a - b)%Z) as -> by lia.
  assert (r2 = 1%Z) as -> by lia. done.
Qed.

Lemma as_float_typed_int (x : pyval) :
  (∃ z, x = PInt z) ∨ (∃ b, x = PBool b) →
  as_float x = Some (inject_Z (as_int x)).
Proof. intros [[z ->]|[[] ->]]; done. Qed.

(** A cell of the difference of two typed columns is the difference of the
    cells, NaN on either side giving NaN. *)
Lemma column_sub_cell (hi lo w : column) (i : nat) (h l : pyval) :
  column_sub hi lo = Some w →
  column_cells hi !! i = Some h → column_cells lo !! i = Some l →
  ∃ x, column_cells w !! i = Some x
       ∧ as_float x = float_sub (as_float h) (as_float l).
Proof.
  intros Hsub Hh Hl.
  assert (∀ a b, hi = ColFloat a ∨ lo = ColFloat b →
                 is_typed hi → is_typed lo →
                 w = ColFloat (zip_with float_sub (as_float <$> column_cells hi)
                                 (as_float <$> column_cells lo)) →
                 ∃ x, column_cells w !! i = Some x
                      ∧ as_float x = float_sub (as_float h) (as_float l))
    as Hfloat.
  { intros a b _ _ _ ->. exists (float_cell (float_sub (as_float h) (as_float l))).
    split; [|apply as_float_float_cell].
    unfold column_cells at 1.
    rewrite list_lookup_fmap, lookup_zip_with, !list_lookup_fmap, Hh, Hl.
    done. }
  assert (∀ ch cl : list pyval,
            column_cells hi = ch → column_cells lo = cl →
            ((∃ z, h = PInt z) ∨ (∃ b, h = PBool b)) →
            ((∃ z, l = PInt z) ∨ (∃ b, l = PBool b)) →
            w = ColInt (zip_with Z.sub (as_int <$> ch) (as_int <$> cl)) →
            ∃ x, column_cells w !! i = Some x
                 ∧ as_float x = float_sub (as_float h) (as_float l))
    as Hint.
  { intros ch cl <- <- Hhi Hlo ->. exists (PInt (as_int h - as_int l)).
    split.
    - unfold column_cells at 1.
      rewrite list_lookup_fmap, lookup_zip_with, !list_lookup_fmap, Hh, Hl.
      done.
    - rewrite (as_float_typed_int h), (as_float_typed_int l) by done.
      simpl. by rewrite inject_Z_sub. }
  assert (∀ cs : list Z, column_cells (ColInt cs) !! i = Some h →
                         (∃ z, h = PInt z) ∨ (∃ b, h = PBool b)) as HintH.
  { intros cs. simpl. rewrite list_lookup_fmap.
    destruct (cs !! i); intros; simplify_eq/=. left. by eexists. }
  assert (∀ cs : list bool, column_cells (ColBool cs) !! i = Some h →
                            (∃ z, h = PInt z) ∨ (∃ b, h = PBool b)) as HboolH.
  { intros cs. simpl. rewrite list_lookup_fmap.
    destruct (cs !! i); intros; simplify_eq/=. right. by eexists. }
  assert (∀ cs : list Z, column_cells (ColInt cs) !! i = Some l →
                         (∃ z, l = PInt z) ∨ (∃ b, l = PBool b)) as HintL.
  { intros cs. simpl. rewrite list_lookup_fmap.
    destruct (cs !! i); intros; simplify_eq/=. left. by eexists. }
  assert (∀ cs : list bool, column_cells (ColBool cs) !! i = Some l →
                            (∃ z, l = PInt z) ∨ (∃ b, l = PBool b)) as HboolL.
  { intros cs. simpl. rewrite list_lookup_fmap.
    destruct (cs !! i); intros; simplify_eq/=. right. by eexists. }
  destruct hi as [a|a|a|a], lo as [b|b|b|b]; simpl in Hsub; simplify_eq;
    try (by eapply (Hfloat a b); eauto);
    try (by eapply (Hfloat a []); eauto);
    try (by eapply (Hfloat [] b); eauto);
    eapply Hint; eauto.
Qed.

(** ** The two confidence limits through the nutrition half *)

Lemma nutrition_drop_NoDup (docs : list doc) :
  NoDup (columns (nutrition_drop docs)).*1.
Proof.
  apply frame_drop_NoDup. rewrite frame_of_docs_names. apply union_keys_NoDup.
Qed.

Lemma nutrition_convert_names (docs : list doc) :
  (columns (nutrition_convert docs)).*1 = (columns (nutrition_drop docs)).*1.
Proof.
  unfold nutrition_convert, coerce_named. by rewrite !update_columns_names.
Qed.

Lemma nutrition_fill_nrows (docs : list doc) :
  nrows (nutrition_fill docs) = length docs.
Proof.
  unfold nutrition_fill, fill_missing, nutrition_convert, coerce_named.
  by rewrite !update_columns_nrows.
Qed.

Lemma nutrition_fill_get (docs : list doc) (k : string) :
  in_list k (numeric_cols ++ year_cols) = true →
  in_list k columns_to_drop = false →
  in_list k (union_keys docs) = true →
  frame_get k (columns (nutrition_fill docs))
  = Some (fill_column (coerced_column k docs)).
Proof.
  intros Hnum Hkeep Hkey.
  assert (frame_get k (columns (nutrition_drop docs))
          = Some (infer_column (raw_cells k docs))) as Hdrop.
  { unfold nutrition_drop. by rewrite frame_get_drop, Hkeep, frame_of_docs_get, Hkey. }
  pose proof (nutrition_convert_get docs k _ Hdrop) as Hconv.
  rewrite Hnum in Hconv.
  unfold nutrition_fill, fill_missing.
  rewrite update_columns_get
    by (rewrite nutrition_convert_names; apply nutrition_drop_NoDup).
  by rewrite frame_get_names, Hconv.
Qed.

Lemma add_year_range_get `{Runtime} (df : frame) (k : string) :
  k ≠ "year_range" →
  frame_get k (columns (add_year_range df)) = frame_get k (columns df).
Proof.
  intros Hk. unfold add_year_range.
  destruct (frame_get "yearstart" (columns df)); [|done].
  destruct (frame_get "yearend" (columns df)); [|done].
  simpl. by apply frame_get_set_ne.
Qed.

Lemma add_year_range_nrows `{Runtime} (df : frame) :
  nrows (add_year_range df) = nrows df.
Proof. unfold add_year_range. by repeat case_match. Qed.

Lemma nutrition_features_ok `{Runtime} (docs : list doc) (df : frame)
    (lo hi : column) :
  nutrition_features docs = inr df →
  frame_get "low_confidence_limit" (columns (nutrition_fill docs)) = Some lo →
  frame_get "high_confidence_limit" (columns (nutrition_fill docs)) = Some hi →
  nrows df = length docs
  ∧ frame_get "low_confidence_limit" (columns df) = Some lo
  ∧ frame_get "high_confidence_limit" (columns df) = Some hi
  ∧ ∃ w, column_sub hi lo = Some w
         ∧ frame_get "confidence_interval_width" (columns df) = Some w.
Proof.
  unfold nutrition_features, add_confidence_interval_width.
  intros Hf Hlo Hhi.
  rewrite !add_year_range_get, Hlo, Hhi in Hf by done.
  destruct (column_sub hi lo) as [w|] eqn:Hsub; [|done].
  injection Hf as <-. unfold assign. cbn [nrows columns].
  rewrite add_year_range_nrows, nutrition_fill_nrows.
  rewrite !frame_get_set_ne, !add_year_range_get by done.
  split_and!; try done. exists w. by rewrite frame_get_set_eq.
Qed.

Lemma record_field (now : Z) (df : frame) (i : nat) (k : string) :
  (i < nrows df)%nat → k ≠ "_processed_at" → k ≠ "_record_id" →
  ∃ rec, to_records (add_bookkeeping now df) !! i = Some rec
         ∧ dict_get k rec
           = (λ c, default PNaN (column_cells c !! i)) <$> frame_get k (columns df).
Proof.
  intros Hi Hk1 Hk2. exists (row_of (columns (add_bookkeeping now df)) i).
  split.
  - unfold to_records. rewrite list_lookup_fmap. simpl.
    by rewrite lookup_seq_lt.
  - rewrite dict_get_row_of. unfold add_bookkeeping, assign; simpl.
    by rewrite !frame_get_set_ne.
Qed.

Lemma key_in_union (docs : list doc) (i : nat) (d : doc) (k : string)
    (v : pyval) :
  docs !! i = Some d → dict_get k d = Some v →
  in_list k (union_keys docs) = true.
Proof.
  intros Hd Hv. apply in_list_elem, union_keys_elem. exists d.
  split; [by eapply list_elem_of_lookup_2|by eapply dict_get_keys].
Qed.

Lemma limit_cell (docs : list doc) (i : nat) (d : doc) (k : string) :
  docs !! i = Some d →
  ∃ x, column_cells (fill_column (coerced_column k docs)) !! i = Some x
       ∧ as_float x = imputed k docs d.
Proof.
  intros Hd.
  assert (raw_cells k docs !! i = Some (default PNaN (dict_get k d))) as Hraw
    by (unfold raw_cells; by rewrite list_lookup_fmap, Hd).
  destruct (coerced_cell _ _ _ Hraw) as (x0 & Hx0 & Hx0f).
  destruct (filled_cell (coerced_column k docs) i x0) as (x & Hx & Hxf);
    [apply to_numeric_typed|done|].
  exists x. split; [done|]. unfold imputed. by rewrite Hxf, Hx0f.
Qed.

(** The record of row [i] once the nutrition half has run: its two limits
    are the imputed values of the row, and its width is their difference. *)
Lemma limits_record `{Runtime} (docs : list doc) (df : frame) (now : Z)
    (i : nat) (d : doc) :
  nutrition_features docs = inr df →
  docs !! i = Some d →
  in_list "low_confidence_limit" (union_keys docs) = true →
  in_list "high_confidence_limit" (union_keys docs) = true →
  ∃ rec L H W,
    to_records (add_bookkeeping now df) !! i = Some rec
    ∧ dict_get "low_confidence_limit" rec = Some L
    ∧ dict_get "high_confidence_limit" rec = Some H
    ∧ dict_get "confidence_interval_width" rec = Some W
    ∧ as_float L = imputed "low_confidence_limit" docs d
    ∧ as_float H = imputed "high_confidence_limit" docs d
    ∧ as_float W = float_sub (as_float H) (as_float L).
Proof.
  intros Hf Hd Hlo Hhi.
  pose proof (nutrition_fill_get docs "low_confidence_limit" eq_refl eq_refl Hlo)
    as Hglo.
  pose proof (nutrition_fill_get docs "high_confidence_limit" eq_refl eq_refl Hhi)
    as Hghi.
  destruct (nutrition_features_ok docs df _ _ Hf Hglo Hghi)
    as (Hn & Hdlo & Hdhi & w & Hsub & Hdw).
  destruct (limit_cell docs i d "low_confidence_limit" Hd) as (L & HL & HLf).
  destruct (limit_cell docs i d "high_confidence_limit" Hd) as (H' & HH & HHf).
  destruct (column_sub_cell _ _ _ i _ _ Hsub HH HL) as (W & HW & HWf).
  assert (i < nrows df)%nat as Hi
    by (rewrite Hn; by eapply lookup_lt_Some).
  destruct (record_field now df i "low_confidence_limit" Hi) as (rec & Hrec & Hrlo);
    [done..|].
  destruct (record_field now df i "high_confidence_limit" Hi) as (rec2 & Hrec2 & Hrhi);
    [done..|].
  destruct (record_field now df i "confidence_interval_width" Hi)
    as (rec3 & Hrec3 & Hrw); [done..|].
  simplify_eq. exists rec, L, H', W.
  rewrite Hrlo, Hrhi, Hrw, Hdlo, Hdhi, Hdw. simpl.
  rewrite HL, HH, HW. done.
Qed.

(** ** C4: the width is the difference of the two limits *)


Example crossed_limits_record :
  to_records (add_bookkeeping 0 crossed_limits_frame)
  = [[("low_confidence_limit", PFloat (19 # 2));
      ("high_confidence_limit", PInt 7);
      ("confidence_interval_width", PFloat (-5 # 2));
      ("_processed_at", PDatetime 0);
      ("_record_id", PInt 1)]].
Proof. reflexivity. Qed.


(** ** C9: a missing limit is imputed before the width is derived *)


Example gappy_records :
  to_records (add_bookkeeping 0 gappy_frame)
  = [[("low_confidence_limit", PFloat (3 # 2));
      ("high_confidence_limit", PFloat 4);
      ("confidence_interval_width", PFloat (5 # 2));
      ("_processed_at", PDatetime 0); ("_record_id", PInt 1)];
     [("low_confidence_limit", PFloat 2);
      ("high_confidence_limit", PFloat 6);
      ("confidence_interval_width", PFloat 4);
      ("_processed_at", PDatetime 0); ("_record_id", PInt 2)];
     [("low_confidence_limit", PFloat (5 # 2));
      ("high_confidence_limit", PFloat 5);
      ("confidence_interval_width", PFloat (5 # 2));
      ("_processed_at", PDatetime 0); ("_record_id", PInt 3)]].
Proof. reflexivity. Qed.



(** ** C5: record ids of the cleaned collections *)

Lemma keeps_print (msg : string) : keeps_store (print msg).
Proof. apply keeps_emit. Qed.

Lemma keeps_report_missing (df : frame) : keeps_store (report_missing df).
Proof. apply keeps_print. Qed.

#[local] Hint Resolve keeps_print keeps_report_missing : keeps.

Lemma same_fields_record_id (ds ds' : list doc) :
  Forall2 same_fields ds ds' →
  dict_get "_record_id" <$> ds' = dict_get "_record_id" <$> ds.
Proof.
  induction 1 as [|d d' ds ds' Hd _ IH]; [done|].
  rewrite !fmap_cons, IH. f_equal. by apply Hd.
Qed.

Lemma stored_records (name : string) (now : Z) (df : frame) (w w' : world) :
  (delete_many name;; insert_many name (to_records (add_bookkeeping now df)))
    w = (inr (), w') →
  ∃ recs, store w' !! name = Some recs
          ∧ length recs = nrows df
          ∧ dict_get "_record_id" <$> recs
            = (λ i, Some (PInt (Z.of_nat i))) <$> seq 1 (length recs).
Proof.
  intros Hrun. run_step Hrun Hdel.
  apply delete_many_ok in Hdel as [Hempty _].
  apply insert_many_ok in Hrun as (_ & recs & Hrecs & Hsame & _).
  destruct (record_id_dense now df) as [Hlen Hids].
  exists recs. rewrite Hrecs, Hempty. split; [done|].
  assert (length recs = nrows df) as Hn
    by (by rewrite <- (Forall2_length _ _ _ Hsame)).
  split; [done|].
  by rewrite (same_fields_record_id _ _ Hsame), Hids, Hn.
Qed.

(** C5.  When a half of the cleaning script runs to its end,
    the cleaned collection it has just rewritten holds as many records as
    the frame has rows, and their [_record_id] fields, read in the order of
    the collection, are 1, 2, ..., N. *)
Theorem cleaned_record_ids_dense `{Runtime} (w w' : world) (df : frame) :
  (ev_half w = (inr df, w') →
   ∃ recs, store w' !! "ev_data_cleaned" = Some recs
           ∧ length recs = nrows df
           ∧ dict_get "_record_id" <$> recs
             = (λ i, Some (PInt (Z.of_nat i))) <$> seq 1 (length recs))
  ∧ (nutrition_half w = (inr df, w') →
     ∃ recs, store w' !! "nutrition_data_cleaned" = Some recs
             ∧ length recs = nrows df
             ∧ dict_get "_record_id" <$> recs
               = (λ i, Some (PInt (Z.of_nat i))) <$> seq 1 (length recs)).
Proof.
  split.
  - unfold ev_half. intros Hrun. do 3 quiet_step Hrun.
    run_step Hrun Hdel. run_step Hrun Hins. injection Hrun as <- <-.
    match type of Hins with
    | insert_many _ (to_records (add_bookkeeping ?now ?df0)) _ = (_, ?w1) =>
        match type of Hdel with
        | delete_many _ ?w0 = _ =>
            apply (stored_records "ev_data_cleaned" now df0 w0 w1)
        end
    end.
    unfold mbind, M_bind. rewrite Hdel. exact Hins.
  - unfold nutrition_half. intros Hrun. do 4 quiet_step Hrun.
    run_step Hrun Hdel. run_step Hrun Hins. injection Hrun as <- <-.
    match type of Hins with
    | insert_many _ (to_records (add_bookkeeping ?now ?df0)) _ = (_, ?w1) =>
        match type of Hdel with
        | delete_many _ ?w0 = _ =>
            apply (stored_records "nutrition_data_cleaned" now df0 w0 w1)
        end
    end.
    unfold mbind, M_bind. rewrite Hdel. exact Hins.
Qed.

Lemma cleaned_record_ids_dense_witness :
  ∃ recs,
    store (@ev_half decimal_runtime one_row_loaded).2 !! "ev_data_cleaned"
    = Some recs
    ∧ length recs = nrows one_row_cleaned
    ∧ dict_get "_record_id" <$> recs
      = (λ i, Some (PInt (Z.of_nat i))) <$> seq 1 (length recs).
Proof.
  apply (proj1 (@cleaned_record_ids_dense decimal_runtime one_row_loaded
                  (@ev_half decimal_runtime one_row_loaded).2
                  one_row_cleaned)).
  vm_compute. reflexivity.
Defined.

(** * Further properties of the four scripts *)

(** ** Ingestion: the column names of the EV feed *)

Lemma names_from_ok (i : nat) (cols names : list pyval) :
  names_from i cols = inr names →
  length names = length cols
  ∧ ∀ j col, cols !! j = Some col →
      ∃ d, col = PDict d
           ∧ names !! j
             = Some (default (PStr ("col_" ++ str_of_int (Z.of_nat (i + j))))
                             (dict_get "name" d)).
Proof.
  revert i names. induction cols as [|col cols IH]; intros i names; simpl.
  - intros [= <-]. split; [done|]. intros j c. by rewrite lookup_nil.
  - destruct col; simpl; try done.
    destruct (names_from (S i) cols) as [e|names'] eqn:E; [done|].
    intros [= <-]. apply IH in E as [Hlen Hnames]. split; [simpl; lia|].
    intros [|j] c; simpl.
    + intros [= <-]. eexists. split; [done|]. by rewrite Nat.add_0_r.
    + intros Hc. apply Hnames in Hc as (d' & -> & ->).
      exists d'. split; [done|]. do 5 f_equal. lia.
Qed.

(** The list of column names has one entry per column description of the
    feed, in order: the [name] of the description, or [col_<i>] with the
    position [i] of the description when it has none.  (A name need not be
    a string at this point.) *)
Theorem column_names_follow_metadata (cols names : list pyval) :
  names_from 0 cols = inr names →
  length names = length cols
  ∧ ∀ j col, cols !! j = Some col →
      ∃ d, col = PDict d
           ∧ names !! j
             = Some (default (PStr ("col_" ++ str_of_int (Z.of_nat j)))
                             (dict_get "name" d)).
Proof. apply names_from_ok. Qed.

Lemma column_names_follow_metadata_witness :
  length [PStr "VIN"; PStr "col_1"]
  = length [PDict [("name", PStr "VIN")]; PDict [("id", PInt 7)]]
  ∧ ∀ j col,
      [PDict [("name", PStr "VIN")]; PDict [("id", PInt 7)]] !! j = Some col →
      ∃ d, col = PDict d
           ∧ [PStr "VIN"; PStr "col_1"] !! j
             = Some (default (PStr ("col_" ++ str_of_int (Z.of_nat j)))
                             (dict_get "name" d)).
Proof.
  apply (column_names_follow_metadata
           [PDict [("name", PStr "VIN")]; PDict [("id", PInt 7)]]
           [PStr "VIN"; PStr "col_1"]).
  vm_compute. reflexivity.
Defined.

(** The comprehension fails exactly when one of the column descriptions is
    not a JSON object, with the [AttributeError] of the missing [get]. *)
Theorem column_names_need_objects (cols : list pyval) :
  (∃ names, names_from 0 cols = inr names)
  ↔ Forall (λ col, ∃ d, col = PDict d) cols.
Proof.
  generalize 0%nat. induction cols as [|col cols IH]; intros i; simpl.
  - split; [by constructor|]. by exists [].
  - split.
    + intros [names Hn].
      destruct col; simpl in Hn; try done.
      destruct (names_from (S i) cols) as [e|names'] eqn:E; [done|].
      constructor; [by eexists|]. apply (IH (S i)). by exists names'.
    + intros [[d ->] Hall]%Forall_cons. simpl.
      apply (IH (S i)) in Hall as [names' ->]. by eexists.
Qed.

(** ** Ingestion: a download that fails *)

Lemma failed_download (url dataset : string) (k : pyval → M unit) (w : world)
    (e : error) :
  http w url = inl e →
  ∃ w', try_except (http_get_json url ≫= k) (log_failure dataset) w
        = (inr (), w')
        ∧ store w' = store w
        ∧ faults w' = faults w
        ∧ trace w'
          = (trace w ++ HttpGet url ::
               match e with
               | RequestException msg =>
                   [Print ("Error downloading " ++ dataset ++ " data: " ++ msg)]
               | OtherException _ msg =>
                   [Print ("Error processing " ++ dataset ++ " data: " ++ msg);
                    Print "Traceback (most recent call last)"]
               end)%list.
Proof.
  intros Hhttp.
  unfold try_except, http_get_json, http_result, mbind, M_bind, emit; simpl.
  rewrite Hhttp. simpl.
  destruct e as [msg|cls msg]; simpl.
  - eexists. split; [reflexivity|]. simpl. by rewrite <- app_assoc.
  - unfold log_failure, print, emit, mbind, M_bind; simpl.
    eexists. split; [reflexivity|]. simpl. by rewrite <- !app_assoc.
Qed.

(** When the download of a dataset fails (the request, its status check or
    the parsing of the answer raises), the block of that dataset sends no
    command to the store: every collection is as it was, the old raw
    documents included.  The failure is reported as a download error for a
    [RequestException] and as a processing error, followed by a traceback,
    for any other exception. *)
Theorem failed_download_leaves_store (w : world) (e : error) :
  (http w EV_API_URL = inl e →
   ∃ w', try_except ev_block (log_failure "EV") w = (inr (), w')
         ∧ store w' = store w
         ∧ faults w' = faults w
         ∧ trace w'
           = (trace w ++ HttpGet EV_API_URL ::
                match e with
                | RequestException msg =>
                    [Print ("Error downloading EV data: " ++ msg)]
                | OtherException _ msg =>
                    [Print ("Error processing EV data: " ++ msg);
                     Print "Traceback (most recent call last)"]
                end)%list)
  ∧ (http w NUTRITION_API_URL = inl e →
     ∃ w', try_except nutrition_block (log_failure "Nutrition") w = (inr (), w')
           ∧ store w' = store w
           ∧ faults w' = faults w
           ∧ trace w'
             = (trace w ++ HttpGet NUTRITION_API_URL ::
                  match e with
                  | RequestException msg =>
                      [Print ("Error downloading Nutrition data: " ++ msg)]
                  | OtherException _ msg =>
                      [Print ("Error processing Nutrition data: " ++ msg);
                       Print "Traceback (most recent call last)"]
                  end)%list).
Proof.
  split; intros Hhttp.
  - apply (failed_download EV_API_URL "EV" ev_store w e Hhttp).
  - apply (failed_download NUTRITION_API_URL "Nutrition" nutrition_store w e Hhttp).
Qed.

Lemma failed_download_leaves_store_witness :
  ∃ w', try_except ev_block (log_failure "EV") ev_down_world = (inr (), w')
        ∧ store w' = store ev_down_world
        ∧ faults w' = faults ev_down_world
        ∧ trace w'
          = (trace ev_down_world ++ HttpGet EV_API_URL ::
               [Print ("Error downloading EV data: " ++ "Read timed out.")])%list.
Proof.
  apply (proj1 (failed_download_leaves_store ev_down_world
                  (RequestException "Read timed out."))).
  vm_compute. reflexivity.
Defined.

(** ** Ingestion: what the EV block stores *)

Lemma mapM_Forall2 {A B} (f : A → M B) (R : A → B → Prop) (l : list A)
    (bs : list B) (w w' : world) :
  (∀ a b w0 w1, f a w0 = (inr b, w1) → R a b) →
  mapM f l w = (inr bs, w') → Forall2 R l bs.
Proof.
  intros Hf. revert bs w. induction l as [|a l IH]; intros bs w; simpl.
  - intros [= <- <-]. constructor.
  - intros (b & w1 & Hb & Hrest)%bind_ok.
    apply bind_ok in Hrest as (bs' & w2 & Hbs & [= <- <-]).
    constructor; [by eapply Hf|by eapply IH].
Qed.

Lemma py_sequence_iter (v : pyval) (l : list pyval) :
  py_sequence v = inr l → py_iter v = inr l.
Proof. by destruct v. Qed.

Lemma ev_document_ok (names : list pyval) (row : pyval) (d : doc)
    (w w' : world) :
  ev_document names row w = (inr d, w') →
  ∃ values, py_iter row = inr values
            ∧ row_document names (clock w) values = inr d.
Proof.
  unfold ev_document. intros Hrun.
  apply bind_ok in Hrun as (now & w1 & [= <- <-] & Hrun).
  apply bind_ok in Hrun as (values & w2 & [Hv ->]%lift_result_ok & Hrun).
  apply lift_result_ok in Hrun as [Hd _]. by exists values.
Qed.

Lemma dict_get_elem (k : string) (d : doc) (v : pyval) :
  dict_get k d = Some v → (k, v) ∈ d.
Proof.
  induction d as [|[k' v'] d IH]; simpl; [done|].
  destruct (String.eqb k k') eqn:E.
  - apply String.eqb_eq in E as ->. intros [= ->]. apply list_elem_of_here.
  - intros Hg. apply list_elem_of_further. by apply IH.
Qed.

(** The fields of the document of a row, read by key. *)
Lemma row_document_fields (names : list pyval) (now : Z) (row : list pyval)
    (d : doc) :
  row_document names now row = inr d →
  (∀ k v, dict_get k d = Some v →
     dict_get k (ev_base_document now) = Some v
     ∨ ∃ idx, names !! idx = Some (PStr k) ∧ row !! idx = Some v)
  ∧ (NoDup names →
     ∀ idx k v, names !! idx = Some (PStr k) → row !! idx = Some v →
                dict_get k d = Some v).
Proof.
  revert d. induction row as [|x row IH] using rev_ind; intros d Hd.
  - unfold row_document in Hd; simpl in Hd. simplify_eq. split.
    + intros k v Hg. by left.
    + intros _ idx k v _ Hrow. done.
  - rewrite row_document_snoc in Hd.
    apply set_field_ok in Hd as (d0 & Hd0 & Hcase).
    destruct (IH d0 Hd0) as [IHonly IHkept].
    destruct Hcase as [[Hge ->]|(Hlt & k0 & Hk0 & ->)]; split.
    + intros k v Hg. destruct (IHonly k v Hg) as [?|(idx & ? & Hr)];
        [by left|]. right. exists idx.
      rewrite lookup_app_l by (by eapply lookup_lt_Some). done.
    + intros Hnd idx k v Hn Hr.
      assert (idx < length names)%nat by (by eapply lookup_lt_Some).
      rewrite lookup_app_l in Hr by lia. by eapply IHkept.
    + intros k v Hg. destruct (decide (k = k0)) as [->|Hne].
      * rewrite dict_get_set_eq in Hg. simplify_eq.
        right. exists (length row). by rewrite list_lookup_middle.
      * rewrite dict_get_set_ne in Hg by done.
        destruct (IHonly k v Hg) as [?|(idx & ? & Hr)]; [by left|].
        right. exists idx.
        rewrite lookup_app_l by (by eapply lookup_lt_Some). done.
    + intros Hnd idx k v Hn Hr.
      destruct (decide (idx = length row)) as [->|Hne].
      * rewrite list_lookup_middle in Hr by done. simplify_eq.
        apply dict_get_set_eq.
      * assert (idx < length row)%nat.
        { apply lookup_lt_Some in Hr. rewrite length_app in Hr.
          simpl in Hr. lia. }
        rewrite lookup_app_l in Hr by lia.
        rewrite dict_get_set_ne; [by eapply IHkept|].
        intros ->. apply Hne.
        by eapply (NoDup_lookup names idx (length row) (PStr k0)).
Qed.

(** A successful run of the EV block, statement by statement. *)
Lemma ev_store_run (j : pyval) (w w' : world) :
  ev_store j w = (inr (), w') →
  ∃ meta view columns_meta cols names data total now all_rows rows docs
    meta' stored,
    py_get j "meta" (PDict []) = inr meta
    ∧ py_get meta "view" (PDict []) = inr view
    ∧ py_get view "columns" (PList []) = inr columns_meta
    ∧ py_iter columns_meta = inr cols
    ∧ names_from 0 cols = inr names
    ∧ py_get j "data" (PList []) = inr data
    ∧ py_len data = inr total
    ∧ py_iter data = inr all_rows
    ∧ length all_rows = total
    ∧ (if (SAMPLE_SIZE <? total)%nat
       then length rows = SAMPLE_SIZE ∧ rows ⊆+ all_rows
       else rows = all_rows)
    ∧ Forall2 (λ row d, ∃ t values, py_iter row = inr values
                                    ∧ row_document names t values = inr d)
              rows docs
    ∧ same_fields (ev_metadata_doc now names columns_meta total) meta'
    ∧ Forall2 same_fields docs stored
    ∧ stored ≠ []
    ∧ store w' !! EV_RAW_COLLECTION = Some (meta' :: stored)
    ∧ ∀ other, other ≠ EV_RAW_COLLECTION →
               store w' !! other = store w !! other.
Proof.
  unfold ev_store. intros Hrun.
  apply bind_ok in Hrun as ([] & wdel & Hdel & Hrun).
  apply delete_many_ok in Hdel as [Hempty Hdel].
  apply bind_ok in Hrun as (meta & ? & [Hmeta ->]%lift_result_ok & Hrun).
  apply bind_ok in Hrun as (view & ? & [Hview ->]%lift_result_ok & Hrun).
  apply bind_ok in Hrun as (columns_meta & ? & [Hcm ->]%lift_result_ok & Hrun).
  apply bind_ok in Hrun as (cols & ? & [Hcols ->]%lift_result_ok & Hrun).
  apply bind_ok in Hrun as (names & ? & [Hnames ->]%lift_result_ok & Hrun).
  apply bind_ok in Hrun as (data & ? & [Hdata ->]%lift_result_ok & Hrun).
  apply bind_ok in Hrun as (total & ? & [Htotal ->]%lift_result_ok & Hrun).
  apply bind_ok in Hrun as (now & wn & Hnow & Hrun).
  assert (store wn = store wdel) as Hwn by (by injection Hnow as <- <-).
  clear Hnow.
  apply bind_ok in Hrun as ([] & wm & Hins & Hrun).
  apply insert_one_ok in Hins as (meta' & Hstore & Hsame & Hothers).
  apply bind_ok in Hrun as (rows & ws & Hsampled & Hrun).
  apply bind_ok in Hrun as (docs & wd & Hdocs & Hrun).
  apply insert_many_ok in Hrun as (Hne & stored & Hrows & Hall & Hothers').
  assert (Forall2 (λ row d, ∃ t values, py_iter row = inr values
                      ∧ row_document names t values = inr d) rows docs)
    as Hdocs2.
  { eapply mapM_Forall2; [|exact Hdocs].
    intros a b w0 w1 (values & ? & ?)%ev_document_ok. by eexists _, values. }
  assert (store wd = store ws) as Hwd.
  { assert (keeps_store (mapM (ev_document names) rows)) as K by keeps.
    by apply K in Hdocs. }
  assert (store ws = store wm) as Hws.
  { match type of Hsampled with ?m _ = _ =>
      assert (keeps_store m) as K by keeps end.
    by apply K in Hsampled. }
  assert (∃ all_rows, py_iter data = inr all_rows ∧ length all_rows = total
            ∧ if (SAMPLE_SIZE <? total)%nat
              then length rows = SAMPLE_SIZE ∧ rows ⊆+ all_rows
              else rows = all_rows) as (all_rows & Hiter & Hlen & Hsel).
  { destruct (SAMPLE_SIZE <? total)%nat.
    - apply bind_ok in Hsampled
        as (population & w1 & [Hp ->]%lift_result_ok & Hs).
      apply random_sample_ok in Hs as [? ?].
      apply py_sequence_iter in Hp.
      exists population. split_and!; [done|by eapply py_iter_length|done|done].
    - apply lift_result_ok in Hsampled as [Hl _].
      exists rows. split_and!; [done|by eapply py_iter_length|done]. }
  exists meta, view, columns_meta, cols, names, data, total, now, all_rows,
    rows, docs, meta', stored.
  split_and!; try done.
  - intros ->. apply Forall2_nil_inv_r in Hall. done.
  - rewrite Hrows, Hwd, Hws, Hstore, Hwn, Hempty. done.
  - intros other Hother.
    rewrite Hothers', Hwd, Hws, Hothers, Hwn, Hdel by done. done.
Qed.

Lemma Forall2_compose {A B C} (R : A → B → Prop) (S : B → C → Prop)
    (T : A → C → Prop) (l1 : list A) (l2 : list B) (l3 : list C) :
  (∀ a b c, R a b → S b c → T a c) →
  Forall2 R l1 l2 → Forall2 S l2 l3 → Forall2 T l1 l3.
Proof.
  intros Hstep H12. revert l3.
  induction H12 as [|a b l1 l2 Hab _ IH]; intros l3 H23.
  - apply Forall2_nil_inv_l in H23 as ->. constructor.
  - apply Forall2_cons_inv_l in H23 as (c & l3' & Hbc & H23 & ->).
    constructor; [by eapply Hstep|by apply IH].
Qed.

(** Whenever the EV block runs to its end, the raw collection holds the
    metadata document followed by one document per selected row, in the
    order of the selection.  The selection is the whole [data] array when
    it has at most [SAMPLE_SIZE] rows, and [SAMPLE_SIZE] rows of it, none
    taken twice, otherwise.  The metadata document lists the column names
    under [columns]; a stored field other than [_id] and the three stamps
    is the value found in the row at a position that carries the field's
    name, and, when the names are distinct, each named position of the row
    is stored under its name. *)
Theorem ev_rows_stored_under_column_names (j : pyval) (w w' : world) :
  ev_store j w = (inr (), w') →
  ∃ meta stored names data all_rows rows,
    store w' !! EV_RAW_COLLECTION = Some (meta :: stored)
    ∧ dict_get "columns" meta = Some (PList names)
    ∧ py_get j "data" (PList []) = inr data
    ∧ py_iter data = inr all_rows
    ∧ rows ⊆+ all_rows
    ∧ length rows = (length all_rows `min` SAMPLE_SIZE)%nat
    ∧ ((length all_rows ≤ SAMPLE_SIZE)%nat → rows = all_rows)
    ∧ Forall2
        (λ row d,
           ∃ values,
             py_iter row = inr values
             ∧ (∀ k v, k ≠ "_id" → dict_get k d = Some v →
                  k ∈ ["_imported_at"; "_dataset_name"; "_source"]
                  ∨ ∃ idx, names !! idx = Some (PStr k)
                           ∧ values !! idx = Some v)
             ∧ (NoDup names →
                ∀ idx k v, k ≠ "_id" → names !! idx = Some (PStr k) →
                           values !! idx = Some v → dict_get k d = Some v))
        rows stored.
Proof.
  intros (meta & view & columns_meta & cols & names & data & total & now
          & all_rows & rows & docs & meta' & stored & _ & _ & _ & _ & _
          & Hdata & _ & Hiter & Hlen & Hsel & Hdocs & Hsame & Hall & _
          & Hstore & _)%ev_store_run.
  exists meta', stored, names, data, all_rows, rows.
  split_and!; try done.
  - by rewrite Hsame.
  - destruct (SAMPLE_SIZE <? total)%nat; [by destruct Hsel|by subst].
  - destruct (SAMPLE_SIZE <? total)%nat eqn:E.
    + apply Nat.ltb_lt in E. lia.
    + apply Nat.ltb_ge in E. subst. lia.
  - intros Hle. destruct (SAMPLE_SIZE <? total)%nat eqn:E; [|done].
    apply Nat.ltb_lt in E. lia.
  - eapply Forall2_compose; [|exact Hdocs|exact Hall].
    intros row d d' (t & values & Hvalues & Hd) Hdd'. simpl.
    apply row_document_fields in Hd as [Honly Hkept].
    exists values. split_and!; [done| |].
    + intros k v Hk Hg. rewrite Hdd' in Hg by done.
      destruct (Honly k v Hg) as [Hbase|?]; [left|by right].
      apply dict_get_elem, (list_elem_of_fmap_2 fst) in Hbase. exact Hbase.
    + intros Hnd idx k v Hk Hn Hv. rewrite Hdd' by done. by eapply Hkept.
Qed.

Lemma ev_rows_stored_under_column_names_witness :
  ∃ meta stored names data all_rows rows,
    store (ev_store one_row_payload one_row_world).2 !! EV_RAW_COLLECTION
    = Some (meta :: stored)
    ∧ dict_get "columns" meta = Some (PList names)
    ∧ py_get one_row_payload "data" (PList []) = inr data
    ∧ py_iter data = inr all_rows
    ∧ rows ⊆+ all_rows
    ∧ length rows = (length all_rows `min` SAMPLE_SIZE)%nat
    ∧ ((length all_rows ≤ SAMPLE_SIZE)%nat → rows = all_rows)
    ∧ Forall2
        (λ row d,
           ∃ values,
             py_iter row = inr values
             ∧ (∀ k v, k ≠ "_id" → dict_get k d = Some v →
                  k ∈ ["_imported_at"; "_dataset_name"; "_source"]
                  ∨ ∃ idx, names !! idx = Some (PStr k)
                           ∧ values !! idx = Some v)
             ∧ (NoDup names →
                ∀ idx k v, k ≠ "_id" → names !! idx = Some (PStr k) →
                           values !! idx = Some v → dict_get k d = Some v))
        rows stored.
Proof.
  apply (ev_rows_stored_under_column_names one_row_payload one_row_world
           (ev_store one_row_payload one_row_world).2).
  vm_compute. reflexivity.
Defined.

(** The metadata document of the EV block records the length of the
    [data] array as [total_available_records], and the constant
    [SAMPLE_SIZE] as [sampled_records]: also when the array is shorter and
    fewer rows are stored. *)
Theorem ev_metadata_counts (j : pyval) (w w' : world) :
  ev_store j w = (inr (), w') →
  ∃ meta stored data total,
    store w' !! EV_RAW_COLLECTION = Some (meta :: stored)
    ∧ py_get j "data" (PList []) = inr data
    ∧ py_len data = inr total
    ∧ dict_get "total_available_records" meta = Some (PInt (Z.of_nat total))
    ∧ dict_get "sampled_records" meta = Some (PInt 2500)
    ∧ length stored = (total `min` SAMPLE_SIZE)%nat.
Proof.
  intros (meta & view & columns_meta & cols & names & data & total & now
          & all_rows & rows & docs & meta' & stored & _ & _ & _ & _ & _
          & Hdata & Htotal & Hiter & Hlen & Hsel & Hdocs & Hsame & Hall & _
          & Hstore & _)%ev_store_run.
  exists meta', stored, data, total. split_and!; try done.
  - by rewrite Hsame.
  - by rewrite Hsame.
  - rewrite <- (Forall2_length _ _ _ Hall), <- (Forall2_length _ _ _ Hdocs).
    destruct (SAMPLE_SIZE <? total)%nat eqn:E.
    + apply Nat.ltb_lt in E. destruct Hsel as [-> _]. lia.
    + apply Nat.ltb_ge in E. subst. lia.
Qed.

Lemma ev_metadata_counts_witness :
  ∃ meta stored data total,
    store (ev_store one_row_payload one_row_world).2 !! EV_RAW_COLLECTION
    = Some (meta :: stored)
    ∧ py_get one_row_payload "data" (PList []) = inr data
    ∧ py_len data = inr total
    ∧ dict_get "total_available_records" meta = Some (PInt (Z.of_nat total))
    ∧ dict_get "sampled_records" meta = Some (PInt 2500)
    ∧ length stored = (total `min` SAMPLE_SIZE)%nat.
Proof.
  apply (ev_metadata_counts one_row_payload one_row_world
           (ev_store one_row_payload one_row_world).2).
  vm_compute. reflexivity.
Defined.

(** ** Ingestion: what the nutrition block stores *)

Lemma nutrition_document_ok (record : pyval) (d : doc) (w w' : world) :
  nutrition_document record w = (inr d, w') →
  ∃ fields,
    record = PDict fields
    ∧ d = dict_set "_source"
            (PStr "CDC - Behavioral Risk Factor Surveillance System")
            (dict_set "_dataset_name"
               (PStr "Nutrition, Physical Activity, and Obesity - BRFSS")
               (dict_set "_imported_at" (PDatetime (clock w)) fields)).
Proof.
  unfold nutrition_document. destruct record; try done.
  intros (t & w1 & [= <- <-] & [= <- <-])%bind_ok. by eexists.
Qed.

(** A successful run of the nutrition block, statement by statement. *)
Lemma nutrition_store_run (j : pyval) (w w' : world) :
  nutrition_store j w = (inr (), w') →
  ∃ fetched records docs stored now meta',
    py_len j = inr fetched
    ∧ py_iter j = inr records
    ∧ length records = fetched
    ∧ Forall2 (λ record d, ∃ t fields,
                 record = PDict fields
                 ∧ d = dict_set "_source"
                         (PStr "CDC - Behavioral Risk Factor Surveillance System")
                         (dict_set "_dataset_name"
                            (PStr "Nutrition, Physical Activity, and Obesity - BRFSS")
                            (dict_set "_imported_at" (PDatetime t) fields)))
              records docs
    ∧ Forall2 same_fields docs stored
    ∧ stored ≠ []
    ∧ same_fields (nutrition_metadata_doc now fetched) meta'
    ∧ store w' !! NUTRITION_RAW_COLLECTION = Some (stored ++ [meta'])%list
    ∧ ∀ other, other ≠ NUTRITION_RAW_COLLECTION →
               store w' !! other = store w !! other.
Proof.
  unfold nutrition_store. intros Hrun.
  apply bind_ok in Hrun as (fetched & ? & [Hlen ->]%lift_result_ok & Hrun).
  apply bind_ok in Hrun as ([] & wdel & Hdel & Hrun).
  apply delete_many_ok in Hdel as [Hempty Hdel].
  apply bind_ok in Hrun as (records & ? & [Hiter ->]%lift_result_ok & Hrun).
  apply bind_ok in Hrun as (docs & wd & Hdocs & Hrun).
  apply bind_ok in Hrun as ([] & wi & Hins & Hrun).
  apply insert_many_ok in Hins as (Hne & stored & Hrows & Hall & Hothers).
  apply bind_ok in Hrun as (now & wn & Hnow & Hrun).
  assert (store wn = store wi) as Hwn by (by injection Hnow as <- <-).
  clear Hnow.
  apply insert_one_ok in Hrun as (meta' & Hstore & Hsame & Hothers').
  assert (store wd = store wdel) as Hwd.
  { assert (keeps_store (mapM nutrition_document records)) as K by keeps.
    by apply K in Hdocs. }
  exists fetched, records, docs, stored, now, meta'.
  split_and!; try done.
  - by eapply py_iter_length.
  - eapply mapM_Forall2; [|exact Hdocs].
    intros a b w0 w1 (fields & ? & ?)%nutrition_document_ok.
    by eexists _, fields.
  - intros ->. by apply Forall2_nil_inv_r in Hall.
  - rewrite Hstore, Hwn, Hrows, Hwd, Hempty. done.
  - intros other Hother.
    rewrite Hothers', Hwn, Hothers, Hwd, Hdel by done. done.
Qed.

(** Whenever the nutrition block runs to its end, the raw collection holds
    one document per fetched record, in the order of the answer, followed
    by the metadata document.  A stored document has the fields of its
    record and the three stamps (which replace fields of the same name);
    the metadata document records the number of stored documents as
    [sampled_records]. *)
Theorem nutrition_records_stored_in_order (j : pyval) (w w' : world) :
  nutrition_store j w = (inr (), w') →
  ∃ records stored meta,
    py_iter j = inr records
    ∧ store w' !! NUTRITION_RAW_COLLECTION = Some (stored ++ [meta])%list
    ∧ dict_get "sampled_records" meta
      = Some (PInt (Z.of_nat (length stored)))
    ∧ Forall2
        (λ record d,
           ∃ fields,
             record = PDict fields
             ∧ (∀ k, k ∉ ["_id"; "_imported_at"; "_dataset_name"; "_source"] →
                     dict_get k d = dict_get k fields)
             ∧ (∃ t, dict_get "_imported_at" d = Some (PDatetime t))
             ∧ dict_get "_dataset_name" d
               = Some (PStr "Nutrition, Physical Activity, and Obesity - BRFSS")
             ∧ dict_get "_source" d
               = Some (PStr "CDC - Behavioral Risk Factor Surveillance System"))
        records stored.
Proof.
  intros (fetched & records & docs & stored & now & meta' & Hlen & Hiter
          & Hn & Hdocs & Hall & _ & Hsame & Hstore & _)%nutrition_store_run.
  exists records, stored, meta'. split_and!; try done.
  - rewrite Hsame by done.
    rewrite <- (Forall2_length _ _ _ Hall), <- (Forall2_length _ _ _ Hdocs), Hn.
    reflexivity.
  - eapply Forall2_compose; [|exact Hdocs|exact Hall].
    intros record d d' (t & fields & -> & ->) Hdd'. simpl.
    exists fields. split_and!; [done| | | |].
    + intros k Hk. rewrite Hdd' by set_solver.
      rewrite !dict_get_set_ne by set_solver. done.
    + exists t. rewrite Hdd' by done.
      rewrite !dict_get_set_ne by done. apply dict_get_set_eq.
    + rewrite Hdd' by done.
      rewrite dict_get_set_ne by done. apply dict_get_set_eq.
    + rewrite Hdd' by done. apply dict_get_set_eq.
Qed.

Lemma nutrition_records_stored_in_order_witness :
  ∃ records stored meta,
    py_iter (PList [PDict [("yearstart", PStr "2011")]]) = inr records
    ∧ store (nutrition_store (PList [PDict [("yearstart", PStr "2011")]])
               one_row_world).2 !! NUTRITION_RAW_COLLECTION
      = Some (stored ++ [meta])%list
    ∧ dict_get "sampled_records" meta
      = Some (PInt (Z.of_nat (length stored)))
    ∧ Forall2
        (λ record d,
           ∃ fields,
             record = PDict fields
             ∧ (∀ k, k ∉ ["_id"; "_imported_at"; "_dataset_name"; "_source"] →
                     dict_get k d = dict_get k fields)
             ∧ (∃ t, dict_get "_imported_at" d = Some (PDatetime t))
             ∧ dict_get "_dataset_name" d
               = Some (PStr "Nutrition, Physical Activity, and Obesity - BRFSS")
             ∧ dict_get "_source" d
               = Some (PStr "CDC - Behavioral Risk Factor Surveillance System"))
        records stored.
Proof.
  apply (nutrition_records_stored_in_order
           (PList [PDict [("yearstart", PStr "2011")]]) one_row_world
           (nutrition_store (PList [PDict [("yearstart", PStr "2011")]])
              one_row_world).2).
  vm_compute. reflexivity.
Defined.

(** ** Which collections a script writes *)

Lemma bind_inv {A B} (m : M A) (k : A → M B) (w w' : world) (r : exn + B) :
  (m ≫= k) w = (r, w') →
  (∃ e, r = inl e ∧ m w = (inl e, w'))
  ∨ ∃ a w1, m w = (inr a, w1) ∧ k a w1 = (r, w').
Proof.
  unfold mbind, M_bind. destruct (m w) as [[e|a] w1].
  - intros [= <- <-]. left. by exists e.
  - intros Hk. right. by exists a, w1.
Qed.

Lemma writes_only_keeps {A} (names : list string) (m : M A) :
  keeps_store m → writes_only names m.
Proof. intros Hm w r w' Hrun other _. by rewrite (Hm _ _ _ Hrun). Qed.

Lemma writes_only_bind {A B} (names : list string) (m : M A) (k : A → M B) :
  writes_only names m → (∀ a, writes_only names (k a)) →
  writes_only names (m ≫= k).
Proof.
  intros Hm Hk w r w' Hrun other Hother.
  apply bind_inv in Hrun as [(e & -> & Hrun)|(a & w1 & Hrun & Hrest)].
  - by eapply Hm.
  - rewrite (Hk a _ _ _ Hrest other Hother). by eapply Hm.
Qed.

Lemma writes_only_try {A} (names : list string) (m : M A)
    (handler : error → M A) :
  writes_only names m → (∀ e, writes_only names (handler e)) →
  writes_only names (try_except m handler).
Proof.
  intros Hm Hh w r w' Hrun other Hother. unfold try_except in Hrun.
  destruct (m w) as [[[e|c]|a] w1] eqn:Em.
  - rewrite (Hh e _ _ _ Hrun other Hother). by eapply Hm.
  - injection Hrun as <- <-. by eapply Hm.
  - injection Hrun as <- <-. by eapply Hm.
Qed.

Lemma writes_only_forM {A} (names : list string) (l : list A)
    (f : A → M unit) :
  (∀ a, writes_only names (f a)) → writes_only names (forM_ l f).
Proof.
  intros Hf. induction l as [|a l IH]; simpl.
  - apply writes_only_keeps, keeps_ret.
  - apply writes_only_bind; [done|]. by intros [].
Qed.

Lemma writes_only_delete_many (names : list string) (name : string) :
  name ∈ names → writes_only names (delete_many name).
Proof.
  intros Hin. unfold delete_many.
  apply writes_only_bind; [apply writes_only_keeps, keeps_store_command|].
  intros []. intros w r w' Hrun other Hother. revert Hrun.
  unfold mbind, M_bind, get_store, set_store; simpl.
  destruct (store w !! name); intros [= <- <-]; simpl; [|done].
  apply lookup_insert_ne. intros ->. done.
Qed.

Lemma writes_only_append_docs (names : list string) (name : string)
    (ds : list doc) :
  name ∈ names → writes_only names (append_docs name ds).
Proof.
  intros Hin w r w' Hrun other Hother. revert Hrun.
  unfold append_docs, mbind, M_bind, get_store, set_store; simpl.
  intros [= <- <-]; simpl. apply lookup_insert_ne. intros ->. done.
Qed.

Lemma writes_only_insert_one (names : list string) (name : string) (d : doc) :
  name ∈ names → writes_only names (insert_one name d).
Proof.
  intros Hin. unfold insert_one.
  apply writes_only_bind; [apply writes_only_keeps, keeps_store_command|].
  intros []. apply writes_only_bind; [apply writes_only_keeps, keeps_with_oid|].
  intros d'. by apply writes_only_append_docs.
Qed.

Lemma writes_only_insert_many (names : list string) (name : string)
    (ds : list doc) :
  name ∈ names → writes_only names (insert_many name ds).
Proof.
  intros Hin. unfold insert_many. destruct ds as [|d ds].
  - apply writes_only_keeps, keeps_raise.
  - apply writes_only_bind; [apply writes_only_keeps, keeps_store_command|].
    intros []. apply writes_only_bind.
    + apply writes_only_keeps, keeps_mapM. intros ?. apply keeps_with_oid.
    + intros ds'. by apply writes_only_append_docs.
Qed.

Lemma keeps_try {A} (m : M A) (handler : error → M A) :
  keeps_store m → (∀ e, keeps_store (handler e)) →
  keeps_store (try_except m handler).
Proof.
  intros Hm Hh w r w' Hrun. unfold try_except in Hrun.
  destruct (m w) as [[[e|c]|a] w1] eqn:Em.
  - rewrite (Hh e _ _ _ Hrun). by eapply Hm.
  - injection Hrun as <- <-. by eapply Hm.
  - injection Hrun as <- <-. by eapply Hm.
Qed.

Lemma keeps_forM {A} (l : list A) (f : A → M unit) :
  (∀ a, keeps_store (f a)) → keeps_store (forM_ l f).
Proof.
  intros Hf. induction l as [|a l IH]; simpl; [apply keeps_ret|].
  apply keeps_bind; [done|]. by intros [].
Qed.

Lemma keeps_connectivity_check : keeps_store connectivity_check.
Proof.
  unfold connectivity_check, ping, py_exit. apply keeps_try.
  - apply keeps_bind; [apply keeps_store_command|]. intros []. apply keeps_print.
  - intros e. apply keeps_bind; [apply keeps_print|]. intros [].
    apply keeps_raise.
Qed.

Lemma keeps_log_failure (dataset : string) (e : error) :
  keeps_store (log_failure dataset e).
Proof.
  destruct e; simpl; [apply keeps_print|].
  apply keeps_bind; [apply keeps_print|]. intros []. apply keeps_print.
Qed.

Lemma keeps_list_collection_names : keeps_store list_collection_names.
Proof. unfold list_collection_names. keeps. Qed.

Lemma keeps_ingestion_summary : keeps_store ingestion_summary.
Proof.
  unfold ingestion_summary.
  apply keeps_bind; [apply keeps_list_collection_names|]. intros cs.
  apply keeps_forM. intros col. keeps.
Qed.

Lemma keeps_cleaning_summary : keeps_store cleaning_summary.
Proof.
  unfold cleaning_summary.
  apply keeps_bind; [apply keeps_list_collection_names|]. intros cs.
  apply keeps_forM. intros col. keeps.
Qed.

Ltac writes_only :=
  repeat first
    [ apply writes_only_delete_many; set_solver
    | apply writes_only_insert_one; set_solver
    | apply writes_only_insert_many; set_solver
    | apply writes_only_keeps; solve [keeps]
    | apply writes_only_bind; [|intros ?]
    | case_match ].

Lemma writes_only_ev_store (names : list string) (j : pyval) :
  EV_RAW_COLLECTION ∈ names → writes_only names (ev_store j).
Proof. intros Hin. unfold ev_store. writes_only. Qed.

Lemma writes_only_nutrition_store (names : list string) (j : pyval) :
  NUTRITION_RAW_COLLECTION ∈ names → writes_only names (nutrition_store j).
Proof. intros Hin. unfold nutrition_store. writes_only. Qed.

Lemma writes_only_ev_half `{Runtime} (names : list string) :
  "ev_data_cleaned" ∈ names → writes_only names ev_half.
Proof. intros Hin. unfold ev_half. writes_only. Qed.

Lemma writes_only_nutrition_half `{Runtime} (names : list string) :
  "nutrition_data_cleaned" ∈ names → writes_only names nutrition_half.
Proof. intros Hin. unfold nutrition_half. writes_only. Qed.

(** Whatever happens during a run (failures of the network, of the store
    or of the processing included), the ingestion script changes no
    collection other than the two raw ones, and the cleaning script none
    other than the two cleaned ones: cleaning never touches the raw
    documents it reads. *)
Theorem scripts_write_only_their_collections `{Runtime} (w w' : world)
    (r : exn + ()) (other : string) :
  (ingestion w = (r, w') →
   other ∉ [EV_RAW_COLLECTION; NUTRITION_RAW_COLLECTION] →
   store w' !! other = store w !! other)
  ∧ (cleaning w = (r, w') →
     other ∉ ["ev_data_cleaned"; "nutrition_data_cleaned"] →
     store w' !! other = store w !! other).
Proof.
  split; intros Hrun Hother.
  - assert (writes_only [EV_RAW_COLLECTION; NUTRITION_RAW_COLLECTION]
              ingestion) as K; [|by eapply K].
    unfold ingestion, ev_block, nutrition_block, http_get_json.
    apply writes_only_bind;
      [apply writes_only_keeps, keeps_connectivity_check|intros []].
    apply writes_only_bind; [|intros []].
    { apply writes_only_try.
      - apply writes_only_bind; [writes_only|].
        intros j. apply writes_only_ev_store. set_solver.
      - intros e. apply writes_only_keeps, keeps_log_failure. }
    apply writes_only_bind; [|intros []].
    { apply writes_only_try.
      - apply writes_only_bind; [writes_only|].
        intros j. apply writes_only_nutrition_store. set_solver.
      - intros e. apply writes_only_keeps, keeps_log_failure. }
    apply writes_only_bind;
      [apply writes_only_keeps, keeps_ingestion_summary|intros []].
    apply writes_only_keeps, keeps_print.
  - assert (writes_only ["ev_data_cleaned"; "nutrition_data_cleaned"]
              cleaning) as K; [|by eapply K].
    unfold cleaning.
    apply writes_only_bind;
      [apply writes_only_keeps, keeps_connectivity_check|intros []].
    apply writes_only_bind; [apply writes_only_ev_half; set_solver|intros ?].
    apply writes_only_bind;
      [apply writes_only_nutrition_half; set_solver|intros ?].
    apply writes_only_bind;
      [apply writes_only_keeps, keeps_cleaning_summary|intros []].
    apply writes_only_keeps. keeps.
Qed.

Lemma scripts_write_only_their_collections_witness :
  store (ingestion one_row_world).2 !! "ev_data_cleaned"
  = store one_row_world !! "ev_data_cleaned".
Proof.
  apply (proj1 (@scripts_write_only_their_collections decimal_runtime
                  one_row_world (ingestion one_row_world).2
                  (ingestion one_row_world).1 "ev_data_cleaned")).
  - vm_compute. reflexivity.
  - apply (bool_decide_unpack _). vm_compute. exact I.
Defined.

(** ** Ingestion: a block that fails half-way *)

Lemma fails_clean_keeps {A} (m : M A) : keeps_store m → fails_clean m.
Proof. intros Hm w e w' Hrun. by eapply Hm. Qed.

Lemma fails_clean_bind {A B} (m : M A) (k : A → M B) :
  keeps_store m → (∀ a, fails_clean (k a)) → fails_clean (m ≫= k).
Proof.
  intros Hm Hk w e w' Hrun.
  apply bind_inv in Hrun as [(e' & _ & Hrun)|(a & w1 & Hrun & Hrest)].
  - by eapply Hm.
  - rewrite (Hk a _ _ _ Hrest). by eapply Hm.
Qed.

Lemma with_oid_returns (d : doc) (w : world) :
  ∃ d' w', with_oid d w = (inr d', w').
Proof.
  unfold with_oid. destruct (dict_has "_id" d); by eexists _, _.
Qed.

Lemma mapM_with_oid_returns (ds : list doc) (w : world) :
  ∃ ds' w', mapM with_oid ds w = (inr ds', w').
Proof.
  revert w. induction ds as [|d ds IH]; intros w; simpl; [by eexists _, _|].
  destruct (with_oid_returns d w) as (d' & w1 & Hd).
  destruct (IH w1) as (ds' & w2 & Hds).
  exists (d' :: ds'), w2.
  rewrite (bind_run _ _ _ _ _ Hd). by rewrite (bind_run _ _ _ _ _ Hds).
Qed.

Lemma fails_clean_delete_many (name : string) : fails_clean (delete_many name).
Proof.
  unfold delete_many. apply fails_clean_bind; [apply keeps_store_command|].
  intros [] w e w'. unfold mbind, M_bind, get_store, set_store; simpl.
  by destruct (store w !! name).
Qed.

Lemma fails_clean_insert_one (name : string) (d : doc) :
  fails_clean (insert_one name d).
Proof.
  unfold insert_one. apply fails_clean_bind; [apply keeps_store_command|].
  intros [] w e w' Hrun.
  destruct (with_oid_returns d w) as (d' & w1 & Hd).
  rewrite (bind_run _ _ _ _ _ Hd) in Hrun. done.
Qed.

Lemma fails_clean_insert_many (name : string) (ds : list doc) :
  fails_clean (insert_many name ds).
Proof.
  unfold insert_many. destruct ds as [|d ds].
  - apply fails_clean_keeps, keeps_raise.
  - apply fails_clean_bind; [apply keeps_store_command|].
    intros [] w e w' Hrun.
    destruct (mapM_with_oid_returns (d :: ds) w) as (ds' & w1 & Hds).
    rewrite (bind_run _ _ _ _ _ Hds) in Hrun. done.
Qed.





(** ** Cleaning: from the raw collection to the cleaned one *)

Lemma replace_collection (name : string) (ds : list doc) (w w' : world) :
  (delete_many name;; insert_many name ds) w = (inr (), w') →
  ds ≠ []
  ∧ ∃ recs, store w' !! name = Some recs
            ∧ Forall2 same_fields ds recs
            ∧ ∀ other, other ≠ name → store w' !! other = store w !! other.
Proof.
  intros Hrun. apply bind_ok in Hrun as ([] & wdel & Hdel & Hrun).
  apply delete_many_ok in Hdel as [Hempty Hdel].
  apply insert_many_ok in Hrun as (Hne & recs & Hrecs & Hsame & Hothers).
  split; [done|]. exists recs. rewrite Hrecs, Hempty. split_and!; [done..|].
  intros other Hother. rewrite Hothers by done. by apply Hdel.
Qed.

(** A successful run of the EV half of the cleaning script. *)
Lemma ev_half_run `{Runtime} (w w' : world) (df : frame) :
  ev_half w = (inr df, w') →
  ∃ now recs,
    let docs := filter (λ d, not_metadata d = true)
                       (default [] (store w !! "ev_data_raw")) in
    df = add_bookkeeping now (ev_fill docs)
    ∧ to_records df ≠ []
    ∧ store w' !! "ev_data_cleaned" = Some recs
    ∧ Forall2 same_fields (to_records df) recs
    ∧ ∀ other, other ≠ "ev_data_cleaned" →
               store w' !! other = store w !! other.
Proof.
  unfold ev_half. intros Hrun.
  apply bind_ok in Hrun as (docs & wf & [Hwf ->]%find_ok & Hrun).
  cbv beta zeta in Hrun.
  apply bind_ok in Hrun as ([] & wr & Hwr%keeps_report_missing & Hrun).
  apply bind_ok in Hrun as (now & wn & Hwn & Hrun).
  pose proof (keeps_datetime_now _ _ _ Hwn) as Hsn. clear Hwn.
  apply bind_ok in Hrun as ([] & wd & Hdel & Hrun).
  apply bind_ok in Hrun as ([] & wi & Hins & [= <- <-]).
  assert ((delete_many "ev_data_cleaned";;
           insert_many "ev_data_cleaned"
             (to_records (add_bookkeeping now
                (ev_fill (filter (λ d, not_metadata d = true)
                            (default [] (store w !! "ev_data_raw")))))))
            wn = (inr (), wi)) as Hrep.
  { unfold mbind at 1, M_bind at 1. by rewrite Hdel. }
  apply replace_collection in Hrep as (Hne & recs & Hrecs & Hsame & Hothers).
  exists now, recs. cbv zeta. split_and!; [done..|].
  intros other Hother. rewrite Hothers by done. congruence.
Qed.

(** A successful run of the nutrition half of the cleaning script. *)
Lemma nutrition_half_run `{Runtime} (w w' : world) (df : frame) :
  nutrition_half w = (inr df, w') →
  ∃ now df0 recs,
    let docs := filter (λ d, not_metadata d = true)
                       (default [] (store w !! "nutrition_data_raw")) in
    nutrition_features docs = inr df0
    ∧ df = add_bookkeeping now df0
    ∧ to_records df ≠ []
    ∧ store w' !! "nutrition_data_cleaned" = Some recs
    ∧ Forall2 same_fields (to_records df) recs
    ∧ ∀ other, other ≠ "nutrition_data_cleaned" →
               store w' !! other = store w !! other.
Proof.
  unfold nutrition_half. intros Hrun.
  apply bind_ok in Hrun as (docs & wf & [Hwf ->]%find_ok & Hrun).
  apply bind_ok in Hrun as ([] & wr & Hwr%keeps_report_missing & Hrun).
  apply bind_ok in Hrun as (df0 & ? & [Hdf0 ->]%lift_result_ok & Hrun).
  apply bind_ok in Hrun as (now & wn & Hwn & Hrun).
  pose proof (keeps_datetime_now _ _ _ Hwn) as Hsn. clear Hwn.
  cbv beta zeta in Hrun.
  apply bind_ok in Hrun as ([] & wd & Hdel & Hrun).
  apply bind_ok in Hrun as ([] & wi & Hins & [= <- <-]).
  assert ((delete_many "nutrition_data_cleaned";;
           insert_many "nutrition_data_cleaned"
             (to_records (add_bookkeeping now df0)))
            wn = (inr (), wi)) as Hrep.
  { unfold mbind at 1, M_bind at 1. by rewrite Hdel. }
  apply replace_collection in Hrep as (Hne & recs & Hrecs & Hsame & Hothers).
  exists now, df0, recs. cbv zeta. split_and!; [done..|].
  intros other Hother. rewrite Hothers by done. congruence.
Qed.

Lemma ev_fill_nrows `{Runtime} (docs : list doc) :
  nrows (ev_fill docs) = length docs.
Proof.
  unfold ev_fill, fill_missing, ev_convert, convert_numeric_columns.
  rewrite update_columns_nrows, convert_loop, update_columns_nrows. done.
Qed.

Lemma add_confidence_interval_width_nrows (df df' : frame) :
  add_confidence_interval_width df = inr df' → nrows df' = nrows df.
Proof.
  unfold add_confidence_interval_width. repeat case_match; by intros [= <-].
Qed.

Lemma nutrition_features_nrows `{Runtime} (docs : list doc) (df : frame) :
  nutrition_features docs = inr df → nrows df = length docs.
Proof.
  unfold nutrition_features.
  intros ->%add_confidence_interval_width_nrows.
  by rewrite add_year_range_nrows, nutrition_fill_nrows.
Qed.

Lemma to_records_length (df : frame) : length (to_records df) = nrows df.
Proof. unfold to_records. by rewrite length_fmap, length_seq. Qed.

Lemma add_bookkeeping_nrows (now : Z) (df : frame) :
  nrows (add_bookkeeping now df) = nrows df.
Proof. done. Qed.

(** Cleaning keeps every row: when a half of the script runs to its end,
    the cleaned collection holds exactly as many records as the raw
    collection holds documents that are not flagged as metadata (and at
    least one); nothing is dropped and nothing is added. *)
Theorem cleaning_keeps_every_row `{Runtime} (w w' : world) (df : frame) :
  (ev_half w = (inr df, w') →
   ∃ recs, store w' !! "ev_data_cleaned" = Some recs
           ∧ length recs
             = length (filter (λ d, not_metadata d = true)
                         (default [] (store w !! "ev_data_raw")))
           ∧ (1 ≤ length recs)%nat)
  ∧ (nutrition_half w = (inr df, w') →
     ∃ recs, store w' !! "nutrition_data_cleaned" = Some recs
             ∧ length recs
               = length (filter (λ d, not_metadata d = true)
                           (default [] (store w !! "nutrition_data_raw")))
             ∧ (1 ≤ length recs)%nat).
Proof.
  split.
  - intros (now & recs & Hdf & Hne & Hrecs & Hsame & _)%ev_half_run.
    cbv zeta in Hdf. exists recs. split; [done|].
    apply Forall2_length in Hsame. rewrite <- Hsame.
    split; [|destruct (to_records df); [done|simpl; lia]].
    by rewrite to_records_length, Hdf, add_bookkeeping_nrows, ev_fill_nrows.
  - intros (now & df0 & recs & Hdf0 & Hdf & Hne & Hrecs & Hsame & _)
      %nutrition_half_run.
    cbv zeta in Hdf0. exists recs. split; [done|].
    apply Forall2_length in Hsame. rewrite <- Hsame.
    split; [|destruct (to_records df); [done|simpl; lia]].
    rewrite to_records_length, Hdf, add_bookkeeping_nrows.
    by apply nutrition_features_nrows.
Qed.

Lemma cleaning_keeps_every_row_witness :
  ∃ recs,
    store (@ev_half decimal_runtime one_row_loaded).2 !! "ev_data_cleaned"
    = Some recs
    ∧ length recs
      = length (filter (λ d, not_metadata d = true)
                  (default [] (store one_row_loaded !! "ev_data_raw")))
    ∧ (1 ≤ length recs)%nat.
Proof.
  apply (proj1 (@cleaning_keeps_every_row decimal_runtime one_row_loaded
                  (@ev_half decimal_runtime one_row_loaded).2
                  one_row_cleaned)).
  vm_compute. reflexivity.
Defined.

(** ** Cleaning: the fields of a cleaned record *)

Lemma frame_get_is_Some (k : string) (cs : list (string * column)) :
  is_Some (frame_get k cs) ↔ k ∈ cs.*1.
Proof.
  rewrite <- in_list_elem, frame_get_names.
  destruct (frame_get k cs); split; (done || by intros [? ?] || by eexists).
Qed.

Lemma frame_get_set_is_Some (k k' : string) (c : column)
    (cs : list (string * column)) :
  is_Some (frame_get k (frame_set k' c cs))
  ↔ k = k' ∨ is_Some (frame_get k cs).
Proof.
  destruct (decide (k = k')) as [->|Hne].
  - rewrite frame_get_set_eq. split; [by left|by eexists].
  - rewrite frame_get_set_ne by done. split; [by right|by intros [?|?]].
Qed.

Lemma record_is_Some (df : frame) (rec : doc) (k : string) :
  rec ∈ to_records df →
  (is_Some (dict_get k rec) ↔ is_Some (frame_get k (columns df))).
Proof.
  unfold to_records. intros (i & -> & _)%list_elem_of_fmap.
  rewrite dict_get_row_of. by rewrite fmap_is_Some.
Qed.

Lemma stored_is_Some (df : frame) (recs : list doc) (rec : doc) (k : string) :
  Forall2 same_fields (to_records df) recs → rec ∈ recs → k ≠ "_id" →
  (is_Some (dict_get k rec) ↔ is_Some (frame_get k (columns df))).
Proof.
  intros Hsame (i & Hi)%list_elem_of_lookup_1 Hk.
  destruct (Forall2_lookup_r _ _ _ _ _ Hsame Hi) as (rec0 & Hrec0 & Hf).
  rewrite (Hf k Hk). apply record_is_Some.
  by eapply list_elem_of_lookup_2.
Qed.

Lemma bookkeeping_is_Some (now : Z) (df : frame) (k : string) :
  is_Some (frame_get k (columns (add_bookkeeping now df)))
  ↔ is_Some (frame_get k (columns df)) ∨ k ∈ ["_processed_at"; "_record_id"].
Proof.
  unfold add_bookkeeping, assign; cbn [columns nrows].
  rewrite !frame_get_set_is_Some, !elem_of_cons, elem_of_nil. tauto.
Qed.

Lemma drop_is_Some (docs : list doc) (k : string) :
  is_Some (frame_get k (columns (frame_drop columns_to_drop (frame_of_docs docs))))
  ↔ k ∈ union_keys docs ∧ k ∉ columns_to_drop.
Proof.
  rewrite frame_get_drop, frame_of_docs_get.
  rewrite <- in_list_elem, <- in_list_not_elem.
  destruct (in_list k columns_to_drop), (in_list k (union_keys docs));
    split; (by intros [? ?] || by eexists || by intros [? ?] || done).
Qed.

Lemma ev_fill_is_Some `{Runtime} (docs : list doc) (k : string) :
  is_Some (frame_get k (columns (ev_fill docs)))
  ↔ k ∈ union_keys docs ∧ k ∉ columns_to_drop.
Proof.
  rewrite frame_get_is_Some.
  unfold ev_fill, fill_missing, ev_convert, convert_numeric_columns.
  rewrite update_columns_names, convert_loop, update_columns_names.
  rewrite <- frame_get_is_Some. apply drop_is_Some.
Qed.

Lemma nutrition_fill_is_Some (docs : list doc) (k : string) :
  is_Some (frame_get k (columns (nutrition_fill docs)))
  ↔ k ∈ union_keys docs ∧ k ∉ columns_to_drop.
Proof.
  rewrite frame_get_is_Some.
  unfold nutrition_fill, fill_missing.
  rewrite update_columns_names, nutrition_convert_names.
  rewrite <- frame_get_is_Some. apply drop_is_Some.
Qed.

(** Every cleaned EV record has the same fields: each key that occurs in
    some raw row, the four internal fields excepted, and the two
    bookkeeping fields (next to the [_id] the store assigns).  A key that
    a raw row lacks is present in its cleaned record all the same, and the
    stamps of the ingestion are gone. *)
Theorem ev_cleaned_records_uniform `{Runtime} (w w' : world) (df : frame) :
  ev_half w = (inr df, w') →
  ∃ recs,
    store w' !! "ev_data_cleaned" = Some recs
    ∧ ∀ rec k, rec ∈ recs → k ≠ "_id" →
        (is_Some (dict_get k rec)
         ↔ (k ∈ union_keys (filter (λ d, not_metadata d = true)
                              (default [] (store w !! "ev_data_raw")))
            ∧ k ∉ ["_id"; "_imported_at"; "_dataset_name"; "_source"])
           ∨ k ∈ ["_processed_at"; "_record_id"]).
Proof.
  intros (now & recs & Hdf & _ & Hrecs & Hsame & _)%ev_half_run.
  cbv zeta in Hdf. exists recs. split; [done|]. intros rec k Hrec Hk.
  rewrite (stored_is_Some df recs rec k Hsame Hrec Hk), Hdf.
  rewrite bookkeeping_is_Some, ev_fill_is_Some. done.
Qed.

Lemma ev_cleaned_records_uniform_witness :
  ∃ recs,
    store (@ev_half decimal_runtime one_row_loaded).2 !! "ev_data_cleaned"
    = Some recs
    ∧ ∀ rec k, rec ∈ recs → k ≠ "_id" →
        (is_Some (dict_get k rec)
         ↔ (k ∈ union_keys (filter (λ d, not_metadata d = true)
                              (default [] (store one_row_loaded
                                             !! "ev_data_raw")))
            ∧ k ∉ ["_id"; "_imported_at"; "_dataset_name"; "_source"])
           ∨ k ∈ ["_processed_at"; "_record_id"]).
Proof.
  apply (@ev_cleaned_records_uniform decimal_runtime one_row_loaded
           (@ev_half decimal_runtime one_row_loaded).2 one_row_cleaned).
  vm_compute. reflexivity.
Defined.

Lemma year_range_is_Some `{Runtime} (df : frame) (k : string) :
  is_Some (frame_get k (columns (add_year_range df)))
  ↔ is_Some (frame_get k (columns df))
    ∨ (k = "year_range"
       ∧ is_Some (frame_get "yearstart" (columns df))
       ∧ is_Some (frame_get "yearend" (columns df))).
Proof.
  unfold add_year_range.
  destruct (frame_get "yearstart" (columns df)) as [a|] eqn:Ea;
    [destruct (frame_get "yearend" (columns df)) as [b|] eqn:Eb|].
  - unfold assign; cbn [columns]. rewrite frame_get_set_is_Some.
    split; [intros [->|?]; [right|by left]|intros [?|(-> & _)]; [by right|by left]].
    split_and!; [done|by eexists..].
  - split; [by left|]. intros [?|(_ & _ & [? ?])]; done.
  - split; [by left|]. intros [?|(_ & [? ?] & _)]; done.
Qed.

Lemma width_is_Some (df df' : frame) (k : string) :
  add_confidence_interval_width df = inr df' →
  (is_Some (frame_get k (columns df'))
   ↔ is_Some (frame_get k (columns df))
     ∨ (k = "confidence_interval_width"
        ∧ is_Some (frame_get "low_confidence_limit" (columns df))
        ∧ is_Some (frame_get "high_confidence_limit" (columns df)))).
Proof.
  unfold add_confidence_interval_width.
  destruct (frame_get "low_confidence_limit" (columns df)) as [lo|] eqn:El;
    [destruct (frame_get "high_confidence_limit" (columns df)) as [hi|] eqn:Eh|].
  - destruct (column_sub hi lo) as [c|]; [|done]. intros [= <-].
    unfold assign; cbn [columns]. rewrite frame_get_set_is_Some.
    split; [intros [->|?]; [right|by left]|intros [?|(-> & _)]; [by right|by left]].
    split_and!; [done|by eexists..].
  - intros [= <-]. split; [by left|]. intros [?|(_ & _ & [? ?])]; done.
  - intros [= <-]. split; [by left|]. intros [?|(_ & [? ?] & _)]; done.
Qed.

Lemma nutrition_features_is_Some `{Runtime} (docs : list doc) (df : frame)
    (k : string) :
  nutrition_features docs = inr df →
  (is_Some (frame_get k (columns df))
   ↔ (k ∈ union_keys docs ∧ k ∉ columns_to_drop)
     ∨ (k = "year_range"
        ∧ "yearstart" ∈ union_keys docs ∧ "yearend" ∈ union_keys docs)
     ∨ (k = "confidence_interval_width"
        ∧ "low_confidence_limit" ∈ union_keys docs
        ∧ "high_confidence_limit" ∈ union_keys docs)).
Proof.
  unfold nutrition_features. intros Hdf.
  rewrite (width_is_Some _ _ k Hdf), !year_range_is_Some.
  rewrite !nutrition_fill_is_Some.
  assert ("yearstart" ∉ columns_to_drop) as H1
    by (apply (bool_decide_unpack _); by vm_compute).
  assert ("yearend" ∉ columns_to_drop) as H2
    by (apply (bool_decide_unpack _); by vm_compute).
  assert ("low_confidence_limit" ∉ columns_to_drop) as H3
    by (apply (bool_decide_unpack _); by vm_compute).
  assert ("high_confidence_limit" ∉ columns_to_drop) as H4
    by (apply (bool_decide_unpack _); by vm_compute).
  assert ("low_confidence_limit" ≠ "year_range") as H5 by done.
  assert ("high_confidence_limit" ≠ "year_range") as H6 by done.
  tauto.
Qed.

(** Every cleaned nutrition record has the same fields: each key that
    occurs in some raw record, the four internal fields excepted; the two
    bookkeeping fields; [year_range] exactly when both year keys occur in
    the raw records; and [confidence_interval_width] exactly when both
    limit keys do. *)
Theorem nutrition_cleaned_records_uniform `{Runtime} (w w' : world)
    (df : frame) :
  nutrition_half w = (inr df, w') →
  ∃ recs,
    let raw := union_keys (filter (λ d, not_metadata d = true)
                             (default [] (store w !! "nutrition_data_raw"))) in
    store w' !! "nutrition_data_cleaned" = Some recs
    ∧ ∀ rec k, rec ∈ recs → k ≠ "_id" →
        (is_Some (dict_get k rec)
         ↔ (k ∈ raw
            ∧ k ∉ ["_id"; "_imported_at"; "_dataset_name"; "_source"])
           ∨ k ∈ ["_processed_at"; "_record_id"]
           ∨ (k = "year_range" ∧ "yearstart" ∈ raw ∧ "yearend" ∈ raw)
           ∨ (k = "confidence_interval_width"
              ∧ "low_confidence_limit" ∈ raw
              ∧ "high_confidence_limit" ∈ raw)).
Proof.
  intros (now & df0 & recs & Hdf0 & Hdf & _ & Hrecs & Hsame & _)
    %nutrition_half_run.
  exists recs. cbv zeta in Hdf0 |- *. split; [done|].
  revert Hdf0.
  generalize (filter (λ d, not_metadata d = true)
                (default [] (store w !! "nutrition_data_raw"))).
  intros docs Hdf0 rec k Hrec Hk.
  rewrite (stored_is_Some df recs rec k Hsame Hrec Hk), Hdf.
  rewrite bookkeeping_is_Some.
  rewrite (nutrition_features_is_Some docs df0 k Hdf0).
  unfold columns_to_drop. tauto.
Qed.

Lemma nutrition_cleaned_records_uniform_witness :
  ∃ recs,
    let raw := union_keys (filter (λ d, not_metadata d = true)
                             (default [] (store one_row_loaded
                                            !! "nutrition_data_raw"))) in
    store (@nutrition_half decimal_runtime one_row_loaded).2
      !! "nutrition_data_cleaned" = Some recs
    ∧ ∀ rec k, rec ∈ recs → k ≠ "_id" →
        (is_Some (dict_get k rec)
         ↔ (k ∈ raw
            ∧ k ∉ ["_id"; "_imported_at"; "_dataset_name"; "_source"])
           ∨ k ∈ ["_processed_at"; "_record_id"]
           ∨ (k = "year_range" ∧ "yearstart" ∈ raw ∧ "yearend" ∈ raw)
           ∨ (k = "confidence_interval_width"
              ∧ "low_confidence_limit" ∈ raw
              ∧ "high_confidence_limit" ∈ raw)).
Proof.
  apply (@nutrition_cleaned_records_uniform decimal_runtime one_row_loaded
           (@nutrition_half decimal_runtime one_row_loaded).2
           (match (@nutrition_half decimal_runtime one_row_loaded).1 with
            | inr df => df
            | inl _ => Frame 0 []
            end)).
  vm_compute. reflexivity.
Defined.

(** ** Cleaning: the fill, cell by cell *)

Lemma fill_column_cell (c : column) (i : nat) (x : pyval) :
  column_cells c !! i = Some x →
  column_cells (fill_column c) !! i
  = Some (if isnull x then
            if is_numeric_dtype c
            then match median c with Some m => PFloat m | None => x end
            else PStr "Unknown"
          else x).
Proof.
  intros Hx. unfold fill_column.
  destruct (0 <? missing_count c)%nat eqn:Em.
  - destruct c as [l|l|l|l]; cbn [is_numeric_dtype].
    + unfold fillna_str. cbn [column_cells] in Hx |- *.
      by rewrite list_lookup_fmap, Hx.
    + pose proof (missing_count_typed (ColInt l)) as Hz. simpl in Hz.
      rewrite Hz in Em. done.
    + unfold fillna_float. destruct (median (ColFloat l)) as [m|].
      * cbn [column_cells] in Hx |- *. rewrite list_lookup_fmap in Hx.
        rewrite !list_lookup_fmap.
        destruct (l !! i) as [[q|]|]; by simplify_eq/=.
      * rewrite Hx. by destruct (isnull x).
    + pose proof (missing_count_typed (ColBool l)) as Hz. simpl in Hz.
      rewrite Hz in Em. done.
  - apply Nat.ltb_ge in Em.
    rewrite (missing_count_zero c i x) by (done || lia). done.
Qed.

(** The fill loop, cell by cell: a value that is present is never changed;
    a missing cell of an [int64] or [float64] column becomes the median of
    the column (and stays missing when the column has no value at all); a
    missing cell of any other column becomes the text [Unknown]. *)
Theorem fill_missing_cellwise (df : frame) (k : string) (c : column) (i : nat)
    (x : pyval) :
  NoDup (columns df).*1 →
  frame_get k (columns df) = Some c →
  column_cells c !! i = Some x →
  ∃ c', frame_get k (columns (fill_missing df)) = Some c'
        ∧ column_cells c' !! i
          = Some (if isnull x then
                    if is_numeric_dtype c
                    then match median c with Some m => PFloat m | None => x end
                    else PStr "Unknown"
                  else x).
Proof.
  intros Hnd Hc Hx. exists (fill_column c). split.
  - unfold fill_missing. rewrite update_columns_get by done.
    by rewrite frame_get_names, Hc.
  - by apply fill_column_cell.
Qed.

Lemma fill_missing_cellwise_witness :
  ∃ c', frame_get "range"
          (columns (fill_missing
             (Frame 3 [("range", ColFloat [Some 1%Q; None; Some 3%Q]);
                       ("make", ColObject [PStr "KIA"; PNone; PStr "BMW"])])))
        = Some c'
        ∧ column_cells c' !! 1%nat
          = Some (if isnull PNaN then
                    if is_numeric_dtype (ColFloat [Some 1%Q; None; Some 3%Q])
                    then match median (ColFloat [Some 1%Q; None; Some 3%Q]) with
                         | Some m => PFloat m
                         | None => PNaN
                         end
                    else PStr "Unknown"
                  else PNaN).
Proof.
  apply (fill_missing_cellwise
           (Frame 3 [("range", ColFloat [Some 1%Q; None; Some 3%Q]);
                     ("make", ColObject [PStr "KIA"; PNone; PStr "BMW"])])
           "range" (ColFloat [Some 1%Q; None; Some 3%Q]) 1 PNaN).
  - apply (bool_decide_unpack _). vm_compute. exact I.
  - reflexivity.
  - reflexivity.
Defined.

(** ** Cleaning: text columns of the EV table *)

Lemma head_filter_elem {A} (P : A → Prop) `{∀ x, Decision (P x)}
    (l : list A) (x : A) :
  head (filter P l) = Some x → x ∈ l ∧ P x.
Proof.
  intros Hh.
  assert (x ∈ filter P l) as Hin.
  { destruct (filter P l); simplify_eq/=. apply list_elem_of_here. }
  apply list_elem_of_filter in Hin. tauto.
Qed.

Lemma infer_column_text (cells : list pyval) (s : string) :
  PStr s ∈ cells → infer_column cells = ColObject cells.
Proof.
  intros (i & Hi)%list_elem_of_lookup_1. unfold infer_column.
  destruct cells as [|v cells]; [done|].
  destruct (forallb is_bool_val (v :: cells)) eqn:Eb;
    [by pose proof (forallb_lookup _ _ _ _ Eb Hi)|].
  destruct (forallb is_scalar_num (v :: cells)) eqn:Es;
    [by pose proof (forallb_lookup _ _ _ _ Es Hi)|].
  done.
Qed.

Lemma raw_cells_key (k : string) (docs : list doc) (v : pyval) :
  v ∈ raw_cells k docs → v ≠ PNaN → k ∈ union_keys docs.
Proof.
  unfold raw_cells. intros (d & -> & Hd)%list_elem_of_fmap Hv.
  apply union_keys_elem. exists d. split; [done|].
  destruct (dict_get k d) as [v|] eqn:E; [by eapply dict_get_keys|done].
Qed.

(** The column of a key of the EV table whose first present value is a
    string, before the conversion loop. *)
Lemma ev_text_column `{Runtime} (docs : list doc) (k s : string) :
  k ∉ columns_to_drop →
  head (filter (λ v, isnull v = false) (raw_cells k docs)) = Some (PStr s) →
  frame_get k (columns (ev_drop docs)) = Some (ColObject (raw_cells k docs))
  ∧ sample_val (ColObject (raw_cells k docs)) = Some (PStr s).
Proof.
  intros Hk Hhead. split; [|done].
  apply head_filter_elem in Hhead as [Hin _].
  unfold ev_drop. rewrite frame_get_drop, frame_of_docs_get.
  apply in_list_not_elem in Hk as ->.
  assert (in_list k (union_keys docs) = true) as ->.
  { apply in_list_elem. by eapply raw_cells_key. }
  by rewrite (infer_column_text _ s).
Qed.

Lemma ev_fill_get `{Runtime} (docs : list doc) (k : string) (c : column) :
  frame_get k (columns (ev_drop docs)) = Some c →
  frame_get k (columns (ev_fill docs)) = Some (fill_column (convert_column c)).
Proof.
  intros Hc. apply ev_convert_get in Hc.
  unfold ev_fill, fill_missing.
  rewrite update_columns_get.
  - by rewrite frame_get_names, Hc.
  - unfold ev_convert, convert_numeric_columns.
    rewrite convert_loop, update_columns_names. apply ev_drop_NoDup.
Qed.

(** A column of the EV table whose first present value is a string that
    fails the digit test is left as text: every cleaned record carries the
    raw value of its row, and [Unknown] where the row has none. *)
Theorem ev_text_passes_through `{Runtime} (docs : list doc) (now : Z)
    (k s : string) (i : nat) (d : doc) :
  k ∉ ["_id"; "_imported_at"; "_dataset_name"; "_source";
       "_processed_at"; "_record_id"] →
  head (filter (λ v, isnull v = false) (raw_cells k docs)) = Some (PStr s) →
  looks_numeric s = false →
  docs !! i = Some d →
  ∃ rec,
    to_records (add_bookkeeping now (ev_fill docs)) !! i = Some rec
    ∧ dict_get k rec
      = Some (match dict_get k d with
              | Some v => if isnull v then PStr "Unknown" else v
              | None => PStr "Unknown"
              end).
Proof.
  intros Hk Hhead Hlooks Hd.
  assert ((k ∉ columns_to_drop) ∧ k ≠ "_processed_at" ∧ k ≠ "_record_id")
    as (Hdrop & Hk1 & Hk2).
  { unfold columns_to_drop. rewrite !not_elem_of_cons in Hk.
    rewrite !not_elem_of_cons. tauto. }
  destruct (ev_text_column docs k s Hdrop Hhead) as [Hcol Hsample].
  apply ev_fill_get in Hcol.
  assert (convert_column (ColObject (raw_cells k docs))
          = ColObject (raw_cells k docs)) as Hconv.
  { unfold convert_column, wants_numeric. rewrite Hsample. simpl.
    rewrite Hlooks. by rewrite !andb_false_r. }
  rewrite Hconv in Hcol.
  destruct (record_field now (ev_fill docs) i k) as (rec & Hrec & Hget);
    [|done..|].
  { rewrite ev_fill_nrows. by eapply lookup_lt_Some. }
  exists rec. split; [done|]. rewrite Hget, Hcol. cbn [fmap option_fmap option_map].
  rewrite (fill_column_cell _ i (default PNaN (dict_get k d))).
  - cbn [default is_numeric_dtype]. by destruct (dict_get k d).
  - cbn [column_cells]. unfold raw_cells. by rewrite list_lookup_fmap, Hd.
Qed.

Lemma ev_text_passes_through_witness :
  ∃ rec,
    to_records (add_bookkeeping 0
                  (@ev_fill decimal_runtime
                     [[("Make", PStr "TESLA")]; [("Model", PStr "LEAF")]]))
      !! 1%nat = Some rec
    ∧ dict_get "Make" rec
      = Some (match dict_get "Make" [("Model", PStr "LEAF")] with
              | Some v => if isnull v then PStr "Unknown" else v
              | None => PStr "Unknown"
              end).
Proof.
  apply (@ev_text_passes_through decimal_runtime
           [[("Make", PStr "TESLA")]; [("Model", PStr "LEAF")]] 0
           "Make" "TESLA" 1 [("Model", PStr "LEAF")]).
  - apply (bool_decide_unpack _). vm_compute. exact I.
  - reflexivity.
  - reflexivity.
  - reflexivity.
Defined.

(** ** Cleaning: the digit test of the EV conversion *)

Lemma all_digits_stripped (s : string) :
  all_digits (remove_char "-" (remove_char "." s)) = true
  ↔ Forall (λ c, is_digit c = true ∨ c = "."%char ∨ c = "-"%char)
           (list_ascii_of_string s).
Proof.
  induction s as [|a s IH]; simpl; [split; [by constructor|done]|].
  rewrite Forall_cons.
  destruct (Ascii.eqb a ".") eqn:Edot.
  { apply Ascii.eqb_eq in Edot as ->. rewrite IH. intuition. }
  simpl. destruct (Ascii.eqb a "-") eqn:Edash.
  { apply Ascii.eqb_eq in Edash as ->. rewrite IH. intuition. }
  simpl. rewrite andb_true_iff, IH.
  apply Ascii.eqb_neq in Edot, Edash. intuition.
Qed.

Lemma stripped_nonempty (s : string) :
  remove_char "-" (remove_char "." s) ≠ ""
  ↔ Exists (λ c, c ≠ "."%char ∧ c ≠ "-"%char) (list_ascii_of_string s).
Proof.
  induction s as [|a s IH]; simpl; [split; [done|by intros ?%Exists_nil]|].
  rewrite Exists_cons.
  destruct (Ascii.eqb a ".") eqn:Edot.
  { apply Ascii.eqb_eq in Edot as ->. rewrite IH. intuition. }
  simpl. destruct (Ascii.eqb a "-") eqn:Edash.
  { apply Ascii.eqb_eq in Edash as ->. rewrite IH. intuition. }
  apply Ascii.eqb_neq in Edot, Edash. split; [intros _; by left|done].
Qed.

Lemma isdigit_nonempty (s : string) :
  isdigit s = true ↔ s ≠ "" ∧ all_digits s = true.
Proof.
  destruct s; simpl; [split; [done|by intros [? _]]|].
  split; [done|by intros [_ ?]].
Qed.


(** ** Cleaning: text of the EV table that passes the digit test *)

Lemma looks_numeric_truthy (s : string) :
  looks_numeric s = true → truthy (PStr s) = true.
Proof. by destruct s. Qed.

Lemma typed_cell_not_text (c : column) (i : nat) (x : pyval) :
  is_typed c → column_cells c !! i = Some x → ∀ t, x ≠ PStr t.
Proof.
  intros Ht Hx t ->. destruct c as [l|l|l|l]; [done|..];
    cbn [column_cells] in Hx; rewrite list_lookup_fmap in Hx;
    destruct (l !! i) as [o|]; simplify_eq/=.
  by destruct o.
Qed.

(** A column of the EV table whose first present value is a string that
    passes the digit test is coerced as a whole: every cleaned record
    carries a number and never text, namely the numeral read from the raw
    value of its row, or, when the raw value is missing or is no numeral,
    the median of the numerals of the column (NaN when there is none).
    Text that is no numeral is lost. *)
Theorem ev_digit_text_is_coerced `{Runtime} (docs : list doc) (now : Z)
    (k s : string) (i : nat) (d : doc) :
  k ∉ ["_id"; "_imported_at"; "_dataset_name"; "_source";
       "_processed_at"; "_record_id"] →
  head (filter (λ v, isnull v = false) (raw_cells k docs)) = Some (PStr s) →
  looks_numeric s = true →
  docs !! i = Some d →
  ∃ rec x,
    to_records (add_bookkeeping now (ev_fill docs)) !! i = Some rec
    ∧ dict_get k rec = Some x
    ∧ (∀ t, x ≠ PStr t)
    ∧ as_float x
      = match numeral_float
                (to_numeric_cell (default PNaN (dict_get k d))) with
        | Some q => Some q
        | None => median (to_numeric (ColObject (raw_cells k docs)))
        end
    ∧ (∀ t, dict_get k d = Some (PStr t) → parse_numeral t = None →
            as_float x = median (to_numeric (ColObject (raw_cells k docs)))).
Proof.
  intros Hk Hhead Hlooks Hd.
  assert ((k ∉ columns_to_drop) ∧ k ≠ "_processed_at" ∧ k ≠ "_record_id")
    as (Hdrop & Hk1 & Hk2).
  { unfold columns_to_drop. rewrite !not_elem_of_cons in Hk.
    rewrite !not_elem_of_cons. tauto. }
  destruct (ev_text_column docs k s Hdrop Hhead) as [Hcol Hsample].
  apply ev_fill_get in Hcol.
  assert (convert_column (ColObject (raw_cells k docs))
          = to_numeric (ColObject (raw_cells k docs))) as Hconv.
  { unfold convert_column, wants_numeric. rewrite Hsample.
    cbn [isinstance_int_float_str py_str].
    by rewrite Hlooks, (looks_numeric_truthy s Hlooks). }
  rewrite Hconv in Hcol.
  assert (coerced_column k docs = to_numeric (ColObject (raw_cells k docs)))
    as Hco.
  { unfold coerced_column. rewrite (infer_column_text _ s); [done|].
    by apply head_filter_elem in Hhead as [? _]. }
  destruct (limit_cell docs i d k Hd) as (x & Hx & Hxf).
  rewrite Hco in Hx. unfold imputed in Hxf. rewrite Hco in Hxf.
  destruct (record_field now (ev_fill docs) i k) as (rec & Hrec & Hget);
    [|done..|].
  { rewrite ev_fill_nrows. by eapply lookup_lt_Some. }
  exists rec, x. split_and!; [done| | |done|].
  - rewrite Hget, Hcol. cbn [fmap option_fmap option_map]. by rewrite Hx.
  - eapply typed_cell_not_text; [|exact Hx].
    apply fill_column_typed, to_numeric_typed.
  - intros t Ht Hparse. rewrite Hxf, Ht.
    change (to_numeric_cell (default PNaN (Some (PStr t))))
      with (parse_numeral t).
    by rewrite Hparse.
Qed.

Lemma ev_digit_text_is_coerced_witness :
  ∃ rec x,
    to_records (add_bookkeeping 0
                  (@ev_fill decimal_runtime
                     [[("Sale Date", PStr "2020-01-15")];
                      [("Sale Date", PStr "2021")]]))
      !! 0%nat = Some rec
    ∧ dict_get "Sale Date" rec = Some x
    ∧ (∀ t, x ≠ PStr t)
    ∧ as_float x
      = match numeral_float
                (to_numeric_cell
                   (default PNaN (dict_get "Sale Date"
                                    [("Sale Date", PStr "2020-01-15")]))) with
        | Some q => Some q
        | None =>
            median (to_numeric
                      (ColObject (raw_cells "Sale Date"
                                    [[("Sale Date", PStr "2020-01-15")];
                                     [("Sale Date", PStr "2021")]])))
        end
    ∧ (∀ t, dict_get "Sale Date" [("Sale Date", PStr "2020-01-15")]
            = Some (PStr t) →
            parse_numeral t = None →
            as_float x
            = median (to_numeric
                        (ColObject (raw_cells "Sale Date"
                                      [[("Sale Date", PStr "2020-01-15")];
                                       [("Sale Date", PStr "2021")]])))).
Proof.
  apply (@ev_digit_text_is_coerced decimal_runtime
           [[("Sale Date", PStr "2020-01-15")]; [("Sale Date", PStr "2021")]]
           0 "Sale Date" "2020-01-15" 0 [("Sale Date", PStr "2020-01-15")]).
  - apply (bool_decide_unpack _). vm_compute. exact I.
  - reflexivity.
  - reflexivity.
  - reflexivity.
Defined.

Example dated_column_becomes_median :
  dict_get "Sale Date"
    <$> to_records (@ev_fill decimal_runtime
                      [[("Sale Date", PStr "2020-01-15")];
                       [("Sale Date", PStr "2021")]])
  = [Some (PFloat 2021); Some (PFloat 2021)].
Proof. vm_compute. reflexivity. Qed.

(** ** Cleaning: a raw EV collection without rows *)

Lemma tame_ev_half `{Runtime} : tame ev_half.
Proof. unfold ev_half, report_missing, print, find. tame. Qed.

Lemma ev_half_needs_rows `{Runtime} (w w' : world) (df : frame) :
  filter (λ d, not_metadata d = true) (default [] (store w !! "ev_data_raw"))
  = [] →
  ev_half w ≠ (inr df, w').
Proof.
  intros Hnone (now & recs & Hdf & Hne & _)%ev_half_run. cbv zeta in Hdf.
  apply Hne, length_zero_iff_nil.
  by rewrite to_records_length, Hdf, add_bookkeeping_nrows, ev_fill_nrows, Hnone.
Qed.

(** When the raw EV collection holds no data row (it is absent, empty, or
    holds the metadata document alone, as after an EV download without
    rows), the cleaning script does not get past its EV half: the empty
    table makes the bulk insert raise, nothing catches the exception, and
    the interpreter exits with status 1.  The nutrition half never runs:
    the cleaned nutrition collection is as it was. *)
Theorem cleaning_needs_ev_rows `{Runtime} (w w0 : world) :
  connectivity_check w = (inr (), w0) →
  filter (λ d, not_metadata d = true) (default [] (store w !! "ev_data_raw"))
  = [] →
  ∃ e w',
    cleaning w = (inl (Error e), w')
    ∧ (run_script cleaning w).1 = 1%Z
    ∧ store w' !! "nutrition_data_cleaned"
      = store w !! "nutrition_data_cleaned".
Proof.
  intros Hcc Hnone.
  pose proof (keeps_connectivity_check _ _ _ Hcc) as Hw0.
  destruct (ev_half w0) as [[[e|c]|df] w1] eqn:Eh.
  - exists e, w1.
    assert (cleaning w = (inl (Error e), w1)) as Hrun.
    { unfold cleaning. rewrite (bind_run _ _ _ _ _ Hcc).
      by rewrite (bind_fail _ _ _ _ _ Eh). }
    split_and!; [done| |].
    + unfold run_script. by rewrite Hrun.
    + rewrite <- Hw0.
      apply (writes_only_ev_half ["ev_data_cleaned"]
               ltac:(apply list_elem_of_here) _ _ _ Eh).
      by intros [?|[]%elem_of_nil]%elem_of_cons.
  - destruct (tame_ev_half _ _ _ Eh) as [Hexit _]. by destruct (Hexit c).
  - exfalso. apply (ev_half_needs_rows w0 w1 df); [by rewrite Hw0|done].
Qed.

Lemma cleaning_needs_ev_rows_witness :
  ∃ e w',
    @cleaning decimal_runtime (ingestion empty_source_world).2
    = (inl (Error e), w')
    ∧ (run_script (@cleaning decimal_runtime)
         (ingestion empty_source_world).2).1 = 1%Z
    ∧ store w' !! "nutrition_data_cleaned"
      = store (ingestion empty_source_world).2 !! "nutrition_data_cleaned".
Proof.
  apply (@cleaning_needs_ev_rows decimal_runtime
           (ingestion empty_source_world).2
           (connectivity_check (ingestion empty_source_world).2).2).
  - vm_compute. reflexivity.
  - vm_compute. reflexivity.
Defined.

(** ** Cleaning: the year range of a nutrition record *)

Lemma width_get (df df' : frame) (k : string) :
  add_confidence_interval_width df = inr df' →
  k ≠ "confidence_interval_width" →
  frame_get k (columns df') = frame_get k (columns df).
Proof.
  unfold add_confidence_interval_width. intros Hdf Hk.
  repeat case_match; simplify_eq; try done.
  unfold assign; cbn [columns]. by rewrite frame_get_set_ne.
Qed.

Lemma nutrition_features_get `{Runtime} (docs : list doc) (df : frame)
    (k : string) :
  nutrition_features docs = inr df →
  k ≠ "confidence_interval_width" →
  frame_get k (columns df)
  = frame_get k (columns (add_year_range (nutrition_fill docs))).
Proof. unfold nutrition_features. intros Hdf Hk. by eapply width_get. Qed.

(** When both year keys occur in the raw nutrition records, every cleaned
    record carries a [year_range]: the text of its own cleaned
    [yearstart], a dash, and the text of its own cleaned [yearend] (the
    years as they are after coercion and fill, not as they were
    fetched). *)
Theorem year_range_joins_cleaned_years `{Runtime} (docs : list doc)
    (df : frame) (now : Z) (i : nat) (d : doc) :
  nutrition_features docs = inr df →
  docs !! i = Some d →
  "yearstart" ∈ union_keys docs →
  "yearend" ∈ union_keys docs →
  ∃ rec a b,
    to_records (add_bookkeeping now df) !! i = Some rec
    ∧ dict_get "yearstart" rec = Some a
    ∧ dict_get "yearend" rec = Some b
    ∧ dict_get "year_range" rec = Some (PStr (py_str a ++ "-" ++ py_str b)).
Proof.
  intros Hdf Hd Hs He.
  assert (frame_get "yearstart" (columns (nutrition_fill docs))
          = Some (fill_column (coerced_column "yearstart" docs))) as Hcs.
  { apply nutrition_fill_get; [by vm_compute..|by apply in_list_elem]. }
  assert (frame_get "yearend" (columns (nutrition_fill docs))
          = Some (fill_column (coerced_column "yearend" docs))) as Hce.
  { apply nutrition_fill_get; [by vm_compute..|by apply in_list_elem]. }
  destruct (limit_cell docs i d "yearstart" Hd) as (a & Ha & _).
  destruct (limit_cell docs i d "yearend" Hd) as (b & Hb & _).
  assert (i < nrows df)%nat as Hi.
  { rewrite (nutrition_features_nrows docs df Hdf). by eapply lookup_lt_Some. }
  exists (row_of (columns (add_bookkeeping now df)) i), a, b.
  assert (∀ k, k ≠ "_processed_at" → k ≠ "_record_id" →
               k ≠ "confidence_interval_width" →
               dict_get k (row_of (columns (add_bookkeeping now df)) i)
               = (λ c, default PNaN (column_cells c !! i))
                   <$> frame_get k (columns (add_year_range
                                               (nutrition_fill docs))))
    as Hfield.
  { intros k Hk1 Hk2 Hk3. rewrite dict_get_row_of.
    unfold add_bookkeeping, assign; cbn [columns].
    rewrite !frame_get_set_ne by done.
    by rewrite (nutrition_features_get docs df k Hdf Hk3). }
  split_and!.
  - unfold to_records. rewrite list_lookup_fmap.
    rewrite lookup_seq_lt by done. done.
  - rewrite Hfield by done. rewrite add_year_range_get, Hcs by done.
    cbn [fmap option_fmap option_map]. by rewrite Ha.
  - rewrite Hfield by done. rewrite add_year_range_get, Hce by done.
    cbn [fmap option_fmap option_map]. by rewrite Hb.
  - rewrite Hfield by done. unfold add_year_range. rewrite Hcs, Hce.
    unfold assign; cbn [columns]. rewrite frame_get_set_eq.
    cbn [fmap option_fmap option_map].
    unfold year_range_column. cbn [column_cells].
    by rewrite lookup_zip_with, Ha, Hb.
Qed.

Lemma year_range_joins_cleaned_years_witness :
  ∃ rec a b,
    to_records (add_bookkeeping 0
                  (Frame 1 [("yearstart", ColInt [2011%Z]);
                            ("yearend", ColInt [2012%Z]);
                            ("year_range", ColObject [PStr "2011-2012"])]))
      !! 0%nat = Some rec
    ∧ dict_get "yearstart" rec = Some a
    ∧ dict_get "yearend" rec = Some b
    ∧ dict_get "year_range" rec
      = Some (PStr (@py_str decimal_runtime a ++ "-"
                    ++ @py_str decimal_runtime b)).
Proof.
  apply (@year_range_joins_cleaned_years decimal_runtime
           [[("yearstart", PStr "2011"); ("yearend", PStr "2012")]]
           (Frame 1 [("yearstart", ColInt [2011%Z]);
                     ("yearend", ColInt [2012%Z]);
                     ("year_range", ColObject [PStr "2011-2012"])])
           0 0 [("yearstart", PStr "2011"); ("yearend", PStr "2012")]).
  - vm_compute. reflexivity.
  - reflexivity.
  - apply (bool_decide_unpack _). vm_compute. exact I.
  - apply (bool_decide_unpack _). vm_compute. exact I.
Defined.

(** ** Cleaning: the median used by the fill *)

Lemma insert_sorted_Permutation (x : Q) (l : list Q) :
  insert_sorted x l ≡ₚ x :: l.
Proof.
  induction l as [|y l IH]; simpl; [done|].
  destruct (Qle_bool x y); [done|].
  rewrite IH. apply Permutation_swap.
Qed.

Lemma sort_values_Permutation (l : list Q) : sort_values l ≡ₚ l.
Proof.
  unfold sort_values. induction l as [|x l IH]; simpl; [done|].
  by rewrite insert_sorted_Permutation, IH.
Qed.

Lemma mean_between (a b : Q) :
  (a <= b)%Q → (a <= Qred ((a + b) / 2))%Q ∧ (Qred ((a + b) / 2) <= b)%Q.
Proof.
  intros Hab. rewrite Qred_correct. split.
  - apply Qle_shift_div_l; [done|]. lra.
  - apply Qle_shift_div_r; [done|]. lra.
Qed.

Lemma median_of_within (vals : list Q) :
  match median_of vals with
  | Some m =>
      ∃ a b, a ∈ vals ∧ b ∈ vals ∧ (a <= m)%Q ∧ (m <= b)%Q
  | None => vals = []
  end.
Proof.
  unfold median_of. cbv zeta.
  pose proof (sort_values_Permutation vals) as Hp.
  set (s := sort_values vals) in *.
  assert (∀ i x, s !! i = Some x → x ∈ vals) as Hin.
  { intros i x Hx. rewrite <- Hp. by eapply list_elem_of_lookup_2. }
  destruct (Nat.odd (length s)) eqn:Eodd.
  - destruct (s !! (length s / 2)%nat) as [m|] eqn:Em.
    + exists m, m. split_and!; [by eapply Hin..|apply Qle_refl|apply Qle_refl].
    + apply lookup_ge_None in Em.
      assert (length s = 0)%nat as Hz.
      { destruct (length s) as [|n]; [done|].
        pose proof (Nat.div_lt (S n) 2 ltac:(lia) ltac:(lia)). lia. }
      rewrite Hz in Eodd. done.
  - destruct (s !! (length s / 2 - 1)%nat) as [a|] eqn:Ea.
    + destruct (s !! (length s / 2)%nat) as [b|] eqn:Eb.
      * destruct (Qlt_le_dec b a) as [Hlt|Hle].
        -- apply Qlt_le_weak in Hlt.
           destruct (mean_between b a Hlt) as [H1 H2].
           exists b, a. split_and!; [by eapply Hin..| |].
           ++ by rewrite (Qplus_comm a b).
           ++ by rewrite (Qplus_comm a b).
        -- destruct (mean_between a b Hle) as [H1 H2].
           exists a, b. split_and!; [by eapply Hin..|done|done].
      * apply lookup_ge_None in Eb. apply lookup_lt_Some in Ea.
        pose proof (Nat.div_lt (length s) 2). lia.
    + apply lookup_ge_None in Ea.
      assert (length s = 0)%nat as Hz.
      { destruct (length s) as [|[|n]] eqn:El; [done|done|].
        pose proof (Nat.div_lt (S (S n)) 2 ltac:(lia) ltac:(lia)). lia. }
      apply Permutation_length in Hp. rewrite Hz in Hp.
      symmetry in Hp. by apply length_zero_iff_nil in Hp.
Qed.


(** ** Stage 3: the data columns of the cleaned EV table *)

Lemma dict_keys_is_Some (k : string) (d : doc) :
  k ∈ dict_keys d ↔ is_Some (dict_get k d).
Proof.
  unfold dict_keys. induction d as [|[k' v] d IH]; simpl.
  - split; [by intros ?%elem_of_nil|by intros [? ?]].
  - rewrite elem_of_cons.
    destruct (String.eqb k k') eqn:E.
    + apply String.eqb_eq in E as ->. split; [by eexists|by left].
    + apply String.eqb_neq in E.
      split; [intros [?|?]; [done|by apply IH]|intros ?; right; by apply IH].
Qed.

(** The data columns the analysis script finds in the cleaned EV
    collection are the keys of the raw rows that do not start with an
    underscore: the stamps of the ingestion, the bookkeeping fields of the
    cleaning and the [_id] of the store are all left out, and so is any
    source column whose name starts with an underscore. *)
Theorem analysis_key_columns_are_source_keys `{Runtime} (w w' : world)
    (df : frame) (recs : list doc) (k : string) :
  ev_half w = (inr df, w') →
  store w' !! "ev_data_cleaned" = Some recs →
  k ∈ key_columns (frame_of_docs recs)
  ↔ k ∈ union_keys (filter (λ d, not_metadata d = true)
                      (default [] (store w !! "ev_data_raw")))
    ∧ startswith_underscore k = false.
Proof.
  intros (now & recs' & Hdf & Hne & Hrecs & Hsame & _)%ev_half_run Hstore.
  rewrite Hrecs in Hstore. injection Hstore as ->.
  cbv zeta in Hdf. revert Hdf.
  generalize (filter (λ d, not_metadata d = true)
                (default [] (store w !! "ev_data_raw"))).
  intros docs ->.
  unfold key_columns. rewrite list_elem_of_filter, frame_of_docs_names.
  rewrite union_keys_elem.
  assert (∃ rec, rec ∈ recs) as [rec0 Hrec0].
  { destruct recs as [|rec0 recs]; [|exists rec0; apply list_elem_of_here].
    apply Forall2_nil_inv_r in Hsame. done. }
  assert (∀ rec, rec ∈ recs → k ≠ "_id" →
            (is_Some (dict_get k rec)
             ↔ ((k ∈ union_keys docs) ∧ k ∉ columns_to_drop)
               ∨ k ∈ ["_processed_at"; "_record_id"])) as Hfields.
  { intros rec Hrec Hid.
    rewrite (stored_is_Some _ recs rec k Hsame Hrec Hid).
    by rewrite bookkeeping_is_Some, ev_fill_is_Some. }
  split.
  - intros [Hk (rec & Hrec & Hin)]. split; [|done].
    apply dict_keys_is_Some in Hin.
    assert (k ≠ "_id") as Hid by (by intros ->).
    apply (Hfields rec Hrec Hid) in Hin as [[? _]|Hin]; [done|].
    apply elem_of_cons in Hin as [->|Hin]; [done|].
    apply elem_of_cons in Hin as [->|Hin]; [done|].
    by apply elem_of_nil in Hin.
  - intros [Hk Hu]. split; [done|].
    exists rec0. split; [done|]. apply dict_keys_is_Some.
    assert (k ≠ "_id") as Hid by (by intros ->).
    apply (Hfields rec0 Hrec0 Hid). left.
    split; [done|]. unfold columns_to_drop.
    rewrite !not_elem_of_cons. split_and!; try (by intros ->).
    apply not_elem_of_nil.
Qed.

Lemma analysis_key_columns_are_source_keys_witness :
  "County" ∈ key_columns
               (frame_of_docs
                  (default [] (store (@ev_half decimal_runtime one_row_loaded).2
                                 !! "ev_data_cleaned")))
  ↔ "County" ∈ union_keys (filter (λ d, not_metadata d = true)
                             (default [] (store one_row_loaded
                                            !! "ev_data_raw")))
    ∧ startswith_underscore "County" = false.
Proof.
  apply (@analysis_key_columns_are_source_keys decimal_runtime one_row_loaded
           (@ev_half decimal_runtime one_row_loaded).2 one_row_cleaned).
  - vm_compute. reflexivity.
  - vm_compute. reflexivity.
Defined.

(** ** Stage 4: the column of the EV distribution chart *)

Lemma first_chartable_ok (ev_df : frame) (cols : list string) (col : string) :
  first_chartable ev_df cols = inr (Some col) →
  ∃ before after n,
    cols = (before ++ col :: after)%list
    ∧ nunique (default (ColObject []) (frame_get col (columns ev_df))) = inr n
    ∧ (5 ≤ n ≤ 50)%nat
    ∧ ∀ c, c ∈ before →
        ∃ m, nunique (default (ColObject []) (frame_get c (columns ev_df)))
             = inr m
             ∧ (m < 5 ∨ 50 < m)%nat.
Proof.
  induction cols as [|c cols IH]; cbn [first_chartable]; [done|].
  destruct (nunique (default (ColObject []) (frame_get c (columns ev_df))))
    as [e|n] eqn:En; [done|].
  destruct ((5 <=? n)%nat && (n <=? 50)%nat) eqn:Erange.
  - intros [= ->]. exists [], cols, n.
    apply andb_true_iff in Erange as [?%Nat.leb_le ?%Nat.leb_le].
    split_and!; [done|done|lia|lia|]. by intros ? ?%elem_of_nil.
  - intros (before & after & n' & -> & Hn & Hr & Hb)%IH.
    exists (c :: before), after, n'. split_and!; [done|done|lia|lia|].
    intros c' [->|Hc']%elem_of_cons; [|by apply Hb].
    exists n. split; [done|].
    apply andb_false_iff in Erange as [?%Nat.leb_gt|?%Nat.leb_gt]; lia.
Qed.

Lemma first_chartable_none (ev_df : frame) (cols : list string) :
  first_chartable ev_df cols = inr None →
  ∀ c, c ∈ cols →
    ∃ m, nunique (default (ColObject []) (frame_get c (columns ev_df)))
         = inr m
         ∧ (m < 5 ∨ 50 < m)%nat.
Proof.
  induction cols as [|c cols IH]; cbn [first_chartable];
    [by intros _ ? ?%elem_of_nil|].
  destruct (nunique (default (ColObject []) (frame_get c (columns ev_df))))
    as [e|n] eqn:En; [done|].
  destruct ((5 <=? n)%nat && (n <=? 50)%nat) eqn:Erange; [done|].
  intros Hrest c' [->|Hc']%elem_of_cons; [|by apply IH].
  exists n. split; [done|].
  apply andb_false_iff in Erange as [?%Nat.leb_gt|?%Nat.leb_gt]; lia.
Qed.

Lemma ev_categorical_elem (ev_df : frame) (col : string) :
  col ∈ ev_categorical ev_df →
  startswith_underscore col = false
  ∧ ∃ c, (col, c) ∈ columns ev_df ∧ is_object_dtype c = true.
Proof.
  unfold ev_categorical.
  intros (kc & -> & Hin)%list_elem_of_fmap.
  apply list_elem_of_filter in Hin as [(Hobj & Hus & _) Hin].
  destruct kc as [k c]. split; [done|]. by exists c.
Qed.

(** The EV distribution chart is drawn for the first column, in the order
    of the table, that holds Python objects, whose name does not start
    with an underscore, and that has between 5 and 50 distinct values:
    every such column before it has fewer than 5 or more than 50.  When no
    chart is drawn, every candidate column is out of that range. *)
Theorem distribution_column_is_first_fit (ev_df : frame) :
  match distribution_column ev_df with
  | inr (Some col) =>
      ∃ before after n,
        ev_categorical ev_df = (before ++ col :: after)%list
        ∧ startswith_underscore col = false
        ∧ (∃ c, (col, c) ∈ columns ev_df ∧ is_object_dtype c = true)
        ∧ nunique (default (ColObject []) (frame_get col (columns ev_df)))
          = inr n
        ∧ (5 ≤ n ≤ 50)%nat
        ∧ ∀ c, c ∈ before →
            ∃ m, nunique (default (ColObject [])
                            (frame_get c (columns ev_df))) = inr m
                 ∧ (m < 5 ∨ 50 < m)%nat
  | inr None =>
      ∀ c, c ∈ ev_categorical ev_df →
        ∃ m, nunique (default (ColObject []) (frame_get c (columns ev_df)))
             = inr m
             ∧ (m < 5 ∨ 50 < m)%nat
  | inl _ => True
  end.
Proof.
  unfold distribution_column.
  destruct (first_chartable ev_df (ev_categorical ev_df)) as [e|[col|]] eqn:E;
    [done| |].
  - destruct (first_chartable_ok _ _ _ E)
      as (before & after & n & Hcols & Hn & Hr & Hb).
    assert (col ∈ ev_categorical ev_df) as Hin.
    { rewrite Hcols. apply elem_of_app. right. apply list_elem_of_here. }
    apply ev_categorical_elem in Hin as [Hus Hobj].
    by exists before, after, n.
  - by apply first_chartable_none.
Qed.

Lemma replace_char_absent (a b : ascii) (s : string) :
  a ≠ b → a ∉ list_ascii_of_string (replace_char a b s).
Proof.
  intros Hab. induction s as [|c s IH]; simpl; [apply not_elem_of_nil|].
  apply not_elem_of_cons. split; [|done].
  destruct (Ascii.eqb c a) eqn:E; [done|].
  apply Ascii.eqb_neq in E. congruence.
Qed.

Lemma list_ascii_of_string_app (s t : string) :
  list_ascii_of_string (s ++ t)
  = (list_ascii_of_string s ++ list_ascii_of_string t)%list.
Proof. induction s as [|c s IH]; simpl; [done|]. by rewrite IH. Qed.

(** The file name of the EV distribution chart holds no space, whatever
    the name of the column: each space of the column name is written as an
    underscore, and the other characters are kept. *)
Theorem ev_distribution_file_has_no_space (col : string) :
  (" "%char ∉ list_ascii_of_string (ev_distribution_file col))
  ∧ (" "%char ∉ list_ascii_of_string col →
     ev_distribution_file col
     = "visualizations/ev_distribution_" ++ col ++ ".png").
Proof.
  unfold ev_distribution_file. split.
  - rewrite !list_ascii_of_string_app, !elem_of_app.
    intros [Hin|[Hin|Hin]].
    + revert Hin. apply (bool_decide_unpack _). by vm_compute.
    + by apply replace_char_absent in Hin.
    + revert Hin. apply (bool_decide_unpack _). by vm_compute.
  - intros Hno. do 2 f_equal.
    induction col as [|c col IH]; simpl; [done|].
    simpl in Hno. apply not_elem_of_cons in Hno as [Hc Hno].
    rewrite IH by done. destruct (Ascii.eqb c " ") eqn:E; [|done].
    apply Ascii.eqb_eq in E. congruence.
Qed.

(** ** From ingestion to cleaning: the sampled rows *)

Lemma base_document_has_no_flag (now : Z) :
  dict_get "is_metadata" (ev_base_document now) = None.
Proof. reflexivity. Qed.

Lemma row_document_not_metadata (names : list pyval) (now : Z)
    (row : list pyval) (d d' : doc) :
  PStr "is_metadata" ∉ names →
  row_document names now row = inr d →
  same_fields d d' →
  not_metadata d' = true.
Proof.
  intros Hnames Hd Hsame. unfold not_metadata.
  rewrite Hsame by done.
  destruct (dict_get "is_metadata" d) as [v|] eqn:E; [|done].
  apply row_document_fields in Hd as [Honly _].
  destruct (Honly _ _ E) as [Hbase|(idx & Hidx & _)].
  - by rewrite base_document_has_no_flag in Hbase.
  - exfalso. apply Hnames. by eapply list_elem_of_lookup_2.
Qed.

Lemma filter_all {A} (P : A → Prop) `{∀ x, Decision (P x)} (l : list A) :
  Forall P l → filter P l = l.
Proof.
  induction 1 as [|x l Hx _ IH]; [done|].
  rewrite filter_cons. destruct (decide (P x)); [by rewrite IH|done].
Qed.

Lemma Forall2_right {A B} (P : B → Prop) (l : list A) (k : list B) :
  Forall2 (λ _ y, P y) l k → Forall P k.
Proof. induction 1; by constructor. Qed.

(** The two stages composed.  When the EV block has run to its end and
    no EV column is called [is_metadata], the cleaning script loads
    exactly the stored rows: its cleaned EV collection holds
    min(len(data), 2500) records.  (A row stored with a true
    [is_metadata] field of its own would be taken for a metadata document
    and skipped.) *)
Theorem sampled_rows_reach_cleaned `{Runtime} (j : pyval) (w w1 w2 : world)
    (df : frame) :
  ev_store j w = (inr (), w1) →
  ev_half w1 = (inr df, w2) →
  (∀ meta rest names,
     store w1 !! EV_RAW_COLLECTION = Some (meta :: rest) →
     dict_get "columns" meta = Some (PList names) →
     PStr "is_metadata" ∉ names) →
  ∃ data total recs,
    py_get j "data" (PList []) = inr data
    ∧ py_len data = inr total
    ∧ store w2 !! "ev_data_cleaned" = Some recs
    ∧ length recs = (total `min` SAMPLE_SIZE)%nat.
Proof.
  intros (meta & view & columns_meta & cols & names & data & total & now
          & all_rows & rows & docs & meta' & stored & _ & _ & _ & _ & _
          & Hdata & Htotal & Hiter & Hlen & Hsel & Hdocs & Hsame & Hall & _
          & Hstore & _)%ev_store_run Hhalf Hnames.
  assert (PStr "is_metadata" ∉ names) as Hno.
  { apply (Hnames meta' stored names Hstore). by rewrite Hsame. }
  assert (filter (λ d, not_metadata d = true) (meta' :: stored) = stored)
    as Hfilter.
  { rewrite filter_cons.
    destruct (decide (not_metadata meta' = true)) as [Hm|_].
    - unfold not_metadata in Hm. rewrite Hsame in Hm by done.
      by rewrite metadata_flag_ev in Hm.
    - apply filter_all, (Forall2_right _ rows).
      eapply Forall2_compose; [|exact Hdocs|exact Hall].
      intros row d d' (t & values & _ & Hd) Hdd'. simpl.
      by eapply row_document_not_metadata. }
  apply ev_half_run in Hhalf as (now' & recs & Hdf & _ & Hrecs & Hrs & _).
  cbv zeta in Hdf. unfold EV_RAW_COLLECTION in Hstore.
  rewrite Hstore in Hdf.
  change (default [] (Some (meta' :: stored))) with (meta' :: stored) in Hdf.
  rewrite Hfilter in Hdf.
  exists data, total, recs. split_and!; [done..|].
  rewrite <- (Forall2_length _ _ _ Hrs), to_records_length, Hdf.
  rewrite add_bookkeeping_nrows, ev_fill_nrows.
  rewrite <- (Forall2_length _ _ _ Hall), <- (Forall2_length _ _ _ Hdocs).
  destruct (SAMPLE_SIZE <? total)%nat eqn:E.
  - apply Nat.ltb_lt in E. destruct Hsel as [-> _]. lia.
  - apply Nat.ltb_ge in E. subst. lia.
Qed.

Lemma sampled_rows_reach_cleaned_witness :
  ∃ data total recs,
    py_get one_row_payload "data" (PList []) = inr data
    ∧ py_len data = inr total
    ∧ store (@ev_half decimal_runtime
               (ev_store one_row_payload one_row_world).2).2
        !! "ev_data_cleaned" = Some recs
    ∧ length recs = (total `min` SAMPLE_SIZE)%nat.
Proof.
  apply (@sampled_rows_reach_cleaned decimal_runtime one_row_payload
           one_row_world (ev_store one_row_payload one_row_world).2
           (@ev_half decimal_runtime
              (ev_store one_row_payload one_row_world).2).2
           (match (@ev_half decimal_runtime
                     (ev_store one_row_payload one_row_world).2).1 with
            | inr df => df
            | inl _ => Frame 0 []
            end)).
  - vm_compute. reflexivity.
  - vm_compute. reflexivity.
  - intros meta rest names Hstore Hcolumns.
    vm_compute in Hstore. injection Hstore as <- <-.
    vm_compute in Hcolumns. injection Hcolumns as <-.
    intros Hin. apply elem_of_cons in Hin as [Heq|Hin]; [discriminate|].
    by apply elem_of_nil in Hin.
Defined.

(** ** The closing summaries *)

Lemma store_command_run (w w' : world) :
  store_command w = (inr (), w') → store w' = store w ∧ trace w' = trace w.
Proof.
  unfold store_command. destruct (faults w) as [|[e|] fs]; by intros [= <-].
Qed.

Lemma count_documents_run (name : string) (w w' : world) (n : nat) :
  count_documents name w = (inr n, w') →
  n = length (default [] (store w !! name))
  ∧ store w' = store w ∧ trace w' = trace w.
Proof.
  unfold count_documents.
  intros ([] & w1 & [Hs Ht]%store_command_run & Hrest)%bind_ok.
  apply bind_ok in Hrest as (s & w2 & [= <- <-] & [= <- <-]).
  by rewrite Hs.
Qed.

Lemma find_run (name : string) (keep : doc → bool) (w w' : world)
    (r : list doc) :
  find name keep w = (inr r, w') → store w' = store w ∧ trace w' = trace w.
Proof.
  unfold find.
  intros ([] & w1 & [Hs Ht]%store_command_run & Hrest)%bind_ok.
  by apply bind_ok in Hrest as (s & w2 & [= <- <-] & [= <- <-]).
Qed.

Lemma list_collection_names_run (w w' : world) (l : list string) :
  list_collection_names w = (inr l, w') →
  l = (map_to_list (store w)).*1 ∧ store w' = store w ∧ trace w' = trace w.
Proof.
  unfold list_collection_names.
  intros ([] & w1 & [Hs Ht]%store_command_run & Hrest)%bind_ok.
  apply bind_ok in Hrest as (s & w2 & [= <- <-] & [= <- <-]).
  by rewrite Hs.
Qed.

Lemma emit_run (ev : event) (w w' : world) :
  emit ev w = (inr (), w') →
  store w' = store w ∧ trace w' = (trace w ++ [ev])%list.
Proof. by intros [= <-]. Qed.

Lemma counting_loop (l : list string) (f : string → M ()) (w w' : world) :
  (∀ name w0 w1, f name w0 = (inr (), w1) →
     store w1 = store w0
     ∧ trace w1
       = (trace w0
          ++ [DocumentCount name (length (default [] (store w0 !! name)))])%list) →
  forM_ l f w = (inr (), w') →
  store w' = store w
  ∧ trace w'
    = (trace w
       ++ ((λ name, DocumentCount name (length (default [] (store w !! name))))
             <$> l))%list.
Proof.
  intros Hf. revert w. induction l as [|name l IH]; intros w; simpl.
  - intros [= <-]. by rewrite app_nil_r.
  - intros ([] & w1 & [Hs Ht]%Hf & [Hs' Ht']%IH)%bind_ok.
    split; [congruence|].
    by rewrite Ht', Ht, Hs, <- app_assoc.
Qed.

(** The summary that closes the ingestion script, and the one that closes
    the cleaning script, report for every collection of the database, in
    the order the store lists them, the number of all its documents: the
    count uses an empty filter, so metadata documents are counted with the
    rows.  Neither summary changes the store. *)
Theorem summaries_count_all_documents (w w' : world) :
  ingestion_summary w = (inr (), w') ∨ cleaning_summary w = (inr (), w') →
  store w' = store w
  ∧ trace w'
    = (trace w
       ++ ((λ name, DocumentCount name (length (default [] (store w !! name))))
             <$> (map_to_list (store w)).*1))%list.
Proof.
  intros [Hrun|Hrun].
  - unfold ingestion_summary in Hrun.
    apply bind_ok in Hrun
      as (l & w0 & (-> & Hs & Ht)%list_collection_names_run & Hloop).
    apply counting_loop in Hloop as [Hs' Ht'].
    + split; [congruence|]. by rewrite Ht', Ht, Hs.
    + intros name w1 w2 Hbody.
      apply bind_ok in Hbody
        as (n & w3 & (-> & Hs3 & Ht3)%count_documents_run & Hbody).
      apply bind_ok in Hbody as (r & w4 & [Hs4 Ht4]%find_run & Hbody).
      apply emit_run in Hbody as [Hs5 Ht5].
      split; [congruence|]. by rewrite Ht5, Ht4, Ht3.
  - unfold cleaning_summary in Hrun.
    apply bind_ok in Hrun
      as (l & w0 & (-> & Hs & Ht)%list_collection_names_run & Hloop).
    apply counting_loop in Hloop as [Hs' Ht'].
    + split; [congruence|]. by rewrite Ht', Ht, Hs.
    + intros name w1 w2 Hbody.
      apply bind_ok in Hbody
        as (n & w3 & (-> & Hs3 & Ht3)%count_documents_run & Hbody).
      apply emit_run in Hbody as [Hs5 Ht5].
      split; [congruence|]. by rewrite Ht5, Ht3.
Qed.

Lemma summaries_count_all_documents_witness :
  store (ingestion_summary one_row_loaded).2 = store one_row_loaded
  ∧ trace (ingestion_summary one_row_loaded).2
    = (trace one_row_loaded
       ++ ((λ name, DocumentCount name
                      (length (default [] (store one_row_loaded !! name))))
             <$> (map_to_list (store one_row_loaded)).*1))%list.
Proof.
  apply (summaries_count_all_documents one_row_loaded
           (ingestion_summary one_row_loaded).2).
  left. vm_compute. reflexivity.
Defined.
